(** * utop: sampler, GPU probe cache, key dispatch and byte formatting

    A shallow embedding of [src/main.c] together with the properties the
    specification states about it.  The older [utop.c] has the same code
    for the CPU totals, the process list, the sort, the keys and the byte
    formatting, without the network and GPU readers and with a single
    buffer in [human_bytes].

    Conventions of the embedding.
    - [unsigned long long] values are integers in [0, 2^64); every C
      operation on them is written with its reduction modulo 2^64.
    - A [double] is the rational number it denotes.  Every arithmetic
      operation rounds its exact result to 53 significant bits, to nearest,
      ties to even (IEEE 754 binary64 with the exponent left unbounded).
      The model is that of the machine for results in the normal range
      of binary64 (2^-1022 up to 2^1024) and for zero; a result below
      that range, which the machine rounds to a subnormal or to 0, is
      outside it.  No theorem rests on the outcome of an operation below
      that range: the operands are integers, or readings that the
      hypotheses bound where the sign of a quotient matters.  No operation of
      the modelled paths divides by zero, so infinities and NaN do not
      arise there.
    - What libc returns for the environment (file contents parsed by
      [sscanf]/[fscanf]/[atof], directory listings, the clock, bytes read
      from the terminal) is an explicit argument of the function that
      consumes it.  A number read from a file as a [double] is taken to
      be finite.
    - Allocation is taken to succeed; where the code checks it, a failed
      [realloc] or [calloc] ends the program with [exit(1)]. *)

From Stdlib Require Import ZArith QArith Qround Qpower Qabs Lia Lqa.
From Stdlib Require Import Floats Uint63.
From Stdlib Require Import List Bool Ascii String DecimalString Permutation Sorted.
Import ListNotations.

Local Open Scope Z_scope.

(* ================================================================== *)
(** ** Machine arithmetic *)

Module U64.

Definition modulus : Z := 2 ^ 64.

Definition wrap (z : Z) : Z := z mod modulus.

Definition add (a b : Z) : Z := wrap (a + b).
Definition sub (a b : Z) : Z := wrap (a - b).
Definition mul (a b : Z) : Z := wrap (a * b).

Definition in_range (z : Z) : Prop := 0 <= z < modulus.

End U64.

(** The sign-preserving truncating division of C on [long long]. *)
Definition c_div (a b : Z) : Z := Z.quot a b.

(* ================================================================== *)
(** ** The [double] model *)

Module Dbl.

Definition double := Q.

(** Round to the nearest integer, ties to the even one. *)
Definition rne (x : Q) : Z :=
  let f := Qfloor x in
  match Qcompare (x - inject_Z f) (1 # 2) with
  | Lt => f
  | Gt => f + 1
  | Eq => if Z.even f then f else f + 1
  end.

(** [ilog2 q] is the binary exponent of a positive [q]:
    [2 ^ ilog2 q <= q < 2 ^ (ilog2 q + 1)]. *)
Definition ilog2 (q : Q) : Z :=
  let e0 := Z.log2 (Qnum q) - Z.log2 (Zpos (Qden q)) in
  if Qle_bool (2 ^ e0) q then e0 else e0 - 1.

Definition rnd_pos (q : Q) : Q :=
  let e := ilog2 q in
  (inject_Z (rne (q * 2 ^ (52 - e))) * 2 ^ (e - 52))%Q.

(** Rounding of an exact result to binary64. *)
Definition rnd (q : Q) : double :=
  match Qcompare q 0 with
  | Eq => 0%Q
  | Gt => Qred (rnd_pos q)
  | Lt => Qred (- rnd_pos (- q))
  end.

Definition fadd (a b : double) : double := rnd (a + b).
Definition fsub (a b : double) : double := rnd (a - b).
Definition fmul (a b : double) : double := rnd (a * b).
Definition fdiv (a b : double) : double := rnd (a / b).

(** Conversion of an integer ([unsigned long long], [long], [int]). *)
Definition of_int (z : Z) : double := rnd (inject_Z z).

(** Conversion of a [double] to [unsigned long long] (truncation). *)
Definition to_u64 (d : double) : Z := Z.quot (Qnum d) (Zpos (Qden d)).

Definition fltb (a b : double) : bool := negb (Qle_bool b a).
Definition fleb (a b : double) : bool := Qle_bool a b.
Definition fgtb (a b : double) : bool := fltb b a.
Definition fgeb (a b : double) : bool := fleb b a.

End Dbl.
Import Dbl.

(** The rational a kernel binary64 float denotes (0 for infinities and
    NaN), to compare the model with the machine's arithmetic. *)
Definition binary64_value (f : float) : Q :=
  match Prim2SF f with
  | S754_finite s m e => Qred ((if s then -1 else 1) * inject_Z (Zpos m) * 2 ^ e)%Q
  | _ => 0%Q
  end.

(* ================================================================== *)
(** ** Strings as libc sees them *)

Module CStr.

Definition isdigit (c : ascii) : bool :=
  let n := Z.of_nat (nat_of_ascii c) in (48 <=? n) && (n <=? 57).

(** [isprint] in the "C" locale (the program never calls [setlocale]). *)
Definition isprint (c : Z) : bool := (32 <=? c) && (c <=? 126).

Definition tolower (c : ascii) : ascii :=
  let n := nat_of_ascii c in
  if (65 <=? n)%nat && (n <=? 90)%nat then ascii_of_nat (n + 32) else c.

Fixpoint lower (s : string) : string :=
  match s with
  | EmptyString => EmptyString
  | String c r => String (tolower c) (lower r)
  end.

(** [strstr hay needle <> NULL]. *)
Fixpoint strstr (hay needle : string) : bool :=
  if String.prefix needle hay then true
  else match hay with
       | EmptyString => false
       | String _ r => strstr r needle
       end.

(** [strcasestr hay needle <> NULL]. *)
Definition strcasestr (hay needle : string) : bool :=
  strstr (lower hay) (lower needle).

(** [strchr s c <> NULL]. *)
Fixpoint strchr (s : string) (c : ascii) : bool :=
  match s with
  | EmptyString => false
  | String d r => if Ascii.eqb d c then true else strchr r c
  end.

(** [strncmp s p (strlen p) == 0]. *)
Definition starts_with (s p : string) : bool := String.prefix p s.

(** The decimal digits [strtol] consumes at the head of a name that
    starts with a digit (no sign, no leading blanks on that path), as a
    number. *)
Fixpoint atoi_from (acc : Z) (s : string) : Z :=
  match s with
  | EmptyString => acc
  | String c r =>
      if isdigit c
      then atoi_from (acc * 10 + (Z.of_nat (nat_of_ascii c) - 48)) r
      else acc
  end.

(** The conversion of a [long] to [int]: the low 32 bits, as a signed
    number. *)
Definition long_to_int (z : Z) : Z := (z + 2 ^ 31) mod 2 ^ 32 - 2 ^ 31.

(** [atoi], as glibc defines it: [(int) strtol (s, NULL, 10)], where
    [strtol] saturates at [LONG_MAX]. *)
Definition atoi (s : string) : Z :=
  long_to_int (Z.min (atoi_from 0 s) (2 ^ 63 - 1)).

(** [sprintf "%d"] and [sprintf "%llu"]. *)
Definition fmt_d (z : Z) : string := NilZero.string_of_int (Z.to_int z).
Definition fmt_llu (z : Z) : string := NilZero.string_of_uint (N.to_uint (Z.to_N z)).

Fixpoint zero_pad (width : nat) (s : string) : string :=
  if (String.length s <? width)%nat
  then match width with
       | O => s
       | S w => String "0"%char (zero_pad w s)
       end
  else s.

(** [sprintf "%.<digits>f"] of a non-negative value: the exact value is
    rounded to [digits] decimals, to nearest, ties to even. *)
Definition fmt_f (digits : nat) (d : double) : string :=
  let scale := 10 ^ Z.of_nat digits in
  let r := rne (d * inject_Z scale) in
  (fmt_llu (r / scale) ++ "." ++ zero_pad digits (fmt_llu (r mod scale)))%string.

End CStr.

(* ================================================================== *)
(** ** Data structures *)

Record CpuTimes := mkCpuTimes {
  user : Z; nice : Z; system : Z; idle : Z;
  iowait : Z; irq : Z; softirq : Z; steal : Z }.

Record MemorySnapshot := mkMemorySnapshot {
  used_bytes : Z; total_bytes : Z;
  swap_used_bytes : Z; swap_total_bytes : Z;
  cma_used_bytes : Z; cma_total_bytes : Z }.

Record GpuSnapshot := mkGpuSnapshot {
  g_name : string;
  usage : double;
  mem_used : Z; mem_total : Z;
  temp : double;
  has_usage : bool; has_mem : bool; has_temp : bool }.

Record ProcessInfo := mkProcessInfo {
  pid : Z;
  name : string;
  cpu_percent : double;
  mem_bytes : Z;
  threads : Z }.

Inductive SortMode := SORT_CPU | SORT_MEM.

Record NetworkSnapshot := mkNetworkSnapshot {
  iface : string; rx_rate : double; tx_rate : double }.

Record NetStats := mkNetStats { ns_iface : string; rx : Z; tx : Z }.

Record timeval := mkTimeval { tv_sec : Z; tv_usec : Z }.

Record PidTicks := mkPidTicks { ticks : Z; pt_pid : Z }.

Record V3dStats := mkV3dStats { queue : string; last_ts : Z; last_rt : Z }.

(** The [Sampler].  [prev_ticks] and [prev_net] are the arrays with their
    counts; [v3d_stats] holds the [v3d_stats_count] used slots of the
    16-slot array. *)
Record Sampler := mkSampler {
  prev_cpu : CpuTimes;
  prev_ticks : list PidTicks;
  prev_net : list NetStats;
  last_sample : timeval;
  page_size : Z;
  v3d_stats : list V3dStats }.

Definition v3d_stats_count (s : Sampler) : Z := Z.of_nat (List.length (v3d_stats s)).

Definition zero_cpu : CpuTimes := mkCpuTimes 0 0 0 0 0 0 0 0.
Definition zero_mem : MemorySnapshot := mkMemorySnapshot 0 0 0 0 0 0.

(** [sampler_create]: [calloc] zeroes everything, then the page size and
    the creation time are stored. *)
Definition sampler_create (pagesize : Z) (now : timeval) : Sampler :=
  mkSampler zero_cpu [] [] now pagesize [].

(* ================================================================== *)
(** ** [human_bytes] *)

Module HumanBytes.

(** The function's statics: eight rotating 32-byte buffers and the index
    of the one written last. *)
Record statics := mkStatics { idx : Z; bufs : list string }.

Definition init : statics := mkStatics 0 (repeat EmptyString 8).

Definition KiB : double := 1024%Q.
Definition MiB : double := (1024 * 1024)%Q.
Definition GiB : double := (1024 * 1024 * 1024)%Q.

(** The text [sprintf] writes. *)
Definition text (bytes : Z) : string :=
  let v := of_int bytes in
  if fgeb v GiB then (CStr.fmt_f 2 (fdiv v GiB) ++ " GiB")%string
  else if fgeb v MiB then (CStr.fmt_f 1 (fdiv v MiB) ++ " MiB")%string
  else if fgeb v KiB then (CStr.fmt_f 1 (fdiv v KiB) ++ " KiB")%string
  else (CStr.fmt_llu bytes ++ " B")%string.

Fixpoint store (n : nat) (s : string) (l : list string) : list string :=
  match l, n with
  | [], _ => []
  | _ :: r, O => s :: r
  | x :: r, S m => x :: store m s r
  end.

(** [human_bytes]: advances the buffer index, writes the text into that
    buffer and returns it (here: the new statics and the buffer's index). *)
Definition human_bytes (st : statics) (bytes : Z) : statics * Z :=
  let i := (idx st + 1) mod 8 in
  (mkStatics i (store (Z.to_nat i) (text bytes) (bufs st)), i).

(** What the returned pointer points to. *)
Definition deref (st : statics) (p : Z) : string :=
  nth (Z.to_nat p) (bufs st) EmptyString.

End HumanBytes.

(* ================================================================== *)
(** ** Counter readers *)

(** [read_cpu_times].  The argument is [None] when [/proc/stat] cannot be
    opened or has no first line, and otherwise the values [sscanf] stored
    for ["cpu %llu ..."], in order; a field it did not reach keeps its 0. *)
Definition read_cpu_times (f : option (list Z)) : CpuTimes :=
  match f with
  | None => zero_cpu
  | Some l =>
      mkCpuTimes (nth 0 l 0) (nth 1 l 0) (nth 2 l 0) (nth 3 l 0)
                 (nth 4 l 0) (nth 5 l 0) (nth 6 l 0) (nth 7 l 0)
  end.

(** A line of [/proc/meminfo]: its text, and the number [sscanf "%llu"]
    converts after the key ([None] when it converts nothing). *)
Record MemLine := mkMemLine { ml_text : string; ml_num : option Z }.

Record MemVars := mkMemVars {
  mv_total : Z; mv_avail : Z; mv_s_total : Z; mv_s_free : Z;
  mv_cma_total : Z; mv_cma_free : Z }.

Definition mem_line (v : MemVars) (l : MemLine) : MemVars :=
  let put (old : Z) := match ml_num l with Some n => n | None => old end in
  let t := ml_text l in
  if CStr.starts_with t "MemTotal:"%string then
    mkMemVars (put (mv_total v)) (mv_avail v) (mv_s_total v) (mv_s_free v)
              (mv_cma_total v) (mv_cma_free v)
  else if CStr.starts_with t "MemAvailable:"%string then
    mkMemVars (mv_total v) (put (mv_avail v)) (mv_s_total v) (mv_s_free v)
              (mv_cma_total v) (mv_cma_free v)
  else if CStr.starts_with t "SwapTotal:"%string then
    mkMemVars (mv_total v) (mv_avail v) (put (mv_s_total v)) (mv_s_free v)
              (mv_cma_total v) (mv_cma_free v)
  else if CStr.starts_with t "SwapFree:"%string then
    mkMemVars (mv_total v) (mv_avail v) (mv_s_total v) (put (mv_s_free v))
              (mv_cma_total v) (mv_cma_free v)
  else if CStr.starts_with t "CmaTotal:"%string then
    mkMemVars (mv_total v) (mv_avail v) (mv_s_total v) (mv_s_free v)
              (put (mv_cma_total v)) (mv_cma_free v)
  else if CStr.starts_with t "CmaFree:"%string then
    mkMemVars (mv_total v) (mv_avail v) (mv_s_total v) (mv_s_free v)
              (mv_cma_total v) (put (mv_cma_free v))
  else v.

(** [read_memory]; [None] when [/proc/meminfo] cannot be opened. *)
Definition read_memory (f : option (list MemLine)) : MemorySnapshot :=
  match f with
  | None => zero_mem
  | Some lines =>
      let v := fold_left mem_line lines (mkMemVars 0 0 0 0 0 0) in
      mkMemorySnapshot
        (U64.mul (U64.sub (mv_total v) (mv_avail v)) 1024)
        (U64.mul (mv_total v) 1024)
        (U64.mul (U64.sub (mv_s_total v) (mv_s_free v)) 1024)
        (U64.mul (mv_s_total v) 1024)
        (U64.mul (U64.sub (mv_cma_total v) (mv_cma_free v)) 1024)
        (U64.mul (mv_cma_total v) 1024)
  end.

Definition is_cpuN_line (line : string) : bool :=
  CStr.starts_with line "cpu"%string &&
  match String.get 3 line with Some c => CStr.isdigit c | None => false end.

(** [read_cpu_count]; [None] when [/proc/stat] cannot be opened. *)
Definition read_cpu_count (f : option (list string)) : Z :=
  match f with
  | None => 1
  | Some lines =>
      let count := Z.of_nat (List.length (filter is_cpuN_line lines)) in
      if 0 <? count then count else 1
  end.

(* ================================================================== *)
(** ** [read_network] *)

(** A data line of [/proc/net/dev] on which [sscanf] converted the
    interface name, field 1 and field 9. *)
Record NetRow := mkNetRow { nr_iface : string; nr_rx : Z; nr_tx : Z }.

Definition default_net : NetworkSnapshot := mkNetworkSnapshot "-"%string 0%Q 0%Q.

Fixpoint find_prev_net (prev : list NetStats) (ifc : string) : option NetStats :=
  match prev with
  | [] => None
  | p :: r => if String.eqb (ns_iface p) ifc then Some p else find_prev_net r ifc
  end.

(** The loop's variables: [cur_net], [best_total], [best]. *)
Record NetAcc := mkNetAcc {
  cur_net : list NetStats; best_total : Z; best : NetworkSnapshot }.

(** [rx_r] and [tx_r]: the difference to the previous counter, 0 when the
    counter went backwards, over the elapsed time. *)
Definition net_rate (cur prev : Z) (elapsed : double) : double :=
  fdiv (of_int (if prev <=? cur then U64.sub cur prev else 0)) elapsed.

(** What the loop computes for one interface: the previous counters are
    those of the first entry of the old table with that name, and the
    current ones when there is none. *)
Definition row_snapshot (prev : list NetStats) (elapsed : double) (r : NetRow)
    : NetworkSnapshot :=
  let prev_rx := match find_prev_net prev (nr_iface r) with
                 | Some p => rx p | None => nr_rx r end in
  let prev_tx := match find_prev_net prev (nr_iface r) with
                 | Some p => tx p | None => nr_tx r end in
  mkNetworkSnapshot (nr_iface r) (net_rate (nr_rx r) prev_rx elapsed)
                    (net_rate (nr_tx r) prev_tx elapsed).

Definition row_total (r : NetRow) : Z := U64.add (nr_rx r) (nr_tx r).

(** One iteration of the [while (fgets ...)] loop.  [None] is a line the
    loop skips before looking at it: no [':'], or fewer than three
    conversions. *)
Definition net_line (prev : list NetStats) (elapsed : double)
    (a : NetAcc) (line : option NetRow) : NetAcc :=
  match line with
  | None => a
  | Some r =>
      if String.eqb (nr_iface r) "lo"%string then a
      else
        let cur := cur_net a ++ [mkNetStats (nr_iface r) (nr_rx r) (nr_tx r)] in
        if best_total a <? row_total r
        then mkNetAcc cur (row_total r) (row_snapshot prev elapsed r)
        else mkNetAcc cur (best_total a) (best a)
  end.

(** [read_network].  [None] when [/proc/net/dev] cannot be opened: the
    default snapshot is returned and the sampler keeps its table.
    Otherwise the argument lists the lines after the two header lines. *)
Definition read_network (s : Sampler) (f : option (list (option NetRow)))
    (elapsed : double) : Sampler * NetworkSnapshot :=
  match f with
  | None => (s, default_net)
  | Some lines =>
      let a := fold_left (net_line (prev_net s) elapsed) lines
                         (mkNetAcc [] 0 default_net) in
      (mkSampler (prev_cpu s) (prev_ticks s) (cur_net a) (last_sample s)
                 (page_size s) (v3d_stats s),
       best a)
  end.

(* ================================================================== *)
(** ** [read_gpu] *)

Module Gpu.

Definition set_name (g : GpuSnapshot) (n : string) : GpuSnapshot :=
  mkGpuSnapshot n (usage g) (mem_used g) (mem_total g) (temp g)
                (has_usage g) (has_mem g) (has_temp g).
Definition set_usage (g : GpuSnapshot) (u : double) : GpuSnapshot :=
  mkGpuSnapshot (g_name g) u (mem_used g) (mem_total g) (temp g)
                (has_usage g) (has_mem g) (has_temp g).
Definition set_has_usage (g : GpuSnapshot) (b : bool) : GpuSnapshot :=
  mkGpuSnapshot (g_name g) (usage g) (mem_used g) (mem_total g) (temp g)
                b (has_mem g) (has_temp g).
Definition set_mem_used (g : GpuSnapshot) (m : Z) : GpuSnapshot :=
  mkGpuSnapshot (g_name g) (usage g) m (mem_total g) (temp g)
                (has_usage g) (has_mem g) (has_temp g).
Definition set_mem_total (g : GpuSnapshot) (m : Z) : GpuSnapshot :=
  mkGpuSnapshot (g_name g) (usage g) (mem_used g) m (temp g)
                (has_usage g) (has_mem g) (has_temp g).
Definition set_has_mem (g : GpuSnapshot) (b : bool) : GpuSnapshot :=
  mkGpuSnapshot (g_name g) (usage g) (mem_used g) (mem_total g) (temp g)
                (has_usage g) b (has_temp g).
Definition set_temp (g : GpuSnapshot) (t : double) : GpuSnapshot :=
  mkGpuSnapshot (g_name g) (usage g) (mem_used g) (mem_total g) t
                (has_usage g) (has_mem g) (has_temp g).
Definition set_has_temp (g : GpuSnapshot) (b : bool) : GpuSnapshot :=
  mkGpuSnapshot (g_name g) (usage g) (mem_used g) (mem_total g) (temp g)
                (has_usage g) (has_mem g) b.

(** The initialiser of both [cached_gpu] and [g]. *)
Definition blank : GpuSnapshot :=
  mkGpuSnapshot "GPU" 0%Q 0 0 (-1000)%Q false false false.

(** *** What the probes read *)

(** A token of the [nvidia-smi] line: what [atof] and [atoll] make of it. *)
Record NvToken := mkNvToken { tok_f : double; tok_i : Z }.

(** A data line of [gpu_stats] on which [sscanf] converted the queue name,
    the timestamp and the runtime. *)
Record V3dRow := mkV3dRow { vr_queue : string; vr_ts : Z; vr_rt : Z }.

(** An entry of [device/hwmon]: its name and its [temp1_input]
    ([None]: cannot be opened; [Some None]: opened, nothing converted). *)
Record HwmonEntry := mkHwmonEntry {
  hw_name : string; hw_temp1 : option (option double) }.

(** An entry of [/sys/class/drm]. *)
Record DrmEntry := mkDrmEntry {
  d_name : string;
  (** the four usage files in the order tried: [Some v] when the file
      opens and [fscanf] converts [v] *)
  usage_files : list (option double);
  (** [device/gpu_stats] and the debugfs file: the lines after the header *)
  gpu_stats_dev : option (list (option V3dRow));
  gpu_stats_dbg : option (list (option V3dRow));
  (** [device/vendor]: [None] cannot be opened, [Some None] no line *)
  vendor : option (option string);
  uevent : option (list string);
  hwmon : option (list HwmonEntry);
  vram_used : option Z;
  vram_size : option Z }.

(** An entry of a devfreq directory; [df_load] is [Some v] when [load]
    opens, a line is read, and [atof] of the line cut at ['@'] is [v]. *)
Record DevfreqEntry := mkDevfreqEntry { df_name : string; df_load : option double }.

Record Env := mkEnv {
  now : timeval;
  (** [popen] succeeds and [fgets] reads a line: the tokens [strtok_r]
      yields *)
  nvidia_smi : option (list NvToken);
  drm : option (list DrmEntry);
  (** [/sys/class/thermal/thermal_zone0/temp], when it opens and converts *)
  thermal_zone0 : option double;
  (** [gpu_busy_percentage]: [None] cannot be opened, [Some None] opened
      and nothing converted *)
  kgsl_busy_percentage : option (option double);
  kgsl_gpubusy : option (option (Z * Z));
  devfreq_class : option (list DevfreqEntry);
  devfreq_soc : option (list DevfreqEntry) }.

(** The backends of the cascade, for the trace of those a call consults. *)
Inductive Backend := BNvidia | BDrm | BAdreno | BDevfreq | BFallback.

(** The function's statics. *)
Record statics := mkStatics { cached_gpu : GpuSnapshot; last_gpu_read : timeval }.

Definition init : statics := mkStatics blank (mkTimeval 0 0).

(** *** 1. NVIDIA *)

Definition nv_field (g : GpuSnapshot) (field : nat) (t : NvToken) : GpuSnapshot :=
  match field with
  | 0%nat => set_has_usage (set_usage g (tok_f t)) true
  | 1%nat => set_has_mem
               (set_mem_used g (U64.mul (U64.mul (U64.wrap (tok_i t)) 1024) 1024)) true
  | 2%nat => set_mem_total g (U64.mul (U64.mul (U64.wrap (tok_i t)) 1024) 1024)
  | 3%nat => set_has_temp (set_temp g (tok_f t)) true
  | _ => g
  end.

Fixpoint nv_tokens (g : GpuSnapshot) (field : nat) (ts : list NvToken) : GpuSnapshot :=
  match ts with
  | [] => g
  | t :: r => nv_tokens (nv_field g field t) (S field) r
  end.

(** *** 2. DRM: the V3D queue table *)

Fixpoint v3d_find (tbl : list V3dStats) (q : string) : option nat :=
  match tbl with
  | [] => None
  | e :: r =>
      if String.eqb (queue e) q then Some 0%nat
      else option_map S (v3d_find r q)
  end.

Fixpoint v3d_set (tbl : list V3dStats) (i : nat) (e : V3dStats) : list V3dStats :=
  match tbl, i with
  | [], _ => []
  | _ :: r, O => e :: r
  | x :: r, S j => x :: v3d_set r j e
  end.

(** The slot read when an index is outside the table (never the case
    for an index [v3d_find] returns). *)
Definition v3d_dflt : V3dStats := mkV3dStats EmptyString 0 0.

(** The utilization of a queue between two readings. *)
Definition v3d_util (old : V3dStats) (ts rt : Z) : double :=
  fdiv (fmul (of_int (U64.sub rt (last_rt old))) 100%Q)
       (of_int (U64.sub ts (last_ts old))).

(** One line of [gpu_stats]. *)
Definition v3d_line (st : list V3dStats * GpuSnapshot) (line : option V3dRow)
    : list V3dStats * GpuSnapshot :=
  let (tbl, g) := st in
  match line with
  | None => st
  | Some r =>
      match v3d_find tbl (vr_queue r) with
      | None =>
          if (List.length tbl <? 16)%nat
          then (tbl ++ [mkV3dStats (vr_queue r) (vr_ts r) (vr_rt r)], g)
          else (tbl, g)
      | Some i =>
          let old := nth i tbl v3d_dflt in
          let g' :=
            if last_ts old <? vr_ts r then
              let q_u := v3d_util old (vr_ts r) (vr_rt r) in
              set_has_usage (if fgtb q_u (usage g) then set_usage g q_u else g) true
            else g in
          (v3d_set tbl i (mkV3dStats (queue old) (vr_ts r) (vr_rt r)), g')
      end
  end.

Definition v3d_file (tbl : list V3dStats) (g : GpuSnapshot)
    (lines : list (option V3dRow)) : list V3dStats * GpuSnapshot :=
  fold_left v3d_line lines (tbl, g).

(** *** 2. DRM: one card *)

Definition is_card (n : string) : bool :=
  CStr.starts_with n "card" && negb (CStr.strchr n "-").

Fixpoint first_some {A : Type} (l : list (option A)) : option A :=
  match l with
  | [] => None
  | Some v :: _ => Some v
  | None :: r => first_some r
  end.

(** The loop over the four usage files; the flag is [found_usage]. *)
Definition card_usage (g : GpuSnapshot) (c : DrmEntry) : GpuSnapshot * bool :=
  match first_some (firstn 4 (usage_files c)) with
  | Some v => (set_has_usage (set_usage g v) true, true)
  | None => (g, false)
  end.

(** [f_stats]: [device/gpu_stats], else the debugfs file of a card whose
    name has a digit at index 4. *)
Definition card_stats_file (c : DrmEntry) : option (list (option V3dRow)) :=
  match gpu_stats_dev c with
  | Some f => Some f
  | None =>
      match String.get 4 (d_name c) with
      | Some ch => if CStr.isdigit ch then gpu_stats_dbg c else None
      | None => None
      end
  end.

Definition card_name (g : GpuSnapshot) (c : DrmEntry) : GpuSnapshot :=
  match vendor c with
  | Some (Some v) =>
      if CStr.strstr v "0x1002" then set_name g "AMD GPU"
      else if CStr.strstr v "0x8086" then set_name g "Intel GPU"
      else if CStr.strstr v "0x10de" then set_name g "NVIDIA GPU"
      else if CStr.strstr v "0x14e4" then set_name g "Broadcom GPU"
      else g
  | Some None => g
  | None =>
      match uevent c with
      | Some lines =>
          if existsb (fun l => CStr.strstr l "DRIVER=v3d" || CStr.strstr l "DRIVER=vc4")
                     lines
          then set_name g "VideoCore GPU" else g
      | None => g
      end
  end.

Definition store_temp (g : GpuSnapshot) (t : double) : GpuSnapshot :=
  set_has_temp (set_temp g (fdiv t 1000%Q)) true.

Fixpoint hwmon_temp (g : GpuSnapshot) (es : list HwmonEntry) : GpuSnapshot :=
  match es with
  | [] => g
  | e :: r =>
      if CStr.starts_with (hw_name e) "hwmon" then
        match hw_temp1 e with
        | Some (Some t) => store_temp g t
        | Some None => g
        | None => hwmon_temp g r
        end
      else hwmon_temp g r
  end.

Definition thermal_temp (g : GpuSnapshot) (e : Env) : GpuSnapshot :=
  match thermal_zone0 e with
  | Some t => store_temp g t
  | None => g
  end.

Definition card_temp (g : GpuSnapshot) (e : Env) (c : DrmEntry) : GpuSnapshot :=
  let g1 := match hwmon c with Some es => hwmon_temp g es | None => g end in
  if has_temp g1 then g1 else thermal_temp g1 e.

Definition card_vram (g : GpuSnapshot) (c : DrmEntry) : GpuSnapshot :=
  if has_mem g then g
  else
    let g1 := match vram_used c with
              | Some v => set_has_mem (set_mem_used g v) true
              | None => g
              end in
    match vram_size c with
    | Some v => set_mem_total g1 v
    | None => g1
    end.

Definition card_cma (g : GpuSnapshot) (mem : MemorySnapshot) : GpuSnapshot :=
  if String.eqb (g_name g) "Broadcom GPU" || String.eqb (g_name g) "VideoCore GPU"
     || String.eqb (g_name g) "GPU"
  then
    if 0 <? cma_total_bytes mem then
      let g1 := set_has_mem
                  (set_mem_total (set_mem_used g (cma_used_bytes mem))
                                 (cma_total_bytes mem)) true in
      if String.eqb (g_name g1) "GPU" then set_name g1 "VideoCore GPU" else g1
    else g
  else g.

(** The body of the loop over [/sys/class/drm] for one card. *)
Definition drm_card (mem : MemorySnapshot) (e : Env) (tbl : list V3dStats)
    (g : GpuSnapshot) (c : DrmEntry) : list V3dStats * GpuSnapshot :=
  let (g1, found_usage) := card_usage g c in
  let (tbl2, g2) :=
    if found_usage then (tbl, g1)
    else match card_stats_file c with
         | Some lines => v3d_file tbl g1 lines
         | None => (tbl, g1)
         end in
  let g3 := card_name g2 c in
  let g4 := card_temp g3 e c in
  let g5 := card_vram g4 c in
  (tbl2, card_cma g5 mem).

(** The loop over [/sys/class/drm]; the flag tells that a card returned. *)
Fixpoint drm_loop (mem : MemorySnapshot) (e : Env) (tbl : list V3dStats)
    (g : GpuSnapshot) (entries : list DrmEntry)
    : list V3dStats * GpuSnapshot * bool :=
  match entries with
  | [] => (tbl, g, false)
  | c :: r =>
      if is_card (d_name c) then
        let (tbl', g') := drm_card mem e tbl g c in
        if has_usage g' then (tbl', g', true) else drm_loop mem e tbl' g' r
      else drm_loop mem e tbl g r
  end.

(** *** 3. Adreno *)

Definition adreno_result (g : GpuSnapshot) (e : Env) (u : double) : GpuSnapshot :=
  thermal_temp (set_has_usage (set_usage (set_name g "Adreno GPU") u) true) e.

Definition adreno (g : GpuSnapshot) (e : Env) : option GpuSnapshot :=
  match kgsl_busy_percentage e with
  | Some r => Some (adreno_result g e (match r with Some v => v | None => 0%Q end))
  | None =>
      match kgsl_gpubusy e with
      | Some r =>
          let u := match r with
                   | Some (busy, total) =>
                       if 0 <? total
                       then fdiv (fmul (of_int busy) 100%Q) (of_int total)
                       else 0%Q
                   | None => 0%Q
                   end in
          if fgtb u 0%Q then Some (adreno_result g e u) else None
      | None => None
      end
  end.

(** *** 4. Generic devfreq *)

Definition devfreq_match (n : string) : bool :=
  CStr.strstr n "v3d" || CStr.strstr n "gpu" || CStr.strstr n "mali"
  || CStr.strstr n "soc:gpu".

Definition devfreq_result (g : GpuSnapshot) (e : Env) (n : string) (v : double)
    : GpuSnapshot :=
  let g1 := set_has_usage (set_usage g v) true in
  let g2 := if CStr.strstr n "v3d" || CStr.strstr n "soc:gpu"
            then set_name g1 "VideoCore GPU"
            else if CStr.strstr n "mali" then set_name g1 "Mali GPU"
            else if String.eqb (g_name g1) "GPU" then set_name g1 "GPU"
            else g1 in
  if has_temp g2 then g2 else thermal_temp g2 e.

Fixpoint devfreq_dir (g : GpuSnapshot) (e : Env) (es : list DevfreqEntry)
    : option GpuSnapshot :=
  match es with
  | [] => None
  | d :: r =>
      if devfreq_match (df_name d) then
        match df_load d with
        | Some v => Some (devfreq_result g e (df_name d) v)
        | None => devfreq_dir g e r
        end
      else devfreq_dir g e r
  end.

Definition devfreq (g : GpuSnapshot) (e : Env) : option GpuSnapshot :=
  let try (d : option (list DevfreqEntry)) :=
    match d with Some es => devfreq_dir g e es | None => None end in
  match try (devfreq_class e) with
  | Some r => Some r
  | None => try (devfreq_soc e)
  end.

(** *** 5. Last resort *)

Definition fallback (g : GpuSnapshot) (mem : MemorySnapshot) (e : Env) : GpuSnapshot :=
  if negb (has_usage g) && negb (has_mem g) && (0 <? cma_total_bytes mem) then
    let g1 := set_has_mem
                (set_mem_total (set_mem_used (set_name g "VideoCore GPU")
                                             (cma_used_bytes mem))
                               (cma_total_bytes mem)) true in
    if has_temp g1 then g1 else thermal_temp g1 e
  else g.

(** *** The cascade *)

(** Everything [read_gpu] does past the cache test: the new queue table,
    the snapshot stored in [cached_gpu] and returned, and the backends
    consulted, in order. *)
Definition probe (tbl : list V3dStats) (mem : MemorySnapshot) (e : Env)
    : list V3dStats * GpuSnapshot * list Backend :=
  let g := blank in
  let nv := match nvidia_smi e with Some ts => nv_tokens g 0 ts | None => g end in
  if has_usage nv then (tbl, set_name nv "NVIDIA GPU", [BNvidia])
  else
    let '(tbl1, g1, returned) :=
      match drm e with
      | Some entries => drm_loop mem e tbl nv entries
      | None => (tbl, nv, false)
      end in
    if returned then (tbl1, g1, [BNvidia; BDrm])
    else
      match adreno g1 e with
      | Some r => (tbl1, r, [BNvidia; BDrm; BAdreno])
      | None =>
          match devfreq g1 e with
          | Some r => (tbl1, r, [BNvidia; BDrm; BAdreno; BDevfreq])
          | None =>
              (tbl1, fallback g1 mem e,
               [BNvidia; BDrm; BAdreno; BDevfreq; BFallback])
          end
      end.

(** [ms_diff] as the function computes it, in [long long]. *)
Definition ms_diff (now last : timeval) : Z :=
  (tv_sec now - tv_sec last) * 1000 + c_div (tv_usec now - tv_usec last) 1000.

Definition cache_fresh (st : statics) (e : Env) : bool :=
  (ms_diff (now e) (last_gpu_read st) <? 800)
  && negb (tv_sec (last_gpu_read st) =? 0).

Definition with_v3d (s : Sampler) (tbl : list V3dStats) : Sampler :=
  mkSampler (prev_cpu s) (prev_ticks s) (prev_net s) (last_sample s)
            (page_size s) tbl.

(** [read_gpu], with the trace of the backends it consulted. *)
Definition read_gpu (st : statics) (s : Sampler) (mem : MemorySnapshot) (e : Env)
    : statics * Sampler * GpuSnapshot * list Backend :=
  if cache_fresh st e then (st, s, cached_gpu st, [])
  else
    let '(tbl, g, log) := probe (v3d_stats s) mem e in
    (mkStatics g (now e), with_v3d s tbl, g, log).

End Gpu.

(* ================================================================== *)
(** ** [compare_procs] and the sort *)

Definition compare_procs (mode : SortMode) (pa pb : ProcessInfo) : Z :=
  match mode with
  | SORT_CPU =>
      if fgtb (cpu_percent pb) (cpu_percent pa) then 1
      else if fltb (cpu_percent pb) (cpu_percent pa) then -1
      else if mem_bytes pb >? mem_bytes pa then 1 else -1
  | SORT_MEM =>
      if mem_bytes pb >? mem_bytes pa then 1
      else if mem_bytes pb <? mem_bytes pa then -1
      else if fgtb (cpu_percent pb) (cpu_percent pa) then 1 else -1
  end.

(** [qsort_r] belongs to libc, not to the repository.  It is modelled by
    the algorithm of glibc's [qsort_r], a top-down merge sort: an array of
    at most one element is left alone; otherwise the first [n / 2] and the
    remaining elements are sorted and merged, taking the left element
    whenever the comparator returns [<= 0].  Only the sign of the
    comparator is used. *)
Module Qsort.

Section WithComparator.
Context {A : Type} (cmp : A -> A -> Z).

Fixpoint merge (l1 : list A) : list A -> list A :=
  fix merge_right (l2 : list A) : list A :=
    match l1, l2 with
    | [], _ => l2
    | _, [] => l1
    | a1 :: r1, a2 :: r2 =>
        if cmp a1 a2 <=? 0 then a1 :: merge r1 l2 else a2 :: merge_right r2
    end.

(** [depth] bounds the recursion; [List.length l] is always enough. *)
Fixpoint msort (depth : nat) (l : list A) : list A :=
  match depth with
  | O => l
  | S d =>
      if (List.length l <=? 1)%nat then l
      else
        let n1 := (List.length l / 2)%nat in
        merge (msort d (firstn n1 l)) (msort d (skipn n1 l))
  end.

Definition qsort_r (l : list A) : list A := msort (List.length l) l.

End WithComparator.

End Qsort.

(* ================================================================== *)
(** ** The sampler *)

(** An entry of [/proc]: its name, and what [open]/[read] of its [stat]
    file give ([None]: cannot be opened or nothing read).  Of the text
    read, [st_comm] is what lies between the first ['('] and the last
    [')'] ([None] when either is missing), and [st_scan] is what [sscanf]
    stores from the tail: [utime], [stime], [threads], [rss] ([None] when
    it does not convert all four). *)
Record StatRead := mkStatRead {
  st_comm : option string;
  st_scan : option (Z * Z * Z * Z) }.

Record ProcDirent := mkProcDirent { pd_name : string; pd_stat : option StatRead }.

(** What the system answers during one call of [sample]. *)
Record SysEnv := mkSysEnv {
  sys_now : timeval;
  stat_cpu : option (list Z);
  stat_lines : option (list string);
  meminfo : option (list MemLine);
  net_dev : option (list (option NetRow));
  gpu_env : Gpu.Env;
  (** [opendir "/proc"]: [None] when it fails *)
  proc_dir : option (list ProcDirent) }.

(** The array a [ProcessInfo*] of the caller points to. *)
Inductive ProcsPtr :=
| PNull
| PLive (arr : list ProcessInfo)
| PFreed.

(** The caller's variables behind the out-parameters of [sample]. *)
Record Outs := mkOuts {
  out_procs : ProcsPtr;
  out_count : Z;
  out_cpu : double;
  out_mem : MemorySnapshot;
  out_net : NetworkSnapshot;
  out_gpu : GpuSnapshot;
  out_cpus : Z }.

Definition d_0_001 : double := rnd (1 # 1000).

Definition elapsed_since (now last : timeval) : double :=
  let e := fadd (of_int (tv_sec now - tv_sec last))
                (fdiv (of_int (tv_usec now - tv_usec last)) 1000000%Q) in
  if fltb e d_0_001 then d_0_001 else e.

Definition cpu_total (c : CpuTimes) : Z :=
  U64.add (U64.add (U64.add (U64.add (U64.add (U64.add (U64.add
    (user c) (nice c)) (system c)) (idle c)) (iowait c)) (irq c))
    (softirq c)) (steal c).

Definition total_delta (prev cur : CpuTimes) : Z :=
  U64.sub (cpu_total cur) (cpu_total prev).

Definition idle_delta (prev cur : CpuTimes) : Z :=
  U64.sub (U64.add (idle cur) (iowait cur)) (U64.add (idle prev) (iowait prev)).

(** The value stored in [*out_cpu]. *)
Definition overall_cpu (prev cur : CpuTimes) : double :=
  if 0 <? total_delta prev cur
  then fdiv (fmul (of_int (U64.sub (total_delta prev cur) (idle_delta prev cur)))
                  100%Q)
            (of_int (total_delta prev cur))
  else 0%Q.

(** The search of [prev_ticks]: the first entry with the pid. *)
Fixpoint find_prev_ticks (prev : list PidTicks) (p : Z) : option Z :=
  match prev with
  | [] => None
  | e :: r => if pt_pid e =? p then Some (ticks e) else find_prev_ticks r p
  end.

Definition prev_t_of (prev : list PidTicks) (p : Z) : Z :=
  match find_prev_ticks prev p with Some t => t | None => 0 end.

(** [cpu_p] of one process. *)
Definition proc_cpu (tdelta : Z) (prev : list PidTicks) (p : Z) (total_ticks : Z)
    : double :=
  if 0 <? tdelta
  then fdiv (fmul (of_int (U64.sub total_ticks (prev_t_of prev p))) 100%Q)
            (of_int tdelta)
  else 0%Q.

Definition filter_accepts (flt : string) (nm : string) (p : Z) : bool :=
  match flt with
  | EmptyString => true
  | _ => CStr.strcasestr nm flt || CStr.strstr (CStr.fmt_d p) flt
  end.

(** One iteration of the [readdir] loop: [None] when the entry is skipped,
    else the [PidTicks] and the [ProcessInfo] appended. *)
Definition proc_entry (s : Sampler) (tdelta : Z) (flt : string) (d : ProcDirent)
    : option (PidTicks * ProcessInfo) :=
  match String.get 0 (pd_name d) with
  | None => None
  | Some c0 =>
      if negb (CStr.isdigit c0) then None
      else
        let p := CStr.atoi (pd_name d) in
        match pd_stat d with
        | None => None
        | Some st =>
            match st_comm st with
            | None => None
            | Some nm =>
                if negb (filter_accepts flt nm p) then None
                else
                  match st_scan st with
                  | None => None
                  | Some (utime, stime, thr, rss) =>
                      let total_ticks := U64.add utime stime in
                      Some (mkPidTicks total_ticks p,
                            mkProcessInfo p nm
                              (proc_cpu tdelta (prev_ticks s) p total_ticks)
                              (U64.mul (U64.wrap rss) (page_size s))
                              thr)
                  end
            end
        end
  end.

Fixpoint proc_loop (s : Sampler) (tdelta : Z) (flt : string) (ds : list ProcDirent)
    : list PidTicks * list ProcessInfo :=
  match ds with
  | [] => ([], [])
  | d :: r =>
      let (ts, ps) := proc_loop s tdelta flt r in
      match proc_entry s tdelta flt d with
      | Some (t, p) => (t :: ts, p :: ps)
      | None => (ts, ps)
      end
  end.

(** [sample].  Allocation is taken to succeed ([realloc] failing ends the
    program with [exit(1)]). *)
Definition sample (s : Sampler) (gst : Gpu.statics) (e : SysEnv)
    (sort : SortMode) (flt : string) (o : Outs)
    : Sampler * Gpu.statics * Outs :=
  let elapsed := elapsed_since (sys_now e) (last_sample s) in
  let s1 := mkSampler (prev_cpu s) (prev_ticks s) (prev_net s) (sys_now e)
                      (page_size s) (v3d_stats s) in
  let cur_cpu := read_cpu_times (stat_cpu e) in
  let tdelta := total_delta (prev_cpu s1) cur_cpu in
  let cpu := overall_cpu (prev_cpu s1) cur_cpu in
  let mem := read_memory (meminfo e) in
  let (s2, net) := read_network s1 (net_dev e) elapsed in
  let '(gst', s3, gpu, _) := Gpu.read_gpu gst s2 mem (gpu_env e) in
  let cpus := read_cpu_count (stat_lines e) in
  match proc_dir e with
  | None =>
      (s3, gst', mkOuts (out_procs o) (out_count o) cpu mem net gpu cpus)
  | Some ds =>
      let (cur_ticks, procs) := proc_loop s3 tdelta flt ds in
      let s4 := mkSampler cur_cpu cur_ticks (prev_net s3) (last_sample s3)
                          (page_size s3) (v3d_stats s3) in
      let sorted := Qsort.qsort_r (compare_procs sort) procs in
      (s4, gst',
       mkOuts (PLive sorted) (Z.of_nat (List.length sorted)) cpu mem net gpu cpus)
  end.

(* ================================================================== *)
(** ** Terminal, keys and the loop of [main] *)

Module Tty.

(** [struct termios], reduced to its local-mode flags. *)
Definition termios := Z.

Definition ISIG : Z := 1.
Definition ICANON : Z := 2.
Definition ECHO : Z := 8.

(** The globals [g_original_termios] and [g_termios_active], the line
    discipline of the terminal, and the bytes written to it. *)
Record state := mkState {
  g_original_termios : termios;
  g_termios_active : bool;
  line : termios;
  written : list string }.

Definition init_terminal (t : state) : state :=
  let raw := Z.land (line t) (Z.lnot (Z.lor ECHO (Z.lor ICANON ISIG))) in
  mkState (line t) true raw
          (written t ++ [String (ascii_of_nat 27) "[?1049h";
                         String (ascii_of_nat 27) "[2J";
                         String (ascii_of_nat 27) "[H";
                         String (ascii_of_nat 27) "[?25l"]).

Definition restore_terminal (t : state) : state :=
  if g_termios_active t then
    mkState (g_original_termios t) false (g_original_termios t)
            (written t ++ [String (ascii_of_nat 27) "[?1049l";
                           String (ascii_of_nat 27) "[?25h";
                           String (ascii_of_nat 27) "[0m"])
  else t.

End Tty.

Inductive KeyType :=
| K_NONE | K_QUIT | K_UP | K_DOWN | K_LEFT | K_RIGHT
| K_BACKSPACE | K_ENTER | K_ESC | K_CHAR.

Record Key := mkKey { ktype : KeyType; ch : Z }.

Definition KeyType_eqb (a b : KeyType) : bool :=
  match a, b with
  | K_NONE, K_NONE | K_QUIT, K_QUIT | K_UP, K_UP | K_DOWN, K_DOWN
  | K_LEFT, K_LEFT | K_RIGHT, K_RIGHT | K_BACKSPACE, K_BACKSPACE
  | K_ENTER, K_ENTER | K_ESC, K_ESC | K_CHAR, K_CHAR => true
  | _, _ => false
  end.

(** [read_key].  The argument lists the bytes [read] stored in [buf] (at
    most 16); it is empty when [read] returns 0 or fails. *)
Definition read_key (buf : list Z) : Key :=
  match buf with
  | [] => mkKey K_NONE 0
  | b0 :: rest =>
      if b0 =? 3 then mkKey K_QUIT 0
      else
        match rest with
        | [] =>
            if b0 =? 27 then mkKey K_ESC 0
            else if (b0 =? 127) || (b0 =? 8) then mkKey K_BACKSPACE 0
            else if (b0 =? 10) || (b0 =? 13) then mkKey K_ENTER 0
            else if CStr.isprint b0 then mkKey K_CHAR b0
            else mkKey K_NONE 0
        | b1 :: rest' =>
            match rest' with
            | b2 :: _ =>
                if (b0 =? 27) && (b1 =? 91) then
                  if b2 =? 65 then mkKey K_UP 0
                  else if b2 =? 66 then mkKey K_DOWN 0
                  else if b2 =? 67 then mkKey K_RIGHT 0
                  else if b2 =? 68 then mkKey K_LEFT 0
                  else mkKey K_NONE 0
                else mkKey K_NONE 0
            | [] => mkKey K_NONE 0
            end
        end
  end.

Module Main.

(** The locals of [main] that key handling reads and writes.  [filter] is
    the content of the 64-byte array up to its terminator. *)
Record locals := mkLocals {
  sort : SortMode;
  filter : list Z;
  is_search : bool;
  selection : Z;
  needs_sample : bool;
  needs_render : bool }.

Inductive outcome :=
| Running (t : Tty.state) (l : locals)
| Exited (t : Tty.state) (code : Z).

Definition strlen (f : list Z) : Z := Z.of_nat (List.length f).

(** The body of the [while ((k = read_key()).type != K_NONE)] loop. *)
Definition handle_key (t : Tty.state) (l : locals) (k : Key) : outcome :=
  match ktype k with
  | K_QUIT => Exited (Tty.restore_terminal t) 0
  | kt =>
      if is_search l then
        match kt with
        | K_ESC | K_ENTER =>
            Running t (mkLocals (sort l) (filter l) false (selection l)
                                (needs_sample l) true)
        | K_BACKSPACE =>
            if 0 <? strlen (filter l) then
              Running t (mkLocals (sort l) (removelast (filter l)) (is_search l)
                                  0 true (needs_render l))
            else
              Running t (mkLocals (sort l) (filter l) false (selection l)
                                  (needs_sample l) true)
        | K_CHAR =>
            if strlen (filter l) <? 63 then
              Running t (mkLocals (sort l) (filter l ++ [ch k]) (is_search l)
                                  0 true (needs_render l))
            else Running t l
        | _ => Running t l
        end
      else
        match kt with
        | K_UP =>
            Running t (mkLocals (sort l) (filter l) (is_search l)
                                (if 0 <? selection l then selection l - 1
                                 else selection l)
                                (needs_sample l) true)
        | K_DOWN =>
            Running t (mkLocals (sort l) (filter l) (is_search l)
                                (selection l + 1) (needs_sample l) true)
        | K_LEFT =>
            Running t (mkLocals SORT_CPU (filter l) (is_search l) (selection l)
                                true (needs_render l))
        | K_RIGHT =>
            Running t (mkLocals SORT_MEM (filter l) (is_search l) (selection l)
                                true (needs_render l))
        | K_ESC =>
            match filter l with
            | [] => Running t l
            | _ :: _ =>
                Running t (mkLocals (sort l) [] (is_search l) 0 true
                                    (needs_render l))
            end
        | K_CHAR =>
            if ch k =? 113 then Exited (Tty.restore_terminal t) 0
            else if ch k =? 106 then
              Running t (mkLocals (sort l) (filter l) (is_search l)
                                  (selection l + 1) (needs_sample l) true)
            else if ch k =? 107 then
              Running t (mkLocals (sort l) (filter l) (is_search l)
                                  (if 0 <? selection l then selection l - 1
                                   else selection l)
                                  (needs_sample l) true)
            else if ch k =? 104 then
              Running t (mkLocals SORT_CPU (filter l) (is_search l) (selection l)
                                  true (needs_render l))
            else if ch k =? 108 then
              Running t (mkLocals SORT_MEM (filter l) (is_search l) (selection l)
                                  true (needs_render l))
            else if ch k =? 47 then
              Running t (mkLocals (sort l) [] true (selection l)
                                  (needs_sample l) true)
            else Running t l
        | _ => Running t l
        end
  end.

(** The loop that drains the pending input: one [read] per iteration,
    until [read_key] yields [K_NONE] or the program exits.  [reads] lists
    what the successive [read] calls return; past its end they return
    nothing. *)
Fixpoint drain (reads : list (list Z)) (t : Tty.state) (l : locals) : outcome :=
  match reads with
  | [] => Running t l
  | buf :: more =>
      let k := read_key buf in
      if KeyType_eqb (ktype k) K_NONE then Running t l
      else
        match handle_key t l k with
        | Exited t' c => Exited t' c
        | Running t' l' => drain more t' l'
        end
  end.

(** The sampling block of the loop: the old array is freed when the
    pointer is not null, then [sample] runs with the addresses of the
    locals. *)
Definition free_procs (p : ProcsPtr) : ProcsPtr :=
  match p with
  | PNull => PNull
  | _ => PFreed
  end.

Definition sample_block (s : Sampler) (gst : Gpu.statics) (e : SysEnv)
    (l : locals) (o : Outs) : Sampler * Gpu.statics * Outs :=
  sample s gst e (sort l) (String.string_of_list_ascii
                             (map (fun b => ascii_of_nat (Z.to_nat b)) (filter l)))
         (mkOuts (free_procs (out_procs o)) (out_count o) (out_cpu o) (out_mem o)
                 (out_net o) (out_gpu o) (out_cpus o)).

(** The values of the locals before the loop. *)
Definition initial_outs : Outs :=
  mkOuts PNull 0 0%Q zero_mem default_net Gpu.blank 1.

End Main.

(* ================================================================== *)
(** ** Statements and concrete inputs *)

(** ** Predicates used to state the properties *)

Definition cpu_wf (c : CpuTimes) : Prop :=
  U64.in_range (user c) /\ U64.in_range (nice c) /\ U64.in_range (system c) /\
  U64.in_range (idle c) /\ U64.in_range (iowait c) /\ U64.in_range (irq c) /\
  U64.in_range (softirq c) /\ U64.in_range (steal c).

(** No counter of [cur] is below the one of [prev]. *)
Definition no_regression (prev cur : CpuTimes) : Prop :=
  user prev <= user cur /\ nice prev <= nice cur /\ system prev <= system cur /\
  idle prev <= idle cur /\ iowait prev <= iowait cur /\ irq prev <= irq cur /\
  softirq prev <= softirq cur /\ steal prev <= steal cur.

(** The sum of the eight counters as an integer, without reduction. *)
Definition cpu_sum (c : CpuTimes) : Z :=
  user c + nice c + system c + idle c + iowait c + irq c + softirq c + steal c.

(** The order the code establishes between neighbours of the sorted list:
    the selected metric descending, then the other metric descending. *)
Definition sorted_pair (mode : SortMode) (p q : ProcessInfo) : Prop :=
  match mode with
  | SORT_CPU =>
      (cpu_percent q <= cpu_percent p)%Q /\
      ((cpu_percent p == cpu_percent q)%Q -> mem_bytes q <= mem_bytes p)
  | SORT_MEM =>
      mem_bytes q <= mem_bytes p /\
      (mem_bytes p = mem_bytes q -> (cpu_percent q <= cpu_percent p)%Q)
  end.

(** The order with the further tie-break on the pid, ascending. *)
Definition sorted_pair_pid (mode : SortMode) (p q : ProcessInfo) : Prop :=
  sorted_pair mode p q /\
  ((cpu_percent p == cpu_percent q)%Q -> mem_bytes p = mem_bytes q -> pid p <= pid q).

(** Two entries the comparator cannot tell apart: equal in CPU percent
    and in memory. *)
Definition tied (p q : ProcessInfo) : bool :=
  Qeq_bool (cpu_percent p) (cpu_percent q) && (mem_bytes p =? mem_bytes q).

(** The process list the caller holds after a call. *)
Definition listed (o : Outs) : list ProcessInfo :=
  match out_procs o with PLive arr => arr | _ => [] end.

(** What holds of the loop's variables once the lines [seen] are read. *)
Definition net_inv (prev : list NetStats) (elapsed : double)
    (seen : NetRow -> Prop) (a : NetAcc) : Prop :=
  (forall n, In n (cur_net a) -> ns_iface n <> "lo"%string) /\
  (forall r, seen r -> nr_iface r <> "lo"%string -> row_total r <= best_total a) /\
  ((best_total a = 0 /\ best a = default_net) \/
   (exists r, seen r /\ nr_iface r <> "lo"%string /\ 0 < row_total r /\
              row_total r = best_total a /\ best a = row_snapshot prev elapsed r)).

(** The claim that the snapshot names an interface whose total no other
    interface exceeds. *)
Definition names_greatest (lines : list (option NetRow)) (snap : NetworkSnapshot)
    : Prop :=
  exists r, In (Some r) lines /\ nr_iface r <> "lo"%string /\
            iface snap = nr_iface r /\
            forall r', In (Some r') lines -> nr_iface r' <> "lo"%string ->
                       row_total r' <= row_total r.

(** The readings the table retains for a queue. *)
Definition retained (tbl : list V3dStats) (q : string) : option (Z * Z) :=
  match Gpu.v3d_find tbl q with
  | Some i => Some (last_ts (nth i tbl Gpu.v3d_dflt), last_rt (nth i tbl Gpu.v3d_dflt))
  | None => None
  end.

(** The utilization a line of [gpu_stats] yields, if any: its queue is in
    the table and its timestamp is past the retained one. *)
Definition line_util (tbl : list V3dStats) (line : option Gpu.V3dRow) : option double :=
  match line with
  | Some r =>
      match Gpu.v3d_find tbl (Gpu.vr_queue r) with
      | Some i =>
          let old := nth i tbl Gpu.v3d_dflt in
          if last_ts old <? Gpu.vr_ts r
          then Some (Gpu.v3d_util old (Gpu.vr_ts r) (Gpu.vr_rt r))
          else None
      | None => None
      end
  | None => None
  end.

(** The utilizations the lines of a file yield, in order. *)
Fixpoint v3d_utils (tbl : list V3dStats) (lines : list (option Gpu.V3dRow))
    : list double :=
  match lines with
  | [] => []
  | l :: rest =>
      match line_util tbl l with Some u => [u] | None => [] end
      ++ v3d_utils (fst (Gpu.v3d_line (tbl, Gpu.blank) l)) rest
  end.

(** The claim that every line naming a queue of the table contributes its
    utilization to the usage. *)
Definition every_tracked_row_counts : Prop :=
  forall (tbl : list V3dStats) (g : GpuSnapshot) (r : Gpu.V3dRow) (i : nat),
    Gpu.v3d_find tbl (Gpu.vr_queue r) = Some i ->
    let g' := snd (Gpu.v3d_line (tbl, g) (Some r)) in
    has_usage g' = true /\
    (Gpu.v3d_util (nth i tbl Gpu.v3d_dflt) (Gpu.vr_ts r) (Gpu.vr_rt r) <= usage g')%Q.

(** ** Concrete inputs *)

Module Fixture.

Definition at_sec (s : Z) : timeval := mkTimeval s 0.

(** A host without any GPU interface. *)
Definition no_gpu (now : timeval) : Gpu.Env :=
  Gpu.mkEnv now None None None None None None None.

(** A process entry whose [stat] parses. *)
Definition proc (nm : string) (comm : string) (utime stime thr rss : Z) : ProcDirent :=
  mkProcDirent nm (Some (mkStatRead (Some comm) (Some (utime, stime, thr, rss)))).

(** [/proc/stat] with the given first line, [/proc] with the given
    entries, nothing else readable. *)
Definition host (now : timeval) (cpu : list Z) (procs : option (list ProcDirent))
    : SysEnv :=
  mkSysEnv now (Some cpu) None None None (no_gpu now) procs.

Definition fresh : Sampler := sampler_create 4096 (at_sec 1000).

(** The filter of [main] before anything is typed. *)
Definition no_filter : string := EmptyString.

(** Two samples in a row, from the start of the program. *)
Definition two_samples (e1 e2 : SysEnv) (srt : SortMode) (flt : string)
    : Sampler * Gpu.statics * Outs :=
  let '(s1, g1, o1) := sample fresh Gpu.init e1 srt flt Main.initial_outs in
  sample s1 g1 e2 srt flt o1.

(** Scenario 1 of the specification. *)
Definition stat_a : list Z := [100; 0; 100; 800; 0; 0; 0; 0].
Definition stat_b : list Z := [200; 0; 200; 1000; 0; 0; 0; 0].

(** [user] falls from 100 to 50 while [idle] advances by 200. *)
Definition stat_reset : list Z := [50; 0; 100; 1000; 0; 0; 0; 0].

(** No counter regresses from all-zero, and the sum passes 2^64. *)
Definition cpu_huge : CpuTimes := mkCpuTimes 2 0 0 (2 ^ 64 - 1) 0 0 0 0.

(** Scenario 2: pid 123 with 1000 ticks, then 1200. *)
Definition procs_a : list ProcDirent := [proc "123" "worker" 600 400 1 10].
Definition procs_b : list ProcDirent := [proc "123" "worker" 700 500 1 10].

(** Two idle processes of equal size, listed with the higher pid first. *)
Definition procs_tie : list ProcDirent :=
  [proc "7" "a" 0 0 1 10; proc "3" "b" 0 0 1 10].

(** Three processes that differ in both metrics, two of them equal in
    both, listed with pid 7 first. *)
Definition procs_mixed : list ProcDirent :=
  [proc "7" "a" 10 0 1 30; proc "3" "b" 40 10 2 10; proc "5" "c" 4 6 1 30].

(** A process that first shows up at the second sample. *)
Definition procs_late : list ProcDirent :=
  [proc "123" "worker" 700 500 1 10; proc "456" "late" 800 400 1 10].

End Fixture.

Module FixtureC5.

(** A sample that lists one process, then a call during which
    [opendir "/proc"] fails. *)
Definition e_ok : SysEnv :=
  Fixture.host (Fixture.at_sec 1000) Fixture.stat_a (Some Fixture.procs_a).
Definition e_fail : SysEnv :=
  Fixture.host (Fixture.at_sec 1001) Fixture.stat_b None.

Definition l0 : Main.locals := Main.mkLocals SORT_CPU [] false 0 true true.

Definition after_ok : Sampler * Gpu.statics * Outs :=
  Main.sample_block Fixture.fresh Gpu.init e_ok l0 Main.initial_outs.

Definition after_fail : Sampler * Gpu.statics * Outs :=
  let '(s1, g1, o1) := after_ok in Main.sample_block s1 g1 e_fail l0 o1.

End FixtureC5.

Module FixtureNet.

(** A host whose only interface besides [lo] has not moved a byte. *)
Definition idle_host : list (option NetRow) :=
  [Some (mkNetRow "lo" 5000 5000); Some (mkNetRow "eth0" 0 0)].

(** Scenario 3 of the specification, with a second, quieter interface
    whose receive counter went backwards. *)
Definition prev_table : list NetStats :=
  [mkNetStats "eth0" 1000000 0; mkNetStats "wlan0" 900 10].
Definition busy_host : list (option NetRow) :=
  [Some (mkNetRow "lo" 5000 5000); None;
   Some (mkNetRow "wlan0" 100 20); Some (mkNetRow "eth0" 2024000 0)].

Definition with_prev_net (t : list NetStats) : Sampler :=
  mkSampler zero_cpu [] t (Fixture.at_sec 1000) 4096 [].

End FixtureNet.

Module FixtureV3d.

(** Scenario 5 of the specification: queue [bin] read twice, with a
    second queue that ran a quarter of the time. *)
Definition first_read : list (option Gpu.V3dRow) :=
  [Some (Gpu.mkV3dRow "bin" 1000000000 500000000);
   Some (Gpu.mkV3dRow "render" 1000000000 100000000)].
Definition second_read : list (option Gpu.V3dRow) :=
  [Some (Gpu.mkV3dRow "bin" 2000000000 1000000000); None;
   Some (Gpu.mkV3dRow "render" 2000000000 350000000)].

Definition card (lines : list (option Gpu.V3dRow)) : Gpu.DrmEntry :=
  Gpu.mkDrmEntry "card0" [None; None; None; None] (Some lines) None
                 None (Some ["DRIVER=v3d"%string]) None None None.

Definition host (now : timeval) (lines : list (option Gpu.V3dRow)) : Gpu.Env :=
  Gpu.mkEnv now None (Some [card lines]) None None None None None.

Definition sampler0 : Sampler := Fixture.fresh.

(** Two probes one second apart. *)
Definition probe1 := Gpu.read_gpu Gpu.init sampler0 zero_mem
                                  (host (Fixture.at_sec 1000) first_read).
Definition probe2 :=
  let '(st, s, _, _) := probe1 in
  Gpu.read_gpu st s zero_mem (host (Fixture.at_sec 1001) second_read).

(** A third probe after the queues' counters restarted from zero. *)
Definition restarted : list (option Gpu.V3dRow) :=
  [Some (Gpu.mkV3dRow "bin" 1000000000 500000000);
   Some (Gpu.mkV3dRow "render" 1000000000 250000000)].
Definition probe3 :=
  let '(st, s, _, _) := probe2 in
  Gpu.read_gpu st s zero_mem (host (Fixture.at_sec 1002) restarted).

(** A table with all 16 slots taken. *)
Definition full_table : list V3dStats :=
  map (fun n => mkV3dStats (String (ascii_of_nat (97 + n)) EmptyString) 1000 10) (seq 0 16).

End FixtureV3d.

(** The caching claim as first stated: of two successive calls less than
    800 ms apart, made once a probe has run, the second returns what the
    first returned and consults no backend. *)
Definition cached_within_800ms : Prop :=
  forall (st : Gpu.statics) (s : Sampler) (mem : MemorySnapshot) (e1 e2 : Gpu.Env),
    tv_sec (Gpu.last_gpu_read st) <> 0 ->
    0 <= Gpu.ms_diff (Gpu.now e2) (Gpu.now e1) < 800 ->
    let '(st1, s1, g1, _) := Gpu.read_gpu st s mem e1 in
    let '(_, _, g2, log2) := Gpu.read_gpu st1 s1 mem e2 in
    g2 = g1 /\ log2 = [].

(** The difference of two clock readings in microseconds. *)
Definition usec_between (later earlier : timeval) : Z :=
  (tv_sec later - tv_sec earlier) * 1000000 + (tv_usec later - tv_usec earlier).

Definition timeval_wf (t : timeval) : Prop := 0 <= tv_usec t < 1000000.

Module FixtureGpu.

(** The line ["<u>, 512, 4096, 40"] of [nvidia-smi]. *)
Definition nv_line (u : double) : list Gpu.NvToken :=
  [Gpu.mkNvToken u 0; Gpu.mkNvToken 512%Q 512; Gpu.mkNvToken 4096%Q 4096;
   Gpu.mkNvToken 40%Q 40].

Definition nv_host (now : timeval) (u : double) : Gpu.Env :=
  Gpu.mkEnv now (Some (nv_line u)) None None None None None None.

(** Three calls 500 ms apart, as the loop of [main] makes them; by the
    third, [nvidia-smi] has stopped answering. *)
Definition e1 : Gpu.Env := nv_host (mkTimeval 1000 0) 10%Q.
Definition e2 : Gpu.Env := nv_host (mkTimeval 1000 500000) 35%Q.
Definition e3 : Gpu.Env := Fixture.no_gpu (mkTimeval 1001 0).

Definition call1 := Gpu.read_gpu Gpu.init Fixture.fresh zero_mem e1.
Definition call2 :=
  let '(st, s, _, _) := call1 in Gpu.read_gpu st s zero_mem e2.
Definition call3 :=
  let '(st, s, _, _) := call2 in Gpu.read_gpu st s zero_mem e3.

End FixtureGpu.

Module FixtureKeys.

(** The terminal as [init_terminal] leaves it, and the loop in SEARCH
    mode with the filter ["fire"]. *)
Definition tty : Tty.state := Tty.init_terminal (Tty.mkState 0 false 35387 []).
Definition searching : Main.locals :=
  Main.mkLocals SORT_CPU [102; 105; 114; 101] true 4 false false.

End FixtureKeys.

(* ================================================================== *)
(** ** More of the program: signals, the view, the CPU temperature *)

(** [signal_handler]: the terminal is restored and the program exits with
    the signal number. *)
Definition signal_handler (t : Tty.state) (sig : Z) : Main.outcome :=
  Main.Exited (Tty.restore_terminal t) sig.

(** The layout arithmetic of the rendering block of [main].  The values
    are [int]s; the window size comes from two [unsigned short]s. *)
Module View.

Record winsize := mkWinsize { ws_row : Z; ws_col : Z }.

Definition pid_w : Z := 7.
Definition cpu_w : Z := 8.
Definition mem_w : Z := 12.
Definition thr_w : Z := 4.

Definition name_w (ws : winsize) : Z :=
  let w := ws_col ws - (pid_w + cpu_w + mem_w + thr_w + 5) in
  if w <? 12 then 12 else w.

(** [visible = ws.ws_row - 12]. *)
Definition visible (ws : winsize) : Z := ws_row ws - 12.

(** The two [if]s that bring [selection] back into the list. *)
Definition clamp_selection (count selection : Z) : Z :=
  let s1 := if count <=? selection
            then (if 0 <? count then count - 1 else 0)
            else selection in
  if s1 <? 0 then 0 else s1.

(** [scroll_top], from the clamped selection. *)
Definition scroll_top (count vis selection : Z) : Z :=
  let t0 := selection - c_div vis 2 in
  let t1 := if count - vis <? t0 then count - vis else t0 in
  if t1 <? 0 then 0 else t1.

(** The indices the [for] loop prints, from [i] on: it runs while
    [i < count && i < lim].  [steps] bounds the iterations. *)
Fixpoint rows_from (steps : nat) (i count lim : Z) : list Z :=
  match steps with
  | O => []
  | S n =>
      if (i <? count) && (i <? lim) then i :: rows_from n (i + 1) count lim
      else []
  end.

(** The rows printed; no more than [count] iterations can take place
    from a non-negative start. *)
Definition shown_rows (count top vis : Z) : list Z :=
  rows_from (Z.to_nat count) top count (top + vis).

(** What one rendering shows of a list of [count] processes: the
    selection as corrected, the first row, the rows printed, and the two
    numbers of the ["Showing a-b of n"] footer (printed when [count > 0]). *)
Record frame := mkFrame {
  f_selection : Z;
  f_scroll_top : Z;
  f_rows : list Z;
  f_footer : Z * Z }.

Definition render_frame (ws : winsize) (count selection : Z) : frame :=
  let vis := visible ws in
  let sel := clamp_selection count selection in
  let top := scroll_top count vis sel in
  mkFrame sel top (shown_rows count top vis)
          (top + 1, if count <? top + vis then count else top + vis).

End View.

(** [read_cpu_temp]. *)
Module CpuTemp.

(** An entry of [/sys/class/thermal]: its name, the line read from its
    [type] file ([None]: cannot be opened or empty), and the number read
    from its [temp] file ([None]: cannot be opened or nothing
    converted). *)
Record Zone := mkZone {
  z_name : string; z_type : option string; z_temp : option double }.

(** A file of a hwmon device directory: its name and the number read
    from it ([None]: cannot be opened or nothing converted). *)
Record Input := mkInput { i_name : string; i_value : option double }.

(** An entry of [/sys/class/hwmon]: the line read from its [name] file
    and the listing of its directory ([None] when [opendir] fails). *)
Record Device := mkDevice {
  d_label : option string; d_inputs : option (list Input) }.

Definition sentinel : double := (-1000)%Q.

Definition zone_type_matches (ty : string) : bool :=
  let t := CStr.lower ty in
  CStr.strstr t "pkg" || CStr.strstr t "cpu" || CStr.strstr t "core"
  || CStr.strstr t "soc".

Definition zone_reading (z : Zone) : option double :=
  if CStr.starts_with (z_name z) "thermal_zone" then
    match z_type z with
    | Some ty =>
        if zone_type_matches ty then
          match z_temp z with
          | Some t => Some (fdiv t 1000%Q)
          | None => None
          end
        else None
    | None => None
    end
  else None.

(** The loop over [/sys/class/thermal]: the first zone that yields a
    reading ends the function. *)
Fixpoint thermal_scan (zs : list Zone) : option double :=
  match zs with
  | [] => None
  | z :: r =>
      match zone_reading z with
      | Some t => Some t
      | None => thermal_scan r
      end
  end.

Definition is_temp_input (n : string) : bool :=
  CStr.starts_with n "temp" && CStr.strstr n "_input".

(** One file of the device directory: [best] is raised to the reading
    when the reading is greater. *)
Definition input_step (best : double) (f : Input) : double :=
  if is_temp_input (i_name f) then
    match i_value f with
    | Some t => if fgtb (fdiv t 1000%Q) best then fdiv t 1000%Q else best
    | None => best
    end
  else best.

Definition device_best (fs : list Input) : double :=
  fold_left input_step fs sentinel.

Definition device_label_matches (n : string) : bool :=
  let t := CStr.lower n in
  CStr.strstr t "coretemp" || CStr.strstr t "cpu" || CStr.strstr t "k10temp".

Definition device_reading (d : Device) : option double :=
  match d_label d with
  | Some n =>
      if device_label_matches n then
        match d_inputs d with
        | Some fs =>
            let best := device_best fs in
            if fgtb best sentinel then Some best else None
        | None => None
        end
      else None
  | None => None
  end.

Fixpoint hwmon_scan (ds : list Device) : option double :=
  match ds with
  | [] => None
  | d :: r =>
      match device_reading d with
      | Some t => Some t
      | None => hwmon_scan r
      end
  end.

(** [read_cpu_temp]; either directory is [None] when [opendir] fails. *)
Definition read_cpu_temp (thermal : option (list Zone))
    (hwmon : option (list Device)) : double :=
  match match thermal with Some zs => thermal_scan zs | None => None end with
  | Some t => t
  | None =>
      match match hwmon with Some ds => hwmon_scan ds | None => None end with
      | Some t => t
      | None => sentinel
      end
  end.

End CpuTemp.

(* ================================================================== *)
(** ** Further statements and concrete inputs *)

(** The 64-byte array [filter] holds a terminated string of printable
    bytes. *)
Definition filter_fits (l : Main.locals) : Prop :=
  Main.strlen (Main.filter l) <= 63 /\
  Forall (fun b => 32 <= b <= 126) (Main.filter l).

Module FixtureView.

(** A terminal of 24 rows and 80 columns. *)
Definition vt100 : View.winsize := View.mkWinsize 24 80.

(** NORMAL mode, nothing typed yet. *)
Definition browsing : Main.locals :=
  Main.mkLocals SORT_CPU [] false 0 false false.

End FixtureView.

(** The filter's test on a listed process. *)
Definition matches (flt : string) (p : ProcessInfo) : bool :=
  filter_accepts flt (name p) (pid p).

Module FixtureFilter.

(** Two processes, sampled twice one second apart; the filter ["work"]
    is typed for the first sample and cleared for the second. *)
Definition e1 : SysEnv :=
  Fixture.host (Fixture.at_sec 1000) Fixture.stat_a
    (Some [Fixture.proc "123" "worker" 600 400 1 10;
           Fixture.proc "456" "late" 800 400 1 10]).
Definition e2 : SysEnv :=
  Fixture.host (Fixture.at_sec 1001) Fixture.stat_b (Some Fixture.procs_late).

Definition first (flt : string) : Sampler * Gpu.statics * Outs :=
  sample Fixture.fresh Gpu.init e1 SORT_CPU flt Main.initial_outs.

Definition second (flt1 flt2 : string) : Sampler * Gpu.statics * Outs :=
  sample (fst (fst (first flt1))) (snd (fst (first flt1))) e2 SORT_CPU flt2
         (snd (first flt1)).

(** A third host: the processes of [e1], not a tick later. *)
Definition e_still : SysEnv :=
  Fixture.host (Fixture.at_sec 1001) Fixture.stat_b (proc_dir e1).

Definition still : Sampler * Gpu.statics * Outs :=
  sample (fst (fst (first Fixture.no_filter))) (snd (fst (first Fixture.no_filter)))
         e_still SORT_CPU Fixture.no_filter (snd (first Fixture.no_filter)).

End FixtureFilter.

(** The entries [read_network] records for a file: one per line that
    parses and does not name [lo], in the order of the file. *)
Definition recorded (lines : list (option NetRow)) : list NetStats :=
  flat_map (fun l => match l with
                     | Some r =>
                         if String.eqb (nr_iface r) "lo" then []
                         else [mkNetStats (nr_iface r) (nr_rx r) (nr_tx r)]
                     | None => []
                     end) lines.

(** What a line of [/proc/meminfo] does to the number kept for a key: a
    line that starts with the key and carries a number replaces it. *)
Definition key_step (key : string) (acc : Z) (l : MemLine) : Z :=
  if CStr.starts_with (ml_text l) key
  then match ml_num l with Some n => n | None => acc end
  else acc.

(** The number after a key: that of the last line that starts with the
    key and carries a number, 0 when there is none. *)
Definition last_value (key : string) (lines : list MemLine) : Z :=
  fold_left (key_step key) lines 0.

Module FixtureMem.

(** A [/proc/meminfo] that repeats a key, has a line without a number
    and no swap. *)
Definition lines : list MemLine :=
  [mkMemLine "MemTotal:       16000000 kB" (Some 16000000);
   mkMemLine "MemFree:         1000000 kB" (Some 1000000);
   mkMemLine "MemAvailable:    4000000 kB" (Some 4000000);
   mkMemLine "MemAvailable: n/a" None;
   mkMemLine "CmaTotal:         262144 kB" (Some 262144);
   mkMemLine "CmaFree:          200000 kB" (Some 200000);
   mkMemLine "MemTotal:        8000000 kB" (Some 8000000)].

End FixtureMem.

(** The queue names of a table are kept, in place, and new ones are only
    added behind them; names that were distinct stay distinct. *)
Definition queues_extend (tbl tbl' : list V3dStats) : Prop :=
  (exists extra, map queue tbl' = map queue tbl ++ extra) /\
  (NoDup (map queue tbl) -> NoDup (map queue tbl')).

(** The kgsl files yield a usage: [gpu_busy_percentage] can be opened,
    or [gpubusy] can and holds a busy count and a total that are both
    positive. *)
Definition adreno_answers (e : Gpu.Env) : bool :=
  match Gpu.kgsl_busy_percentage e with
  | Some _ => true
  | None =>
      match Gpu.kgsl_gpubusy e with
      | Some (Some (busy, total)) => (0 <? total) && (0 <? busy)
      | _ => false
      end
  end.

(** The load of the first entry of a devfreq directory whose name holds
    v3d, gpu, mali or soc:gpu and whose [load] file gives a line. *)
Definition first_load (es : list Gpu.DevfreqEntry) : option double :=
  match find (fun d => Gpu.devfreq_match (Gpu.df_name d)
                       && match Gpu.df_load d with Some _ => true | None => false end)
             es with
  | Some d => Gpu.df_load d
  | None => None
  end.

(** The load devfreq yields: that of [/sys/class/devfreq] when it has
    one, else that of the soc directory. *)
Definition devfreq_first_load (e : Gpu.Env) : option double :=
  match match Gpu.devfreq_class e with Some es => first_load es | None => None end with
  | Some v => Some v
  | None => match Gpu.devfreq_soc e with Some es => first_load es | None => None end
  end.

Definition devfreq_answers (e : Gpu.Env) : bool :=
  match devfreq_first_load e with Some _ => true | None => false end.

Module FixtureDrm.

(** An entry of [/sys/class/drm] with one usage file at most. *)
Definition entry (n : string) (u : option double) : Gpu.DrmEntry :=
  Gpu.mkDrmEntry n [u] None None None None None None None.

(** A connector and a render node, then a card that reports 42 percent;
    a second card is listed after it. *)
Definition scan : list Gpu.DrmEntry :=
  [entry "card0-HDMI-A-1" (Some 99%Q); entry "renderD128" None;
   entry "card0" (Some 42%Q)].
Definition later : list Gpu.DrmEntry := [entry "card1" (Some 7%Q)].

(** A phone: no DRM usage, [gpubusy] reads 30 busy out of 120, and a
    devfreq device that would answer 80. *)
Definition phone : Gpu.Env :=
  Gpu.mkEnv (Fixture.at_sec 1000) None
            (Some [entry "card0-DSI-1" (Some 99%Q); entry "card0" None])
            (Some 41000%Q) None (Some (Some (30, 120)))
            (Some [Gpu.mkDevfreqEntry "5000000.gpu" (Some 80%Q)]) None.

End FixtureDrm.

(** Successive calls of [human_bytes], the results dropped. *)
Definition human_bytes_calls (st : HumanBytes.statics) (bs : list Z)
    : HumanBytes.statics :=
  fold_left (fun st b => fst (HumanBytes.human_bytes st b)) bs st.

(** The readings the loop over a device directory takes into account:
    those of the files named [temp*_input*] from which a number is read,
    in degrees. *)
Definition counted_input (fs : list CpuTemp.Input) (v : double) : Prop :=
  exists f t, In f fs /\ CpuTemp.is_temp_input (CpuTemp.i_name f) = true /\
              CpuTemp.i_value f = Some t /\ v = fdiv t 1000%Q.

Module FixtureTemp.

(** A board whose first zone is the battery, with a CPU zone after it,
    and a desktop with a [k10temp] device of two sensors. *)
Definition zones : list CpuTemp.Zone :=
  [CpuTemp.mkZone "cooling_device0" None None;
   CpuTemp.mkZone "thermal_zone0" (Some "battery"%string) (Some 30000%Q);
   CpuTemp.mkZone "thermal_zone1" (Some "CPU-therm"%string) (Some 48500%Q);
   CpuTemp.mkZone "thermal_zone2" (Some "soc_thermal"%string) (Some 51000%Q)].

Definition devices : list CpuTemp.Device :=
  [CpuTemp.mkDevice (Some "nvme"%string) (Some [CpuTemp.mkInput "temp1_input" (Some 35000%Q)]);
   CpuTemp.mkDevice (Some "k10temp"%string)
     (Some [CpuTemp.mkInput "temp1_input" (Some 41000%Q);
            CpuTemp.mkInput "temp1_label" None;
            CpuTemp.mkInput "temp3_input" (Some 62500%Q);
            CpuTemp.mkInput "temp2_input" None])].

End FixtureTemp.

(** [read_cpu_freq]. *)
Module CpuFreq.

(** A line of [/proc/cpuinfo]: its text and the number [sscanf] converts
    after its first [':'] ([None]: no [':'], or nothing converted). *)
Record InfoLine := mkInfoLine { il_text : string; il_num : option double }.

(** An entry of [/sys/devices/system/cpu]: its name and the number read
    from its [cpufreq/scaling_cur_freq] ([None]: cannot be opened or
    nothing converted). *)
Record CpuDir := mkCpuDir { cd_name : string; cd_khz : option double }.

(** The loop variables [total] and [count]. *)
Definition acc := (double * Z)%type.

Definition info_step (a : acc) (l : InfoLine) : acc :=
  if CStr.starts_with (il_text l) "cpu MHz" then
    match il_num l with
    | Some freq => (fadd (fst a) freq, snd a + 1)
    | None => a
    end
  else a.

Definition dir_step (a : acc) (d : CpuDir) : acc :=
  if is_cpuN_line (cd_name d) then
    match cd_khz d with
    | Some khz => (fadd (fst a) (fdiv khz 1000%Q), snd a + 1)
    | None => a
    end
  else a.

(** [if (count > 0) return total / count;] *)
Definition average (a : acc) : option double :=
  if 0 <? snd a then Some (fdiv (fst a) (of_int (snd a))) else None.

(** [read_cpu_freq]; either argument is [None] when the file or the
    directory cannot be opened. *)
Definition read_cpu_freq (cpuinfo : option (list InfoLine))
    (sysfs : option (list CpuDir)) : double :=
  match match cpuinfo with
        | Some ls => average (fold_left info_step ls (0%Q, 0))
        | None => None
        end with
  | Some v => v
  | None =>
      match match sysfs with
            | Some ds => average (fold_left dir_step ds (0%Q, 0))
            | None => None
            end with
      | Some v => v
      | None => 0%Q
      end
  end.

End CpuFreq.

(** The frequencies [read_cpu_freq] adds up from [/proc/cpuinfo], in MHz,
    and those it would add up from sysfs, in kHz. *)
Definition info_readings (ls : list CpuFreq.InfoLine) : list double :=
  flat_map (fun l => if CStr.starts_with (CpuFreq.il_text l) "cpu MHz"
                     then match CpuFreq.il_num l with Some f => [f] | None => [] end
                     else []) ls.

Definition dir_readings (ds : list CpuFreq.CpuDir) : list double :=
  flat_map (fun d => if is_cpuN_line (CpuFreq.cd_name d)
                     then match CpuFreq.cd_khz d with Some k => [k] | None => [] end
                     else []) ds.

Module FixtureFreq.

(** Two cores at 800 and 2400 MHz. *)
Definition cpuinfo : list CpuFreq.InfoLine :=
  [CpuFreq.mkInfoLine "processor : 0" (Some 0%Q);
   CpuFreq.mkInfoLine "cpu MHz : 800.000" (Some 800%Q);
   CpuFreq.mkInfoLine "cpu MHz" None;
   CpuFreq.mkInfoLine "cpu MHz : 2400.000" (Some 2400%Q)].

End FixtureFreq.

(** The readings the result of [read_cpu_freq] is computed from: those of
    [/proc/cpuinfo] when there is one, else those of sysfs. *)
Definition freq_source (cpuinfo : option (list CpuFreq.InfoLine))
    (sysfs : option (list CpuFreq.CpuDir)) : list double :=
  match match cpuinfo with Some ls => info_readings ls | None => [] end with
  | [] => match sysfs with Some ds => dir_readings ds | None => [] end
  | rs => rs
  end.

(* ================================================================== *)
(** * Lemmas *)

(** ** Rounding *)

Section RoundingFacts.
Local Open Scope Q_scope.

Lemma pow2_pos (e : Z) : 0 < 2 ^ e.
Proof. apply Qpower_0_lt. reflexivity. Qed.

Lemma pow2_nz (e : Z) : ~ 2 ^ e == 0.
Proof. pose proof (pow2_pos e). lra. Qed.

Lemma pow2_add (a b : Z) : 2 ^ (a + b) == 2 ^ a * 2 ^ b.
Proof. apply Qpower_plus. discriminate. Qed.

Lemma pow2_succ (a : Z) : 2 ^ (a + 1) == 2 * 2 ^ a.
Proof. rewrite pow2_add. change (2 ^ 1) with 2. ring. Qed.

Lemma pow2_le (a b : Z) : (a <= b)%Z -> 2 ^ a <= 2 ^ b.
Proof. intros H. apply Qpower_le_compat_l; [exact H | discriminate]. Qed.

Lemma pow2_lt_inv (a b : Z) : 2 ^ a < 2 ^ b -> (a < b)%Z.
Proof. intros H. apply (Qpower_lt_compat_l_inv 2); [exact H | reflexivity]. Qed.

Lemma pow2_inject (n : Z) : (0 <= n)%Z -> inject_Z (2 ^ n) == 2 ^ n.
Proof. intros H. rewrite Zpower_Qpower by exact H. reflexivity. Qed.

Lemma pow2_cancel (a : Z) : 2 ^ a * 2 ^ (- a) == 1.
Proof. rewrite <- pow2_add. replace (a + - a)%Z with 0%Z by lia. reflexivity. Qed.

(** *** Rounding to the nearest integer *)

Lemma rne_cases (x : Q) :
  (x - inject_Z (Qfloor x) < 1 # 2 /\ rne x = Qfloor x) \/
  (1 # 2 < x - inject_Z (Qfloor x) /\ rne x = (Qfloor x + 1)%Z) \/
  (x - inject_Z (Qfloor x) == 1 # 2 /\
   rne x = if Z.even (Qfloor x) then Qfloor x else (Qfloor x + 1)%Z).
Proof.
  unfold rne. cbv zeta.
  destruct (Qcompare_spec (x - inject_Z (Qfloor x)) (1 # 2)) as [E|L|G];
    [right; right | left | right; left]; split; auto.
Qed.

Lemma rne_inject (z : Z) : rne (inject_Z z) = z.
Proof.
  destruct (rne_cases (inject_Z z)) as [[_ H]|[[H _]|[H _]]];
    rewrite ?Qfloor_Z in *; auto; exfalso; lra.
Qed.

Lemma rne_comp (x y : Q) : x == y -> rne x = rne y.
Proof.
  intros E. unfold rne. cbv zeta.
  rewrite (Qfloor_comp _ _ E).
  assert (C : (x - inject_Z (Qfloor y) ?= 1 # 2) = (y - inject_Z (Qfloor y) ?= 1 # 2)).
  { apply Qcompare_comp; [rewrite E|]; reflexivity. }
  rewrite C. reflexivity.
Qed.

Lemma rne_mono (x y : Q) : x <= y -> (rne x <= rne y)%Z.
Proof.
  intros L.
  pose proof (Qfloor_resp_le _ _ L) as FL.
  pose proof (Qfloor_le x) as X1. pose proof (Qlt_floor x) as X2.
  pose proof (Qfloor_le y) as Y1. pose proof (Qlt_floor y) as Y2.
  destruct (Z.eq_dec (Qfloor x) (Qfloor y)) as [E|N].
  - destruct (rne_cases x) as [[Hx Rx]|[[Hx Rx]|[Hx Rx]]];
    destruct (rne_cases y) as [[Hy Ry]|[[Hy Ry]|[Hy Ry]]];
    rewrite Rx, Ry, <- ?E; rewrite <- ?E in Hy;
      try (destruct (Z.even (Qfloor x))); try lia; exfalso; lra.
  - assert (Qfloor x + 1 <= Qfloor y)%Z by lia.
    destruct (rne_cases x) as [[Hx Rx]|[[Hx Rx]|[Hx Rx]]];
    destruct (rne_cases y) as [[Hy Ry]|[[Hy Ry]|[Hy Ry]]];
    rewrite Rx, Ry;
      try (destruct (Z.even (Qfloor x))); try (destruct (Z.even (Qfloor y))); lia.
Qed.

End RoundingFacts.

Section Ilog2.
Local Open Scope Q_scope.

Lemma Qnum_pos (q : Q) : 0 < q -> (0 < Qnum q)%Z.
Proof. destruct q as [n d]. unfold Qlt. simpl. lia. Qed.

(** A positive rational lies strictly between the powers of two that its
    numerator's and denominator's bit lengths give. *)
Lemma log2_bracket (q : Q) : 0 < q ->
  let e0 := (Z.log2 (Qnum q) - Z.log2 (Zpos (Qden q)))%Z in
  2 ^ (e0 - 1) < q /\ q < 2 ^ (e0 + 1).
Proof.
  intros Hq e0.
  pose proof (Qnum_pos q Hq) as Hn.
  destruct (Z.log2_spec (Qnum q) Hn) as [N1 N2].
  destruct (Z.log2_spec (Zpos (Qden q)) (Pos2Z.is_pos _)) as [D1 D2].
  pose proof (Z.log2_nonneg (Qnum q)) as An.
  pose proof (Z.log2_nonneg (Zpos (Qden q))) as Ad.
  set (a := Z.log2 (Qnum q)) in *. set (b := Z.log2 (Zpos (Qden q))) in *.
  assert (Eq : q == inject_Z (Qnum q) / inject_Z (Zpos (Qden q))).
  { destruct q as [n d]. simpl. apply Qmake_Qdiv. }
  assert (Dp : 0 < inject_Z (Zpos (Qden q))) by (unfold Qlt; simpl; lia).
  assert (En : inject_Z (Qnum q) == q * inject_Z (Zpos (Qden q))).
  { rewrite Eq at 2. field. lra. }
  assert (QN1 : 2 ^ a <= inject_Z (Qnum q)).
  { rewrite <- pow2_inject by lia. rewrite <- Zle_Qle. exact N1. }
  assert (QN2 : inject_Z (Qnum q) < 2 ^ (a + 1)).
  { rewrite <- pow2_inject by lia. rewrite <- Zlt_Qlt.
    replace (a + 1)%Z with (Z.succ a) by lia. exact N2. }
  assert (QD1 : 2 ^ b <= inject_Z (Zpos (Qden q))).
  { rewrite <- pow2_inject by lia. rewrite <- Zle_Qle. exact D1. }
  assert (QD2 : inject_Z (Zpos (Qden q)) < 2 ^ (b + 1)).
  { rewrite <- pow2_inject by lia. rewrite <- Zlt_Qlt.
    replace (b + 1)%Z with (Z.succ b) by lia. exact D2. }
  pose proof (pow2_pos b) as Pb. pose proof (pow2_pos (e0 - 1)) as Pe.
  pose proof (pow2_pos (e0 + 1)) as Pe'.
  split.
  - (* 2^(e0-1) * d < 2^(e0-1) * 2^(b+1) = 2^a <= n = q * d *)
    assert (K : 2 ^ (e0 - 1) * 2 ^ (b + 1) == 2 ^ a).
    { rewrite <- pow2_add. unfold e0. replace (a - b - 1 + (b + 1))%Z with a by lia.
      reflexivity. }
    apply Qnot_le_lt. intros C.
    assert (q * inject_Z (Zpos (Qden q)) <= 2 ^ (e0 - 1) * inject_Z (Zpos (Qden q))).
    { apply Qmult_le_compat_r; lra. }
    assert (2 ^ (e0 - 1) * inject_Z (Zpos (Qden q)) < 2 ^ (e0 - 1) * 2 ^ (b + 1)).
    { apply Qmult_lt_l; assumption. }
    lra.
  - assert (K : 2 ^ (e0 + 1) * 2 ^ b == 2 ^ (a + 1)).
    { rewrite <- pow2_add. unfold e0. replace (a - b + 1 + b)%Z with (a + 1)%Z by lia.
      reflexivity. }
    apply Qnot_le_lt. intros C.
    assert (2 ^ (e0 + 1) * inject_Z (Zpos (Qden q)) <= q * inject_Z (Zpos (Qden q))).
    { apply Qmult_le_compat_r; lra. }
    assert (2 ^ (e0 + 1) * 2 ^ b <= 2 ^ (e0 + 1) * inject_Z (Zpos (Qden q))).
    { apply Qmult_le_l; assumption. }
    lra.
Qed.

Lemma ilog2_spec (q : Q) : 0 < q -> 2 ^ ilog2 q <= q /\ q < 2 ^ (ilog2 q + 1).
Proof.
  intros Hq. destruct (log2_bracket q Hq) as [B1 B2]. unfold ilog2. cbv zeta.
  set (e0 := (Z.log2 (Qnum q) - Z.log2 (Zpos (Qden q)))%Z) in *.
  destruct (Qle_bool (2 ^ e0) q) eqn:E.
  - apply Qle_bool_iff in E. split; assumption.
  - assert (~ 2 ^ e0 <= q) as N.
    { intros C. apply Qle_bool_iff in C. congruence. }
    split; [lra|]. replace (e0 - 1 + 1)%Z with e0 by lia. lra.
Qed.

Lemma ilog2_unique (q : Q) (e : Z) : 2 ^ e <= q -> q < 2 ^ (e + 1) -> ilog2 q = e.
Proof.
  intros L U.
  assert (Hq : 0 < q) by (pose proof (pow2_pos e); lra).
  destruct (ilog2_spec q Hq) as [L' U'].
  assert (e < ilog2 q + 1)%Z by (apply pow2_lt_inv; lra).
  assert (ilog2 q < e + 1)%Z by (apply pow2_lt_inv; lra).
  lia.
Qed.

Lemma ilog2_comp : forall x y, 0 < x -> x == y -> ilog2 x = ilog2 y.
Proof.
  intros x y Hx E. symmetry. apply ilog2_unique; rewrite <- E; apply ilog2_spec; exact Hx.
Qed.

Lemma ilog2_mono (x y : Q) : 0 < x -> x <= y -> (ilog2 x <= ilog2 y)%Z.
Proof.
  intros Hx L.
  destruct (ilog2_spec x Hx) as [Lx Ux].
  destruct (ilog2_spec y) as [Ly Uy]; [lra|].
  assert (ilog2 x < ilog2 y + 1)%Z by (apply pow2_lt_inv; lra). lia.
Qed.

End Ilog2.

Section Rnd.
Local Open Scope Q_scope.

(** The significand of a positive number, scaled into [2^52, 2^53). *)
Lemma scaled_bounds (q : Q) : 0 < q ->
  2 ^ 52 <= q * 2 ^ (52 - ilog2 q) /\ q * 2 ^ (52 - ilog2 q) < 2 ^ 53.
Proof.
  intros Hq. destruct (ilog2_spec q Hq) as [L U].
  set (e := ilog2 q) in *.
  pose proof (pow2_pos (52 - e)) as P.
  assert (E1 : 2 ^ e * 2 ^ (52 - e) == 2 ^ 52).
  { rewrite <- pow2_add. replace (e + (52 - e))%Z with 52%Z by lia. reflexivity. }
  assert (E2 : 2 ^ (e + 1) * 2 ^ (52 - e) == 2 ^ 53).
  { rewrite <- pow2_add. replace (e + 1 + (52 - e))%Z with 53%Z by lia. reflexivity. }
  split.
  - rewrite <- E1. apply Qmult_le_compat_r; lra.
  - rewrite <- E2. apply Qmult_lt_r; assumption.
Qed.

Lemma rne_scaled_bounds (q : Q) : 0 < q ->
  (2 ^ 52 <= rne (q * 2 ^ (52 - ilog2 q)) <= 2 ^ 53)%Z.
Proof.
  intros Hq. destruct (scaled_bounds q Hq) as [L U]. split.
  - rewrite <- (rne_inject (2 ^ 52)). apply rne_mono.
    rewrite pow2_inject by lia. exact L.
  - rewrite <- (rne_inject (2 ^ 53)). apply rne_mono.
    rewrite pow2_inject by lia. lra.
Qed.

Lemma rnd_pos_bounds (q : Q) : 0 < q ->
  2 ^ ilog2 q <= rnd_pos q /\ rnd_pos q <= 2 ^ (ilog2 q + 1).
Proof.
  intros Hq. destruct (rne_scaled_bounds q Hq) as [L U]. unfold rnd_pos. cbv zeta.
  set (e := ilog2 q) in *. set (m := rne (q * 2 ^ (52 - e))) in *.
  pose proof (pow2_pos (e - 52)) as P.
  assert (E1 : 2 ^ 52 * 2 ^ (e - 52) == 2 ^ e).
  { rewrite <- pow2_add. replace (52 + (e - 52))%Z with e by lia. reflexivity. }
  assert (E2 : 2 ^ 53 * 2 ^ (e - 52) == 2 ^ (e + 1)).
  { rewrite <- pow2_add. replace (53 + (e - 52))%Z with (e + 1)%Z by lia. reflexivity. }
  split.
  - rewrite <- E1. apply Qmult_le_compat_r; [|lra].
    rewrite <- pow2_inject by lia. rewrite <- Zle_Qle. exact L.
  - rewrite <- E2. apply Qmult_le_compat_r; [|lra].
    rewrite <- pow2_inject by lia. rewrite <- Zle_Qle. exact U.
Qed.

Lemma rnd_pos_positive (q : Q) : 0 < q -> 0 < rnd_pos q.
Proof.
  intros Hq. destruct (rnd_pos_bounds q Hq) as [L _].
  pose proof (pow2_pos (ilog2 q)). lra.
Qed.

Lemma rnd_pos_comp (x y : Q) : 0 < x -> x == y -> rnd_pos x == rnd_pos y.
Proof.
  intros Hx E. unfold rnd_pos. cbv zeta.
  rewrite <- (ilog2_comp x y Hx E).
  assert (R : rne (x * 2 ^ (52 - ilog2 x)) = rne (y * 2 ^ (52 - ilog2 x))).
  { apply rne_comp. apply Qmult_comp; [exact E | reflexivity]. }
  rewrite R. reflexivity.
Qed.

Lemma rnd_pos_mono (x y : Q) : 0 < x -> x <= y -> rnd_pos x <= rnd_pos y.
Proof.
  intros Hx L.
  assert (Hy : 0 < y) by lra.
  pose proof (ilog2_mono x y Hx L) as M.
  destruct (Z.eq_dec (ilog2 x) (ilog2 y)) as [E|N].
  - unfold rnd_pos. cbv zeta. rewrite <- E.
    apply Qmult_le_compat_r; [|pose proof (pow2_pos (ilog2 x - 52)); lra].
    rewrite <- Zle_Qle. apply rne_mono.
    apply Qmult_le_compat_r; [exact L|pose proof (pow2_pos (52 - ilog2 x)); lra].
  - destruct (rnd_pos_bounds x Hx) as [_ Ux]. destruct (rnd_pos_bounds y Hy) as [Ly _].
    assert (2 ^ (ilog2 x + 1) <= 2 ^ ilog2 y) by (apply pow2_le; lia). lra.
Qed.

(** A number with at most 53 significant bits is not changed. *)
Lemma rnd_pos_exact (m k : Z) : (0 < m < 2 ^ 53)%Z ->
  rnd_pos (inject_Z m * 2 ^ k) == inject_Z m * 2 ^ k.
Proof.
  intros [M0 M1].
  assert (Hm : 0 < inject_Z m) by (unfold Qlt; simpl; lia).
  pose proof (pow2_pos k) as Pk.
  assert (Hq : 0 < inject_Z m * 2 ^ k) by (apply Qmult_lt_0_compat; assumption).
  destruct (ilog2_spec _ Hq) as [L U]. unfold rnd_pos. cbv zeta.
  set (e := ilog2 (inject_Z m * 2 ^ k)) in *.
  assert (Hk : (0 <= k + 52 - e)%Z).
  { assert (inject_Z m < 2 ^ 53).
    { rewrite <- pow2_inject by lia. rewrite <- Zlt_Qlt. exact M1. }
    assert (inject_Z m * 2 ^ k < 2 ^ 53 * 2 ^ k) by (apply Qmult_lt_r; assumption).
    assert (2 ^ e < 2 ^ (53 + k)) by (rewrite pow2_add; lra).
    apply pow2_lt_inv in H1. lia. }
  assert (S : inject_Z m * 2 ^ k * 2 ^ (52 - e) == inject_Z (m * 2 ^ (k + 52 - e))).
  { rewrite inject_Z_mult, pow2_inject by exact Hk.
    replace (k + 52 - e)%Z with (k + (52 - e))%Z by lia. rewrite pow2_add. ring. }
  rewrite (rne_comp _ _ S), rne_inject.
  rewrite inject_Z_mult, pow2_inject by exact Hk.
  rewrite <- Qmult_assoc, <- pow2_add.
  replace (k + 52 - e + (e - 52))%Z with k by lia. reflexivity.
Qed.

(** *** The rounding operator *)

Lemma rnd_zero : rnd 0 == 0.
Proof. reflexivity. Qed.

Lemma rnd_of_pos (q : Q) : 0 < q -> rnd q == rnd_pos q.
Proof.
  intros H. unfold rnd. destruct (Qcompare_spec q 0); try lra. apply Qred_correct.
Qed.

Lemma rnd_of_neg (q : Q) : q < 0 -> rnd q == - rnd_pos (- q).
Proof.
  intros H. unfold rnd. destruct (Qcompare_spec q 0); try lra. apply Qred_correct.
Qed.

Lemma rnd_of_zero (q : Q) : q == 0 -> rnd q == 0.
Proof.
  intros H. unfold rnd. destruct (Qcompare_spec q 0); try lra.
Qed.

Lemma rnd_sign_pos (q : Q) : 0 < q -> 0 < rnd q.
Proof. intros H. rewrite rnd_of_pos by exact H. apply rnd_pos_positive, H. Qed.

Lemma rnd_nonneg (q : Q) : 0 <= q -> 0 <= rnd q.
Proof.
  intros H. destruct (Qlt_le_dec 0 q) as [P|N].
  - apply Qlt_le_weak, rnd_sign_pos, P.
  - rewrite rnd_of_zero by lra. lra.
Qed.

Lemma rnd_sign_neg (q : Q) : q < 0 -> rnd q < 0.
Proof.
  intros H. rewrite rnd_of_neg by exact H.
  assert (0 < rnd_pos (- q)) by (apply rnd_pos_positive; lra). lra.
Qed.

Lemma rnd_comp (x y : Q) : x == y -> rnd x == rnd y.
Proof.
  intros E. destruct (Q_dec x 0) as [[N|P]|Z].
  - rewrite (rnd_of_neg x), (rnd_of_neg y) by lra.
    rewrite (rnd_pos_comp (- x) (- y)); [reflexivity|lra|rewrite E; reflexivity].
  - rewrite (rnd_of_pos x), (rnd_of_pos y) by lra. apply rnd_pos_comp; assumption.
  - rewrite (rnd_of_zero x), (rnd_of_zero y) by lra. reflexivity.
Qed.

#[local] Instance rnd_proper : Proper (Qeq ==> Qeq) rnd.
Proof. intros x y E. apply rnd_comp, E. Qed.

Lemma rnd_mono (x y : Q) : x <= y -> rnd x <= rnd y.
Proof.
  intros L. destruct (Q_dec x 0) as [[Nx|Px]|Zx].
  - destruct (Q_dec y 0) as [[Ny|Py]|Zy].
    + rewrite (rnd_of_neg x), (rnd_of_neg y) by assumption.
      assert (rnd_pos (- y) <= rnd_pos (- x)) by (apply rnd_pos_mono; lra). lra.
    + pose proof (rnd_sign_neg x Nx). pose proof (rnd_sign_pos y Py). lra.
    + pose proof (rnd_sign_neg x Nx). rewrite (rnd_of_zero y) by assumption. lra.
  - rewrite (rnd_of_pos x), (rnd_of_pos y) by lra. apply rnd_pos_mono; assumption.
  - rewrite (rnd_of_zero x) by assumption. apply rnd_nonneg. lra.
Qed.

Lemma rnd_exact (m k : Z) : (Z.abs m < 2 ^ 53)%Z ->
  rnd (inject_Z m * 2 ^ k) == inject_Z m * 2 ^ k.
Proof.
  intros H. pose proof (pow2_pos k) as Pk.
  destruct (Z.lt_total m 0) as [N|[Z|P]].
  - assert (inject_Z m < 0) by (unfold Qlt; simpl; lia).
    assert (inject_Z m * 2 ^ k < 0).
    { setoid_replace (inject_Z m * 2 ^ k) with (- (- inject_Z m * 2 ^ k)) by ring.
      assert (0 < - inject_Z m * 2 ^ k) by (apply Qmult_lt_0_compat; lra). lra. }
    rewrite rnd_of_neg by assumption.
    assert (E : - (inject_Z m * 2 ^ k) == inject_Z (- m) * 2 ^ k).
    { rewrite inject_Z_opp. ring. }
    assert (Pn : 0 < - (inject_Z m * 2 ^ k)) by lra.
    rewrite (rnd_pos_comp _ _ Pn E), rnd_pos_exact by lia.
    rewrite inject_Z_opp. ring.
  - subst m. rewrite rnd_of_zero by ring. ring.
  - assert (0 < inject_Z m) by (unfold Qlt; simpl; lia).
    rewrite rnd_of_pos by (apply Qmult_lt_0_compat; assumption).
    apply rnd_pos_exact. lia.
Qed.

Lemma of_int_exact (z : Z) : (Z.abs z < 2 ^ 53)%Z -> of_int z == inject_Z z.
Proof.
  intros H. unfold of_int.
  assert (E : inject_Z z == inject_Z z * 2 ^ 0) by (change (2 ^ 0) with 1; ring).
  rewrite E at 1. rewrite rnd_exact by exact H. symmetry. exact E.
Qed.

Lemma of_int_mono (a b : Z) : (a <= b)%Z -> of_int a <= of_int b.
Proof. intros H. apply rnd_mono. rewrite <- Zle_Qle. exact H. Qed.

Lemma of_int_nonneg (a : Z) : (0 <= a)%Z -> 0 <= of_int a.
Proof. intros H. apply rnd_nonneg. change 0 with (inject_Z 0). rewrite <- Zle_Qle. exact H. Qed.

End Rnd.

(** *** The model against the kernel's binary64 arithmetic

    On the operands of the examples used below, the rounding operator
    gives what the hardware operation gives. *)

Example agrees_third :
  binary64_value (PrimFloat.div 1 3) = fdiv 1%Q 3%Q.
Proof. vm_compute. reflexivity. Qed.

Example agrees_millisecond :
  binary64_value (PrimFloat.div 1 1000) = d_0_001.
Proof. vm_compute. reflexivity. Qed.

Example agrees_percent :
  binary64_value
    (PrimFloat.div (PrimFloat.mul (PrimFloat.of_uint63 400000000000003%uint63) 100)
                   (PrimFloat.of_uint63 400000000000003%uint63))
  = fdiv (fmul (of_int 400000000000003) 100%Q) (of_int 400000000000003).
Proof. vm_compute. reflexivity. Qed.

Example agrees_kib :
  binary64_value (PrimFloat.div (PrimFloat.of_uint63 1048575%uint63) 1024)
  = fdiv (of_int 1048575) 1024%Q.
Proof. vm_compute. reflexivity. Qed.

Example agrees_large :
  binary64_value (PrimFloat.of_uint63 9223372036854775807%uint63)
  = of_int 9223372036854775807.
Proof. vm_compute. reflexivity. Qed.

(* ------------------------------------------------------------------ *)
(** ** Unsigned arithmetic and percentages *)

Lemma wrap_small (z : Z) : U64.in_range z -> U64.wrap z = z.
Proof. unfold U64.in_range, U64.wrap. intros H. apply Z.mod_small. exact H. Qed.

Lemma wrap_range (z : Z) : U64.in_range (U64.wrap z).
Proof. unfold U64.in_range, U64.wrap, U64.modulus. apply Z.mod_pos_bound. reflexivity. Qed.

Ltac unwrap :=
  repeat match goal with
         | |- context [U64.wrap ?z] =>
             rewrite (wrap_small z) by (unfold U64.in_range, U64.modulus in *; lia)
         end.

Lemma cpu_total_exact (c : CpuTimes) :
  cpu_wf c -> cpu_sum c < U64.modulus -> cpu_total c = cpu_sum c.
Proof.
  unfold cpu_wf, cpu_sum, cpu_total, U64.add, U64.in_range.
  intros (H1 & H2 & H3 & H4 & H5 & H6 & H7 & H8) S.
  unwrap. reflexivity.
Qed.

Lemma cpu_sum_mono (prev cur : CpuTimes) :
  no_regression prev cur -> cpu_sum prev <= cpu_sum cur.
Proof. unfold no_regression, cpu_sum. lia. Qed.

Lemma total_delta_exact (prev cur : CpuTimes) :
  cpu_wf prev -> cpu_wf cur -> no_regression prev cur ->
  cpu_sum cur < U64.modulus ->
  total_delta prev cur = cpu_sum cur - cpu_sum prev.
Proof.
  intros Wp Wc N S. pose proof (cpu_sum_mono _ _ N) as M.
  unfold total_delta. rewrite !cpu_total_exact by (assumption || lia).
  unfold U64.sub. apply wrap_small.
  unfold cpu_wf, U64.in_range, cpu_sum in *. lia.
Qed.

Lemma idle_delta_exact (prev cur : CpuTimes) :
  cpu_wf prev -> cpu_wf cur -> no_regression prev cur ->
  cpu_sum cur < U64.modulus ->
  idle_delta prev cur = (idle cur + iowait cur) - (idle prev + iowait prev).
Proof.
  intros Wp Wc N S. pose proof (cpu_sum_mono _ _ N) as M.
  unfold idle_delta, U64.add, U64.sub.
  unfold cpu_wf, no_regression, U64.in_range, cpu_sum in *.
  unwrap. reflexivity.
Qed.

Section Percent.
Local Open Scope Q_scope.

(** A percentage of a part in a whole below 2^48 is computed without
    leaving [0, 100]. *)
Lemma percent_bounded (x y : Z) : (0 <= x <= y)%Z -> (0 < y < 2 ^ 48)%Z ->
  0 <= fdiv (fmul (of_int x) 100) (of_int y) /\
  fdiv (fmul (of_int x) 100) (of_int y) <= 100.
Proof.
  intros Hx Hy.
  assert (Ex : of_int x == inject_Z x) by (apply of_int_exact; lia).
  assert (Ey : of_int y == inject_Z y) by (apply of_int_exact; lia).
  assert (Em : fmul (of_int x) 100 == inject_Z x * 100).
  { unfold fmul. rewrite (rnd_comp _ (inject_Z (25 * x) * 2 ^ 2)).
    - rewrite rnd_exact by lia. rewrite inject_Z_mult. change (2 ^ 2) with 4.
      change (inject_Z 25) with 25. ring.
    - rewrite Ex, inject_Z_mult. change (2 ^ 2) with 4. change (inject_Z 25) with 25. ring. }
  assert (Py : 0 < inject_Z y) by (unfold Qlt; simpl; lia).
  assert (Px : 0 <= inject_Z x) by (unfold Qle; simpl; lia).
  assert (Lxy : inject_Z x <= inject_Z y) by (rewrite <- Zle_Qle; lia).
  assert (Eq : fmul (of_int x) 100 / of_int y == inject_Z x * 100 / inject_Z y).
  { rewrite Em, Ey. reflexivity. }
  unfold fdiv. rewrite (rnd_comp _ _ Eq).
  split.
  - apply rnd_nonneg. apply Qle_shift_div_l; [exact Py|]. lra.
  - assert (E100 : rnd 100 == 100) by (vm_compute; reflexivity).
    rewrite <- E100 at 2. apply rnd_mono.
    apply Qle_shift_div_r; [exact Py|]. lra.
Qed.

End Percent.

(** ** The sort *)

Section MergeSort.
Context {A : Type} (cmp : A -> A -> Z).

Lemma merge_nil_r (l : list A) : Qsort.merge cmp l [] = l.
Proof. destruct l; reflexivity. Qed.

Lemma merge_perm (l1 : list A) : forall l2,
  Permutation (Qsort.merge cmp l1 l2) (l1 ++ l2).
Proof.
  induction l1 as [|a1 r1 IH1]; intros l2.
  - destruct l2; reflexivity.
  - induction l2 as [|a2 r2 IH2].
    + simpl. rewrite app_nil_r. reflexivity.
    + simpl. destruct (cmp a1 a2 <=? 0).
      * constructor. apply IH1.
      * etransitivity; [constructor; exact IH2|].
        change (Permutation (a2 :: (a1 :: r1) ++ r2) ((a1 :: r1) ++ a2 :: r2)).
        apply Permutation_middle.
Qed.

Lemma msort_perm (d : nat) : forall l, Permutation (Qsort.msort cmp d l) l.
Proof.
  induction d as [|d IH]; intros l; simpl.
  - reflexivity.
  - destruct (Nat.leb (List.length l) 1); [reflexivity|].
    rewrite merge_perm, !IH. rewrite firstn_skipn. reflexivity.
Qed.

Lemma qsort_r_perm (l : list A) : Permutation (Qsort.qsort_r cmp l) l.
Proof. apply msort_perm. Qed.

Lemma qsort_r_length (l : list A) :
  List.length (Qsort.qsort_r cmp l) = List.length l.
Proof. apply Permutation_length, qsort_r_perm. Qed.

(** Sortedness needs of the comparator only that its sign decides the
    order one way or the other. *)
Context (R : A -> A -> Prop).
Hypothesis cmp_le : forall a b, cmp a b <= 0 -> R a b.
Hypothesis cmp_gt : forall a b, 0 < cmp a b -> R b a.

Lemma merge_hd (a : A) (l1 : list A) : forall l2,
  HdRel R a l1 -> HdRel R a l2 -> HdRel R a (Qsort.merge cmp l1 l2).
Proof.
  destruct l1 as [|a1 r1]; intros l2 H1 H2.
  - destruct l2; exact H2.
  - destruct l2 as [|a2 r2]; [exact H1|].
    simpl. destruct (cmp a1 a2 <=? 0); constructor.
    + inversion H1; assumption.
    + inversion H2; assumption.
Qed.

Lemma merge_sorted (l1 : list A) : forall l2,
  Sorted R l1 -> Sorted R l2 -> Sorted R (Qsort.merge cmp l1 l2).
Proof.
  induction l1 as [|a1 r1 IH1]; intros l2 S1 S2.
  - destruct l2; exact S2.
  - induction l2 as [|a2 r2 IH2]; [exact S1|].
    apply Sorted_inv in S1 as [S1 H1]. pose proof S2 as S2'.
    apply Sorted_inv in S2 as [S2 H2].
    simpl. destruct (cmp a1 a2 <=? 0) eqn:E.
    + constructor.
      * apply IH1; assumption.
      * apply merge_hd; [exact H1|]. constructor. apply cmp_le. lia.
    + constructor.
      * apply IH2. exact S2.
      * change (HdRel R a2 (Qsort.merge cmp (a1 :: r1) r2)).
        apply merge_hd; [|exact H2]. constructor. apply cmp_gt. lia.
Qed.

Lemma short_sorted (l : list A) : (List.length l <= 1)%nat -> Sorted R l.
Proof.
  destruct l as [|a [|b r]]; simpl; intros H.
  - constructor.
  - repeat constructor.
  - lia.
Qed.

Lemma msort_sorted (d : nat) : forall l,
  (List.length l <= d)%nat -> Sorted R (Qsort.msort cmp d l).
Proof.
  induction d as [|d IH]; intros l H; cbn [Qsort.msort].
  - apply short_sorted. lia.
  - destruct (Nat.leb (List.length l) 1) eqn:E.
    + apply short_sorted. apply Nat.leb_le. exact E.
    + apply Nat.leb_gt in E.
      assert (D : (List.length l / 2 < List.length l)%nat)
        by (apply Nat.div_lt; lia).
      assert (D0 : (0 < List.length l / 2)%nat)
        by (apply Nat.div_str_pos; lia).
      apply merge_sorted; apply IH.
      * rewrite length_firstn. lia.
      * rewrite length_skipn. lia.
Qed.

Lemma qsort_r_sorted (l : list A) : Sorted R (Qsort.qsort_r cmp l).
Proof. apply msort_sorted. apply Nat.le_refl. Qed.

End MergeSort.

(** ** [compare_procs] *)

Lemma fgtb_true (a b : double) : fgtb a b = true <-> (b < a)%Q.
Proof.
  unfold fgtb, fltb. rewrite negb_true_iff. split.
  - intros H. apply Qnot_le_lt. intros C. apply Qle_bool_iff in C. congruence.
  - intros H. destruct (Qle_bool a b) eqn:E; [|reflexivity].
    apply Qle_bool_iff in E. lra.
Qed.

Lemma fgtb_false (a b : double) : fgtb a b = false <-> (a <= b)%Q.
Proof.
  unfold fgtb, fltb. rewrite negb_false_iff. apply Qle_bool_iff.
Qed.

Lemma fltb_true (a b : double) : fltb a b = true <-> (a < b)%Q.
Proof. apply (fgtb_true b a). Qed.

Lemma fltb_false (a b : double) : fltb a b = false <-> (b <= a)%Q.
Proof. apply (fgtb_false b a). Qed.

Lemma compare_procs_le (mode : SortMode) (p q : ProcessInfo) :
  compare_procs mode p q <= 0 -> sorted_pair mode p q.
Proof.
  unfold compare_procs, sorted_pair. destruct mode.
  - destruct (fgtb (cpu_percent q) (cpu_percent p)) eqn:G; [lia|].
    apply fgtb_false in G.
    destruct (fltb (cpu_percent q) (cpu_percent p)) eqn:L.
    + apply fltb_true in L. intros _. split; [lra|]. intros E. lra.
    + destruct (mem_bytes q >? mem_bytes p) eqn:M; [lia|].
      intros _. split; [exact G|]. intros _. lia.
  - destruct (mem_bytes q >? mem_bytes p) eqn:G; [lia|].
    destruct (mem_bytes q <? mem_bytes p) eqn:L.
    + intros _. split; lia.
    + destruct (fgtb (cpu_percent q) (cpu_percent p)) eqn:C; [lia|].
      apply fgtb_false in C. intros _. split; [lia|]. intros _. exact C.
Qed.

Lemma compare_procs_gt (mode : SortMode) (p q : ProcessInfo) :
  0 < compare_procs mode p q -> sorted_pair mode q p.
Proof.
  unfold compare_procs, sorted_pair. destruct mode.
  - destruct (fgtb (cpu_percent q) (cpu_percent p)) eqn:G.
    + apply fgtb_true in G. intros _. split; [lra|]. intros E. lra.
    + apply fgtb_false in G.
      destruct (fltb (cpu_percent q) (cpu_percent p)) eqn:L; [lia|].
      apply fltb_false in L.
      destruct (mem_bytes q >? mem_bytes p) eqn:M; [|lia].
      intros _. split; [exact L|]. intros _. lia.
  - destruct (mem_bytes q >? mem_bytes p) eqn:G.
    + intros _. split; lia.
    + destruct (mem_bytes q <? mem_bytes p) eqn:L; [lia|].
      destruct (fgtb (cpu_percent q) (cpu_percent p)) eqn:C; [|lia].
      apply fgtb_true in C. intros _. split; [lia|]. intros _. lra.
Qed.

(** The comparator never looks at the pid. *)
Lemma compare_procs_pid_blind (mode : SortMode) (p q : ProcessInfo) (i j : Z) :
  compare_procs mode
    (mkProcessInfo i (name p) (cpu_percent p) (mem_bytes p) (threads p))
    (mkProcessInfo j (name q) (cpu_percent q) (mem_bytes q) (threads q))
  = compare_procs mode p q.
Proof. destruct mode; reflexivity. Qed.

(** Two entries equal in both metrics compare as "first before second"
    in either order. *)
Lemma compare_procs_tie (mode : SortMode) (p q : ProcessInfo) :
  (cpu_percent p == cpu_percent q)%Q -> mem_bytes p = mem_bytes q ->
  compare_procs mode p q = -1 /\ compare_procs mode q p = -1.
Proof.
  intros C M. unfold compare_procs.
  assert (G1 : fgtb (cpu_percent q) (cpu_percent p) = false) by (apply fgtb_false; lra).
  assert (G2 : fgtb (cpu_percent p) (cpu_percent q) = false) by (apply fgtb_false; lra).
  assert (L1 : fltb (cpu_percent q) (cpu_percent p) = false) by (apply fltb_false; lra).
  assert (L2 : fltb (cpu_percent p) (cpu_percent q) = false) by (apply fltb_false; lra).
  destruct mode; rewrite ?G1, ?G2, ?L1, ?L2, M, ?Z.gtb_ltb, !Z.ltb_irrefl; auto.
Qed.

(** Two entries equal in both metrics are [tied], and conversely. *)
Lemma tied_spec (p q : ProcessInfo) :
  tied p q = true <->
  (cpu_percent p == cpu_percent q)%Q /\ mem_bytes p = mem_bytes q.
Proof.
  unfold tied. rewrite andb_true_iff, Qeq_bool_iff, Z.eqb_eq. reflexivity.
Qed.

Lemma sorted_pair_refl (mode : SortMode) (p : ProcessInfo) : sorted_pair mode p p.
Proof. destruct mode; simpl; split; intros; lra || lia. Qed.

Lemma sorted_pair_trans (mode : SortMode) (p q r : ProcessInfo) :
  sorted_pair mode p q -> sorted_pair mode q r -> sorted_pair mode p r.
Proof.
  destruct mode; simpl; intros [A B] [C D]; split; try lra; try lia.
  - intros E. assert (E1 : (cpu_percent p == cpu_percent q)%Q) by lra.
    assert (E2 : (cpu_percent q == cpu_percent r)%Q) by lra.
    specialize (B E1). specialize (D E2). lia.
  - intros E. assert (E1 : mem_bytes p = mem_bytes q) by lia.
    assert (E2 : mem_bytes q = mem_bytes r) by lia.
    specialize (B E1). specialize (D E2). lra.
Qed.

(** A positive result means the second entry is strictly ahead. *)
Lemma compare_procs_strict (mode : SortMode) (p q : ProcessInfo) :
  0 < compare_procs mode p q -> ~ sorted_pair mode p q.
Proof.
  unfold compare_procs, sorted_pair. destruct mode.
  - destruct (fgtb (cpu_percent q) (cpu_percent p)) eqn:G.
    + apply fgtb_true in G. intros _ [A _]. lra.
    + apply fgtb_false in G.
      destruct (fltb (cpu_percent q) (cpu_percent p)) eqn:L; [lia|].
      apply fltb_false in L.
      destruct (mem_bytes q >? mem_bytes p) eqn:M; [|lia].
      intros _ [_ B]. assert (E : (cpu_percent p == cpu_percent q)%Q) by lra.
      specialize (B E). apply Z.gtb_lt in M. lia.
  - destruct (mem_bytes q >? mem_bytes p) eqn:G.
    + apply Z.gtb_lt in G. intros _ [A _]. lia.
    + destruct (mem_bytes q <? mem_bytes p) eqn:L; [lia|].
      destruct (fgtb (cpu_percent q) (cpu_percent p)) eqn:C; [|lia].
      apply fgtb_true in C. intros _ [A B].
      rewrite Z.gtb_ltb in G. apply Z.ltb_ge in G, L.
      assert (E : mem_bytes p = mem_bytes q) by lia. specialize (B E). lra.
Qed.

(** ** Stability *)

Section Stability.
Context {A : Type} (cmp : A -> A -> Z) (R : A -> A -> Prop) (c : A -> bool).
Hypothesis cmp_le : forall a b, cmp a b <= 0 -> R a b.
Hypothesis cmp_gt : forall a b, 0 < cmp a b -> R b a.
Hypothesis R_refl : forall a, R a a.
Hypothesis R_trans : forall a b d, R a b -> R b d -> R a d.
(** No member of the class [c] stands at or below an element that
    compares strictly below another member. *)
Hypothesis class_block :
  forall a x y, c x = true -> c y = true -> R a x -> 0 < cmp a y -> False.

Lemma sorted_head_dominates (a : A) (l : list A) :
  Sorted R (a :: l) -> forall x, In x l -> R a x.
Proof.
  revert a. induction l as [|b r IH]; intros a S x I; [contradiction|].
  apply Sorted_inv in S as [S H]. apply HdRel_inv in H.
  destruct I as [<-|I]; [exact H|].
  apply (R_trans a b x H). apply IH; assumption.
Qed.

(** Merging keeps the members of the class in the order "left list, then
    right list". *)
Lemma merge_class (l1 : list A) : forall l2,
  Sorted R l1 ->
  filter c (Qsort.merge cmp l1 l2) = filter c l1 ++ filter c l2.
Proof.
  induction l1 as [|a1 r1 IH1]; intros l2 S1.
  - destruct l2; reflexivity.
  - induction l2 as [|a2 r2 IH2].
    + cbn [Qsort.merge]. rewrite app_nil_r. reflexivity.
    + cbn [Qsort.merge]. destruct (cmp a1 a2 <=? 0) eqn:E.
      * cbn [filter]. rewrite IH1 by (apply Sorted_inv in S1; tauto).
        destruct (c a1); reflexivity.
      * apply Z.leb_gt in E.
        change (filter c (a2 :: Qsort.merge cmp (a1 :: r1) r2)
                = filter c (a1 :: r1) ++ filter c (a2 :: r2)).
        destruct (c a2) eqn:C2.
        -- assert (N : forall x, In x (a1 :: r1) -> c x = false).
           { intros x I. destruct (c x) eqn:Cx; [|reflexivity]. exfalso.
             apply (class_block a1 x a2 Cx C2); [|exact E].
             destruct I as [<-|I]; [apply R_refl|].
             apply (sorted_head_dominates a1 r1 S1 x I). }
           assert (F : filter c (a1 :: r1) = []).
           { clear - N. induction (a1 :: r1) as [|y r IH]; [reflexivity|].
             cbn [filter]. rewrite (N y (or_introl eq_refl)).
             apply IH. intros x I. apply N. right. exact I. }
           rewrite F in *. cbn [filter app]. rewrite C2, IH2. reflexivity.
        -- cbn [filter] in *. rewrite C2, IH2. reflexivity.
Qed.

Lemma msort_class (d : nat) : forall l,
  (List.length l <= d)%nat -> filter c (Qsort.msort cmp d l) = filter c l.
Proof.
  induction d as [|d IH]; intros l H; cbn [Qsort.msort]; [reflexivity|].
  destruct (Nat.leb (List.length l) 1) eqn:E; [reflexivity|].
  apply Nat.leb_gt in E.
  assert (D : (List.length l / 2 < List.length l)%nat)
    by (apply Nat.div_lt; lia).
  assert (D0 : (0 < List.length l / 2)%nat)
    by (apply Nat.div_str_pos; lia).
  cbv zeta. rewrite merge_class.
  - rewrite !IH by (rewrite ?length_firstn, ?length_skipn; lia).
    rewrite <- filter_app. rewrite firstn_skipn. reflexivity.
  - apply (msort_sorted cmp R cmp_le cmp_gt). rewrite length_firstn. lia.
Qed.

Lemma qsort_r_class (l : list A) : filter c (Qsort.qsort_r cmp l) = filter c l.
Proof. apply msort_class. apply Nat.le_refl. Qed.

End Stability.

(** The sort leaves the entries tied with a given one in the order they
    had. *)
Lemma qsort_r_tied (mode : SortMode) (p : ProcessInfo) (l : list ProcessInfo) :
  filter (tied p) (Qsort.qsort_r (compare_procs mode) l) = filter (tied p) l.
Proof.
  apply (qsort_r_class (compare_procs mode) (sorted_pair mode) (tied p)).
  - apply compare_procs_le.
  - apply compare_procs_gt.
  - apply sorted_pair_refl.
  - apply sorted_pair_trans.
  - intros a x y Cx Cy Rax G.
    apply tied_spec in Cx, Cy. destruct Cx as [X1 X2], Cy as [Y1 Y2].
    apply (compare_procs_strict mode a y G).
    destruct mode; simpl in *; destruct Rax as [U V]; split; try lra; try lia.
    + intros E. assert (E' : (cpu_percent a == cpu_percent x)%Q) by lra.
      specialize (V E'). lia.
    + intros E. assert (E' : mem_bytes a = mem_bytes x) by lia.
      specialize (V E'). lra.
Qed.

(** ** The sampler *)

Lemma read_network_keeps (s : Sampler) f el :
  let s' := fst (read_network s f el) in
  prev_cpu s' = prev_cpu s /\ prev_ticks s' = prev_ticks s /\
  page_size s' = page_size s /\ last_sample s' = last_sample s /\
  v3d_stats s' = v3d_stats s.
Proof. destruct f; simpl; auto. Qed.

Lemma read_gpu_keeps (st : Gpu.statics) (s : Sampler) mem e :
  let s' := snd (fst (fst (Gpu.read_gpu st s mem e))) in
  prev_cpu s' = prev_cpu s /\ prev_ticks s' = prev_ticks s /\
  page_size s' = page_size s /\ last_sample s' = last_sample s /\
  prev_net s' = prev_net s.
Proof.
  unfold Gpu.read_gpu. destruct (Gpu.cache_fresh st e); simpl; auto.
  destruct (Gpu.probe (v3d_stats s) mem e) as [[tbl g] log]. simpl. auto.
Qed.

Lemma proc_entry_ext (s s' : Sampler) td flt d :
  prev_ticks s' = prev_ticks s -> page_size s' = page_size s ->
  proc_entry s' td flt d = proc_entry s td flt d.
Proof. intros E1 E2. unfold proc_entry. rewrite E1, E2. reflexivity. Qed.

Lemma proc_loop_ext (s s' : Sampler) td flt ds :
  prev_ticks s' = prev_ticks s -> page_size s' = page_size s ->
  proc_loop s' td flt ds = proc_loop s td flt ds.
Proof.
  intros E1 E2. induction ds as [|d r IH]; simpl; [reflexivity|].
  rewrite IH, (proc_entry_ext s s') by assumption. reflexivity.
Qed.

(** What [sample] stores when [/proc] opens. *)
Lemma sample_opened s gst e srt flt o ds :
  proc_dir e = Some ds ->
  let td := total_delta (prev_cpu s) (read_cpu_times (stat_cpu e)) in
  let r := sample s gst e srt flt o in
  out_procs (snd r) =
    PLive (Qsort.qsort_r (compare_procs srt) (snd (proc_loop s td flt ds))) /\
  out_count (snd r) = Z.of_nat (List.length (snd (proc_loop s td flt ds))) /\
  prev_ticks (fst (fst r)) = fst (proc_loop s td flt ds) /\
  prev_cpu (fst (fst r)) = read_cpu_times (stat_cpu e).
Proof.
  intros D td r. subst r. unfold sample. rewrite D. cbv zeta.
  set (s1 := mkSampler _ _ _ (sys_now e) _ _).
  destruct (read_network s1 (net_dev e) _) as [s2 net] eqn:N.
  destruct (Gpu.read_gpu gst s2 _ _) as [[[gst' s3] gpu] log] eqn:G.
  pose proof (read_network_keeps s1 (net_dev e)
                (elapsed_since (sys_now e) (last_sample s))) as K1.
  rewrite N in K1. simpl in K1. destruct K1 as (_ & K1 & K1' & _).
  pose proof (read_gpu_keeps gst s2 (read_memory (meminfo e)) (gpu_env e)) as K2.
  rewrite G in K2. simpl in K2. destruct K2 as (_ & K2 & K2' & _).
  assert (L : proc_loop s3 (total_delta (prev_cpu s1) (read_cpu_times (stat_cpu e))) flt ds
              = proc_loop s td flt ds).
  { apply proc_loop_ext; [rewrite K2, K1|rewrite K2', K1']; reflexivity. }
  rewrite L. destruct (proc_loop s td flt ds) as [ts ps]. simpl.
  rewrite qsort_r_length. auto.
Qed.

(** What [sample] leaves alone when [/proc] does not open. *)
Lemma sample_not_opened s gst e srt flt o :
  proc_dir e = None ->
  let r := sample s gst e srt flt o in
  out_procs (snd r) = out_procs o /\ out_count (snd r) = out_count o /\
  prev_ticks (fst (fst r)) = prev_ticks s /\ prev_cpu (fst (fst r)) = prev_cpu s.
Proof.
  intros D r. subst r. unfold sample. rewrite D. cbv zeta.
  set (s1 := mkSampler _ _ _ (sys_now e) _ _).
  destruct (read_network s1 (net_dev e) _) as [s2 net] eqn:N.
  destruct (Gpu.read_gpu gst s2 _ _) as [[[gst' s3] gpu] log] eqn:G.
  pose proof (read_network_keeps s1 (net_dev e)
                (elapsed_since (sys_now e) (last_sample s))) as K1.
  rewrite N in K1. simpl in K1. destruct K1 as (K0 & K1 & _).
  pose proof (read_gpu_keeps gst s2 (read_memory (meminfo e)) (gpu_env e)) as K2.
  rewrite G in K2. simpl in K2. destruct K2 as (K3 & K2 & _).
  simpl. rewrite K2, K1, K3, K0. auto.
Qed.

(** Every process of the list comes from one iteration of the loop, which
    also appended its ticks to the new table. *)
Lemma proc_loop_In s td flt ds p :
  In p (snd (proc_loop s td flt ds)) ->
  exists d t, In d ds /\ proc_entry s td flt d = Some (t, p) /\
              In t (fst (proc_loop s td flt ds)).
Proof.
  induction ds as [|d r IH]; simpl; [contradiction|].
  destruct (proc_loop s td flt r) as [ts ps] eqn:L. simpl in IH.
  destruct (proc_entry s td flt d) as [[t q]|] eqn:E; simpl.
  - intros [H|H].
    + subst q. exists d, t. auto.
    + destruct (IH H) as (d' & t' & I & E' & I'). exists d', t'. auto.
  - intros H. destruct (IH H) as (d' & t' & I & E' & I'). exists d', t'. auto.
Qed.

Lemma proc_entry_cpu s td flt d t p :
  proc_entry s td flt d = Some (t, p) ->
  pt_pid t = pid p /\ U64.in_range (ticks t) /\
  cpu_percent p = proc_cpu td (prev_ticks s) (pid p) (ticks t).
Proof.
  unfold proc_entry.
  destruct (String.get 0 (pd_name d)); [|discriminate].
  destruct (negb (CStr.isdigit a)); [discriminate|].
  destruct (pd_stat d) as [st|]; [|discriminate].
  destruct (st_comm st) as [nm|]; [|discriminate].
  destruct (negb (filter_accepts flt nm _)); [discriminate|].
  destruct (st_scan st) as [[[[ut stm] thr] rss]|]; [|discriminate].
  intros H. injection H as <- <-. simpl.
  split; [reflexivity|]. split; [apply wrap_range|reflexivity].
Qed.

(** What the loop records for an entry of [/proc] it accepts: the pid
    is [atoi] of the entry's name, the ticks are [utime + stime] of its
    [stat] file, and the record holds the name between the parentheses,
    the percent computed from these ticks, [rss] pages in bytes and the
    thread count. *)
Lemma proc_entry_fields s td flt d t p :
  proc_entry s td flt d = Some (t, p) ->
  exists st utime stime thr rss,
    pd_stat d = Some st /\ st_comm st = Some (name p) /\
    st_scan st = Some (utime, stime, thr, rss) /\
    pid p = CStr.atoi (pd_name d) /\
    filter_accepts flt (name p) (pid p) = true /\
    t = mkPidTicks (U64.add utime stime) (pid p) /\
    cpu_percent p = proc_cpu td (prev_ticks s) (pid p) (U64.add utime stime) /\
    mem_bytes p = U64.mul (U64.wrap rss) (page_size s) /\
    threads p = thr.
Proof.
  unfold proc_entry.
  destruct (String.get 0 (pd_name d)); [|discriminate].
  destruct (negb (CStr.isdigit a)); [discriminate|].
  destruct (pd_stat d) as [st|] eqn:Es; [|discriminate].
  destruct (st_comm st) as [nm|] eqn:En; [|discriminate].
  destruct (filter_accepts flt nm _) eqn:F; [|discriminate]. cbn [negb].
  destruct (st_scan st) as [[[[ut stm] thr] rss]|] eqn:Ec; [|discriminate].
  intros H. injection H as <- <-. cbn [name pid cpu_percent mem_bytes threads].
  exists st, ut, stm, thr, rss. repeat split; auto.
Qed.

(** A process [sample] lists comes from an entry of [/proc], and its
    ticks are in the new table. *)
Lemma sample_listed_entry s gst e srt flt o ds p :
  proc_dir e = Some ds ->
  In p (listed (snd (sample s gst e srt flt o))) ->
  exists d st utime stime thr rss,
    In d ds /\ pd_stat d = Some st /\ st_comm st = Some (name p) /\
    st_scan st = Some (utime, stime, thr, rss) /\
    pid p = CStr.atoi (pd_name d) /\
    In (mkPidTicks (U64.add utime stime) (pid p))
       (prev_ticks (fst (fst (sample s gst e srt flt o)))) /\
    cpu_percent p
    = proc_cpu (total_delta (prev_cpu s) (read_cpu_times (stat_cpu e)))
               (prev_ticks s) (pid p) (U64.add utime stime) /\
    mem_bytes p = U64.mul (U64.wrap rss) (page_size s) /\
    threads p = thr.
Proof.
  intros D I.
  destruct (sample_opened s gst e srt flt o ds D) as (P & _ & T & _).
  unfold listed in I. rewrite P in I.
  apply (Permutation_in _ (qsort_r_perm _ _)) in I.
  destruct (proc_loop_In _ _ _ _ _ I) as (d & t & Id & E & It).
  destruct (proc_entry_fields _ _ _ _ _ _ E)
    as (st & ut & stm & thr & rss & A & B & C & Dp & _ & Et & Ec & Em & Eth).
  exists d, st, ut, stm, thr, rss. rewrite T, <- Et. auto 10.
Qed.

(* ------------------------------------------------------------------ *)
(** ** Network snapshot *)

Lemma net_rate_nonneg (cur prev : Z) (elapsed : double) :
  (0 < elapsed)%Q -> (0 <= net_rate cur prev elapsed)%Q.
Proof.
  intros E. unfold net_rate, fdiv. apply rnd_nonneg.
  apply Qle_shift_div_l; [exact E|]. rewrite Qmult_0_l.
  apply of_int_nonneg. destruct (prev <=? cur); [apply wrap_range|lia].
Qed.

Lemma net_rate_same (c : Z) (elapsed : double) : (net_rate c c elapsed == 0)%Q.
Proof.
  unfold net_rate, fdiv. rewrite Z.leb_refl. unfold U64.sub.
  rewrite Z.sub_diag. change (of_int (U64.wrap 0)) with 0%Q.
  apply rnd_of_zero. unfold Qdiv. ring.
Qed.

Lemma row_snapshot_first_sight prev elapsed r :
  find_prev_net prev (nr_iface r) = None ->
  (rx_rate (row_snapshot prev elapsed r) == 0 /\
   tx_rate (row_snapshot prev elapsed r) == 0)%Q.
Proof.
  intros N. unfold row_snapshot. rewrite N. simpl. split; apply net_rate_same.
Qed.

Lemma row_snapshot_nonneg prev elapsed r :
  (0 < elapsed)%Q ->
  (0 <= rx_rate (row_snapshot prev elapsed r) /\
   0 <= tx_rate (row_snapshot prev elapsed r))%Q.
Proof. intros E. split; apply net_rate_nonneg; exact E. Qed.

Lemma row_total_nonneg (r : NetRow) : 0 <= row_total r.
Proof. unfold row_total, U64.add. pose proof (wrap_range (nr_rx r + nr_tx r)) as W.
  unfold U64.in_range in W. lia. Qed.

Lemma net_line_inv prev elapsed seen a line :
  net_inv prev elapsed seen a ->
  net_inv prev elapsed (fun r => seen r \/ line = Some r)
          (net_line prev elapsed a line).
Proof.
  intros (I1 & I2 & I3). unfold net_line.
  destruct line as [r|].
  2:{ split; [exact I1|]. split.
      - intros r [S|S]; [apply I2, S|discriminate].
      - destruct I3 as [Z|(r & S & N & P & T & B)]; [left; exact Z|].
        right. exists r. auto 10. }
  destruct (String.eqb (nr_iface r) "lo") eqn:L.
  { apply String.eqb_eq in L. split; [exact I1|]. split.
    - intros r' [S|S] N; [apply I2; assumption|].
      injection S as <-. contradiction.
    - destruct I3 as [Z|(r' & S & N & P & T & B)]; [left; exact Z|].
      right. exists r'. auto 10. }
  apply String.eqb_neq in L.
  assert (C : forall n, In n (cur_net a ++ [mkNetStats (nr_iface r) (nr_rx r) (nr_tx r)]) ->
                        ns_iface n <> "lo"%string).
  { intros n H. apply in_app_or in H as [H|[H|[]]]; [apply I1, H|subst n; exact L]. }
  destruct (best_total a <? row_total r) eqn:B.
  - apply Z.ltb_lt in B. split; [exact C|]. split.
    + simpl. intros r' [S|S] N.
      * specialize (I2 r' S N). lia.
      * injection S as <-. lia.
    + right. exists r. simpl.
      assert (0 <= best_total a).
      { destruct I3 as [[Z _]|(r' & _ & _ & P & T & _)]; lia. }
      repeat split; auto; lia.
  - apply Z.ltb_ge in B. split; [exact C|]. split.
    + simpl. intros r' [S|S] N.
      * apply I2; assumption.
      * injection S as <-. exact B.
    + simpl. destruct I3 as [Z|(r' & S & N & P & T & E)]; [left; exact Z|].
      right. exists r'. auto 10.
Qed.

Lemma net_inv_weaken prev elapsed (seen seen' : NetRow -> Prop) a :
  (forall r, seen r <-> seen' r) ->
  net_inv prev elapsed seen a -> net_inv prev elapsed seen' a.
Proof.
  intros E (I1 & I2 & I3). split; [exact I1|]. split.
  - intros r S. apply I2, E, S.
  - destruct I3 as [Z|(r & S & R)]; [left; exact Z|].
    right. exists r. split; [apply E, S|exact R].
Qed.

Lemma net_loop_inv prev elapsed lines : forall seen a,
  net_inv prev elapsed seen a ->
  net_inv prev elapsed (fun r => seen r \/ In (Some r) lines)
          (fold_left (net_line prev elapsed) lines a).
Proof.
  induction lines as [|l rest IH]; intros seen a I; simpl.
  - apply (net_inv_weaken _ _ seen); [|exact I]. intros r. tauto.
  - apply (net_inv_weaken _ _ (fun r => (seen r \/ l = Some r) \/ In (Some r) rest)).
    + intros r. tauto.
    + apply IH, net_line_inv, I.
Qed.

(** The state of the loop after all lines. *)
Lemma read_network_inv (s : Sampler) (lines : list (option NetRow)) (elapsed : double) :
  let r := read_network s (Some lines) elapsed in
  exists a, prev_net (fst r) = cur_net a /\ snd r = best a /\
            net_inv (prev_net s) elapsed (fun row => In (Some row) lines) a.
Proof.
  simpl. eexists. split; [reflexivity|]. split; [reflexivity|].
  assert (I0 : net_inv (prev_net s) elapsed (fun _ => False) (mkNetAcc [] 0 default_net)).
  { split; [intros n []|]. split; [intros r []|]. left. split; reflexivity. }
  apply (net_inv_weaken _ _ (fun r => False \/ In (Some r) lines)); [intros r; tauto|].
  apply net_loop_inv, I0.
Qed.

Lemma read_network_rates_nonneg (s : Sampler) f (elapsed : double) :
  (0 < elapsed)%Q ->
  (0 <= rx_rate (snd (read_network s f elapsed)) /\
   0 <= tx_rate (snd (read_network s f elapsed)))%Q.
Proof.
  intros E. destruct f as [lines|]; [|simpl; split; discriminate].
  destruct (read_network_inv s lines elapsed) as (a & _ & B & _ & _ & I3).
  rewrite B. destruct I3 as [[_ D]|(w & _ & _ & _ & _ & D)]; rewrite D.
  - split; discriminate.
  - apply row_snapshot_nonneg, E.
Qed.

(** The elapsed time [sample] passes is at least the rounded 0.001. *)
Lemma elapsed_since_pos (now last : timeval) : (0 < elapsed_since now last)%Q.
Proof.
  unfold elapsed_since. cbv zeta.
  assert (P : (0 < d_0_001)%Q) by (vm_compute; reflexivity).
  match goal with |- context [fltb ?e d_0_001] => destruct (fltb e d_0_001) eqn:L end.
  - exact P.
  - apply fltb_false in L. lra.
Qed.

(** So the rates of the snapshot [sample] stores are never negative. *)
Lemma sample_net_rates_nonneg s gst e srt flt o :
  let o' := snd (sample s gst e srt flt o) in
  (0 <= rx_rate (out_net o') /\ 0 <= tx_rate (out_net o'))%Q.
Proof.
  unfold sample. cbv zeta.
  set (s1 := mkSampler _ _ _ (sys_now e) _ _).
  set (el := elapsed_since (sys_now e) (last_sample s)).
  assert (N : (0 <= rx_rate (snd (read_network s1 (net_dev e) el)) /\
               0 <= tx_rate (snd (read_network s1 (net_dev e) el)))%Q).
  { apply read_network_rates_nonneg, elapsed_since_pos. }
  destruct (read_network s1 (net_dev e) el) as [s2 net].
  destruct (Gpu.read_gpu gst s2 _ _) as [[[gst' s3] gpu] log].
  destruct (proc_dir e) as [ds|].
  - destruct (proc_loop _ _ _ _). exact N.
  - exact N.
Qed.

(* ------------------------------------------------------------------ *)
(** ** The V3D queue table *)

Section V3dTable.
Import Gpu.

Lemma v3d_find_Some (tbl : list V3dStats) (q : string) : forall i,
  v3d_find tbl q = Some i ->
  (i < List.length tbl)%nat /\ queue (nth i tbl v3d_dflt) = q.
Proof.
  induction tbl as [|e r IH]; simpl; intros i H; [discriminate|].
  destruct (String.eqb (queue e) q) eqn:E.
  - injection H as <-. apply String.eqb_eq in E. split; [lia|exact E].
  - destruct (v3d_find r q) as [j|]; [|discriminate].
    injection H as <-. destruct (IH j eq_refl). split; [lia|assumption].
Qed.

Lemma v3d_set_length (tbl : list V3dStats) e : forall i,
  List.length (v3d_set tbl i e) = List.length tbl.
Proof.
  induction tbl as [|x r IH]; intros [|i]; simpl; auto.
Qed.

Lemma v3d_set_nth (tbl : list V3dStats) e : forall i,
  (i < List.length tbl)%nat -> nth i (v3d_set tbl i e) v3d_dflt = e.
Proof.
  induction tbl as [|x r IH]; intros [|i]; simpl; intros H; try lia; auto.
  apply IH. lia.
Qed.

Lemma v3d_set_nth_other (tbl : list V3dStats) e : forall i j,
  i <> j -> nth j (v3d_set tbl i e) v3d_dflt = nth j tbl v3d_dflt.
Proof.
  induction tbl as [|x r IH]; intros [|i] [|j] H; simpl; auto; try lia.
Qed.

(** Replacing a slot by one of the same queue changes no search. *)
Lemma v3d_find_set (tbl : list V3dStats) e q : forall i,
  queue e = queue (nth i tbl v3d_dflt) -> (i < List.length tbl)%nat ->
  v3d_find (v3d_set tbl i e) q = v3d_find tbl q.
Proof.
  induction tbl as [|x r IH]; intros [|i]; simpl; intros Q L; try lia.
  - rewrite Q. reflexivity.
  - rewrite IH by (assumption || lia). reflexivity.
Qed.

Lemma v3d_find_app_other (tbl : list V3dStats) e q :
  queue e <> q -> v3d_find (tbl ++ [e]) q = v3d_find tbl q.
Proof.
  intros N. induction tbl as [|x r IH]; simpl.
  - apply String.eqb_neq in N. rewrite N. reflexivity.
  - rewrite IH. reflexivity.
Qed.

Lemma v3d_find_app_new (tbl : list V3dStats) e :
  v3d_find tbl (queue e) = None ->
  v3d_find (tbl ++ [e]) (queue e) = Some (List.length tbl).
Proof.
  induction tbl as [|x r IH]; simpl.
  - rewrite String.eqb_refl. reflexivity.
  - destruct (String.eqb (queue x) (queue e)); [discriminate|].
    destruct (v3d_find r (queue e)); [discriminate|].
    intros _. rewrite IH by reflexivity. reflexivity.
Qed.

Lemma v3d_find_app_old (tbl : list V3dStats) e q i :
  v3d_find tbl q = Some i -> v3d_find (tbl ++ [e]) q = Some i.
Proof.
  revert i. induction tbl as [|x r IH]; simpl; intros i H; [discriminate|].
  destruct (String.eqb (queue x) q); [exact H|].
  destruct (v3d_find r q) as [j|]; [|discriminate].
  rewrite (IH j eq_refl). exact H.
Qed.

(** The table after a line does not depend on the snapshot. *)
Lemma v3d_line_table tbl g g' line :
  fst (v3d_line (tbl, g) line) = fst (v3d_line (tbl, g') line).
Proof.
  unfold v3d_line. destruct line as [r|]; [|reflexivity].
  destruct (v3d_find tbl (vr_queue r)); [reflexivity|].
  destruct (Nat.ltb _ _); reflexivity.
Qed.

Lemma v3d_line_length tbl g line :
  (List.length tbl <= 16)%nat ->
  (List.length (fst (v3d_line (tbl, g) line)) <= 16)%nat.
Proof.
  intros H. unfold v3d_line. destruct line as [r|]; [|exact H].
  destruct (v3d_find tbl (vr_queue r)).
  - simpl. rewrite v3d_set_length. exact H.
  - destruct (Nat.ltb (List.length tbl) 16) eqn:E; simpl; [|exact H].
    apply Nat.ltb_lt in E. rewrite length_app. simpl. lia.
Qed.

Lemma v3d_file_cons tbl g l rest :
  v3d_file tbl g (l :: rest) =
  v3d_file (fst (v3d_line (tbl, g) l)) (snd (v3d_line (tbl, g) l)) rest.
Proof.
  unfold v3d_file. cbn [fold_left]. destruct (v3d_line (tbl, g) l); reflexivity.
Qed.

Lemma v3d_utils_cons tbl l rest :
  v3d_utils tbl (l :: rest) =
  match line_util tbl l with Some u => [u] | None => [] end
  ++ v3d_utils (fst (v3d_line (tbl, blank) l)) rest.
Proof. reflexivity. Qed.

Lemma v3d_file_length lines : forall tbl g,
  (List.length tbl <= 16)%nat ->
  (List.length (fst (v3d_file tbl g lines)) <= 16)%nat.
Proof.
  induction lines as [|l r IH]; intros tbl g H; [exact H|].
  rewrite v3d_file_cons. apply IH, v3d_line_length, H.
Qed.

(** The snapshot after a line: the utilization the line yields, if any,
    replaces the usage when it is greater. *)
Lemma v3d_line_usage tbl g line :
  snd (v3d_line (tbl, g) line) =
  match line_util tbl line with
  | Some u => set_has_usage (if fgtb u (usage g) then set_usage g u else g) true
  | None => g
  end.
Proof.
  unfold v3d_line, line_util. destruct line as [r|]; [|reflexivity].
  destruct (v3d_find tbl (vr_queue r)) as [i|].
  - cbv zeta. destruct (last_ts (nth i tbl v3d_dflt) <? vr_ts r); reflexivity.
  - destruct (Nat.ltb _ _); reflexivity.
Qed.

(** A line retains its readings when its queue is in the table or the
    table has room, and leaves the other queues alone. *)
Lemma v3d_line_retains tbl g r :
  (v3d_find tbl (vr_queue r) <> None \/ (List.length tbl < 16)%nat) ->
  retained (fst (v3d_line (tbl, g) (Some r))) (vr_queue r) = Some (vr_ts r, vr_rt r).
Proof.
  intros H. unfold v3d_line, retained.
  destruct (v3d_find tbl (vr_queue r)) as [i|] eqn:F.
  - destruct (v3d_find_Some _ _ _ F) as [L Q]. simpl.
    rewrite v3d_find_set by (simpl; auto). rewrite F.
    rewrite v3d_set_nth by exact L. reflexivity.
  - destruct H as [H|H]; [congruence|].
    apply Nat.ltb_lt in H. rewrite H. simpl.
    pose proof (v3d_find_app_new tbl (mkV3dStats (vr_queue r) (vr_ts r) (vr_rt r)) F) as A.
    cbn [queue] in A. rewrite A.
    rewrite app_nth2, Nat.sub_diag by lia. reflexivity.
Qed.

Lemma v3d_line_keeps tbl g line q :
  (forall r, line = Some r -> vr_queue r <> q) ->
  retained (fst (v3d_line (tbl, g) line)) q = retained tbl q.
Proof.
  intros N. unfold v3d_line, retained.
  destruct line as [r|]; [|reflexivity]. specialize (N r eq_refl).
  destruct (v3d_find tbl (vr_queue r)) as [i|] eqn:F.
  - destruct (v3d_find_Some _ _ _ F) as [L Q]. simpl.
    rewrite v3d_find_set by (simpl; auto).
    destruct (v3d_find tbl q) as [j|] eqn:Fq; [|reflexivity].
    destruct (v3d_find_Some _ _ _ Fq) as [Lj Qj].
    rewrite v3d_set_nth_other; [reflexivity|]. intros E. subst j. congruence.
  - destruct (Nat.ltb (List.length tbl) 16); [|reflexivity]. simpl.
    rewrite v3d_find_app_other by (simpl; exact N).
    destruct (v3d_find tbl q) as [j|] eqn:Fq; [|reflexivity].
    destruct (v3d_find_Some _ _ _ Fq) as [Lj Qj].
    rewrite app_nth1 by exact Lj. reflexivity.
Qed.

Lemma v3d_file_keeps lines q : forall tbl g,
  (forall r, In (Some r) lines -> vr_queue r <> q) ->
  retained (fst (v3d_file tbl g lines)) q = retained tbl q.
Proof.
  induction lines as [|l rest IH]; intros tbl g N; [reflexivity|].
  rewrite v3d_file_cons.
  rewrite IH by (intros r I; apply N; right; exact I).
  apply v3d_line_keeps. intros r ->. apply N. left. reflexivity.
Qed.

Lemma v3d_file_app tbl g l1 l2 :
  v3d_file tbl g (l1 ++ l2) =
  v3d_file (fst (v3d_file tbl g l1)) (snd (v3d_file tbl g l1)) l2.
Proof.
  unfold v3d_file. rewrite fold_left_app.
  destruct (fold_left v3d_line l1 (tbl, g)); reflexivity.
Qed.

Lemma v3d_utils_app l1 l2 : forall tbl g,
  v3d_utils tbl (l1 ++ l2) =
  v3d_utils tbl l1 ++ v3d_utils (fst (v3d_file tbl g l1)) l2.
Proof.
  induction l1 as [|l r IH]; intros tbl g; [reflexivity|].
  rewrite <- app_comm_cons, !v3d_utils_cons, v3d_file_cons, <- app_assoc. f_equal.
  rewrite (v3d_line_table tbl blank g l). apply IH.
Qed.

(** A utilization is not negative (its operands are [unsigned]). *)
Lemma v3d_util_nonneg old ts rt : (0 <= v3d_util old ts rt)%Q.
Proof.
  unfold v3d_util, fdiv, fmul.
  pose proof (wrap_range (rt - last_rt old)) as [R _].
  pose proof (wrap_range (ts - last_ts old)) as [T _].
  assert (A : (0 <= of_int (U64.sub rt (last_rt old)))%Q) by (apply of_int_nonneg; exact R).
  assert (B : (0 <= of_int (U64.sub ts (last_ts old)))%Q) by (apply of_int_nonneg; exact T).
  apply rnd_nonneg.
  assert (M : (0 <= rnd (of_int (U64.sub rt (last_rt old)) * 100))%Q).
  { apply rnd_nonneg. apply Qmult_le_0_compat; [exact A|discriminate]. }
  unfold Qdiv. apply Qmult_le_0_compat; [exact M|]. apply Qinv_le_0_compat, B.
Qed.

Lemma line_util_nonneg tbl line u : line_util tbl line = Some u -> (0 <= u)%Q.
Proof.
  unfold line_util. destruct line as [r|]; [|discriminate].
  destruct (v3d_find tbl (vr_queue r)); [|discriminate]. cbv zeta.
  destruct (_ <? _); [|discriminate]. intros H. injection H as <-.
  apply v3d_util_nonneg.
Qed.

Lemma v3d_utils_nonneg lines : forall tbl u,
  In u (v3d_utils tbl lines) -> (0 <= u)%Q.
Proof.
  induction lines as [|l r IH]; intros tbl u; [contradiction|].
  rewrite v3d_utils_cons. intros H. apply in_app_or in H as [H|H].
  - destruct (line_util tbl l) as [v|] eqn:E; [|contradiction].
    destruct H as [<-|[]]. apply (line_util_nonneg _ _ _ E).
  - apply (IH _ _ H).
Qed.

(** After a file, the usage is the greatest of the usage before it and of
    the utilizations of its lines. *)
Lemma v3d_file_max lines : forall tbl g,
  let fin := snd (v3d_file tbl g lines) in
  (usage g <= usage fin)%Q /\
  (forall u, In u (v3d_utils tbl lines) -> (u <= usage fin)%Q) /\
  (usage fin = usage g \/ In (usage fin) (v3d_utils tbl lines)) /\
  has_usage fin = has_usage g || negb (Nat.eqb (List.length (v3d_utils tbl lines)) 0).
Proof.
  induction lines as [|l r IH]; intros tbl g.
  - simpl. repeat split; auto; try lra; try contradiction.
    rewrite orb_false_r. reflexivity.
  - cbv zeta. rewrite v3d_file_cons, v3d_utils_cons.
    pose proof (v3d_line_usage tbl g l) as U.
    rewrite (v3d_line_table tbl blank g l).
    set (tbl' := fst (v3d_line (tbl, g) l)) in *.
    set (g' := snd (v3d_line (tbl, g) l)) in *.
    destruct (IH tbl' g') as (M1 & M2 & M3 & M4).
    set (fin := snd (v3d_file tbl' g' r)) in *.
    destruct (line_util tbl l) as [u|] eqn:L.
    + assert (G : ((usage g <= usage g') /\ (u <= usage g'))%Q /\
                  (usage g' = usage g \/ usage g' = u) /\ has_usage g' = true).
      { rewrite U. destruct (fgtb u (usage g)) eqn:C; simpl.
        - apply fgtb_true in C. repeat split; auto; lra.
        - apply fgtb_false in C. repeat split; auto; lra. }
      destruct G as ((G1 & G2) & G3 & G4).
      split; [lra|]. split; [|split].
      * intros v [<-|I]; [lra|apply M2, I].
      * destruct M3 as [M3|M3]; [|right; right; exact M3].
        rewrite M3. destruct G3 as [G3|G3]; rewrite G3; [left|right; left]; reflexivity.
      * rewrite M4, G4. simpl. rewrite orb_true_r. reflexivity.
    + rewrite U in *. simpl. repeat split; auto.
Qed.

End V3dTable.

Section V3dInProbe.
Import Gpu.

(** The steps of a card after the usage files and [gpu_stats] leave the
    usage alone. *)
Lemma card_tail_usage mem e c g :
  let g' := card_cma (card_vram (card_temp (card_name g c) e c) c) mem in
  usage g' = usage g /\ has_usage g' = has_usage g.
Proof.
  cbv zeta.
  assert (N : usage (card_name g c) = usage g /\ has_usage (card_name g c) = has_usage g).
  { unfold card_name. destruct (vendor c) as [[v|]|].
    - repeat (match goal with |- context [if ?b then _ else _] => destruct b end);
        split; reflexivity.
    - split; reflexivity.
    - destruct (uevent c); [|split; reflexivity].
      destruct (existsb _ _); split; reflexivity. }
  set (g1 := card_name g c) in *.
  assert (H : forall x es, usage (hwmon_temp x es) = usage x /\
                           has_usage (hwmon_temp x es) = has_usage x).
  { intros x es. induction es as [|h r IH]; simpl; [split; reflexivity|].
    destruct (CStr.starts_with _ _); [|exact IH].
    destruct (hw_temp1 h) as [[t|]|]; [split; reflexivity|split; reflexivity|exact IH]. }
  assert (Th : forall x, usage (thermal_temp x e) = usage x /\
                         has_usage (thermal_temp x e) = has_usage x).
  { intros x. unfold thermal_temp. destruct (thermal_zone0 e); split; reflexivity. }
  assert (T : usage (card_temp g1 e c) = usage g1 /\
              has_usage (card_temp g1 e c) = has_usage g1).
  { unfold card_temp. cbv zeta.
    destruct (hwmon c) as [es|].
    - destruct (has_temp (hwmon_temp g1 es)); [apply H|].
      destruct (Th (hwmon_temp g1 es)) as [A B]. destruct (H g1 es) as [A' B'].
      split; congruence.
    - destruct (has_temp g1); [split; reflexivity|apply Th]. }
  set (g2 := card_temp g1 e c) in *.
  assert (V : usage (card_vram g2 c) = usage g2 /\
              has_usage (card_vram g2 c) = has_usage g2).
  { unfold card_vram. destruct (has_mem g2); [split; reflexivity|].
    destruct (vram_used c), (vram_size c); split; reflexivity. }
  set (g3 := card_vram g2 c) in *.
  assert (C : usage (card_cma g3 mem) = usage g3 /\
              has_usage (card_cma g3 mem) = has_usage g3).
  { unfold card_cma.
    repeat (match goal with |- context [if ?b then _ else _] => destruct b end);
      split; reflexivity. }
  destruct N, T, V, C. split; congruence.
Qed.

(** A card without a readable usage file reports what its [gpu_stats]
    lines give. *)
Lemma drm_card_v3d mem e tbl g c lines :
  card_usage g c = (g, false) -> card_stats_file c = Some lines ->
  let r := drm_card mem e tbl g c in
  fst r = fst (v3d_file tbl g lines) /\
  usage (snd r) = usage (snd (v3d_file tbl g lines)) /\
  has_usage (snd r) = has_usage (snd (v3d_file tbl g lines)).
Proof.
  intros U S. unfold drm_card. rewrite U, S.
  destruct (v3d_file tbl g lines) as [tbl2 g2]. simpl.
  split; [reflexivity|]. apply card_tail_usage.
Qed.

Lemma drm_card_length mem e tbl g c :
  (List.length tbl <= 16)%nat ->
  (List.length (fst (drm_card mem e tbl g c)) <= 16)%nat.
Proof.
  intros H. unfold drm_card. destruct (card_usage g c) as [g1 [|]].
  - exact H.
  - destruct (card_stats_file c) as [lines|]; [|exact H].
    pose proof (v3d_file_length lines tbl g1 H) as L.
    destruct (v3d_file tbl g1 lines). exact L.
Qed.

Lemma drm_loop_length mem e entries : forall tbl g,
  (List.length tbl <= 16)%nat ->
  (List.length (fst (fst (drm_loop mem e tbl g entries))) <= 16)%nat.
Proof.
  induction entries as [|c r IH]; intros tbl g H; simpl; [exact H|].
  destruct (is_card (d_name c)); [|apply IH, H].
  pose proof (drm_card_length mem e tbl g c H) as L.
  destruct (drm_card mem e tbl g c) as [tbl' g'].
  destruct (has_usage g'); [exact L|apply IH, L].
Qed.

Lemma probe_length tbl mem e :
  (List.length tbl <= 16)%nat ->
  (List.length (fst (fst (probe tbl mem e))) <= 16)%nat.
Proof.
  intros H. unfold probe. cbv zeta.
  destruct (has_usage _); [exact H|].
  assert (L : (List.length
                 (fst (fst match drm e with
                           | Some entries =>
                               drm_loop mem e tbl
                                 match nvidia_smi e with
                                 | Some ts => nv_tokens blank 0 ts
                                 | None => blank
                                 end entries
                           | None =>
                               (tbl,
                                match nvidia_smi e with
                                | Some ts => nv_tokens blank 0 ts
                                | None => blank
                                end, false)
                           end)) <= 16)%nat).
  { destruct (drm e); [apply drm_loop_length, H|exact H]. }
  destruct (match drm e with Some _ => _ | None => _ end) as [[tbl1 g1] ret].
  simpl in L. destruct ret; [exact L|].
  destruct (adreno g1 e); [exact L|]. destruct (devfreq g1 e); exact L.
Qed.

(** [read_gpu] never lets the table grow past its 16 slots. *)
Lemma read_gpu_length st s mem e :
  (List.length (v3d_stats s) <= 16)%nat ->
  (List.length (v3d_stats (snd (fst (fst (read_gpu st s mem e))))) <= 16)%nat.
Proof.
  intros H. unfold read_gpu. destruct (cache_fresh st e); [exact H|].
  pose proof (probe_length (v3d_stats s) mem e H) as L.
  destruct (probe (v3d_stats s) mem e) as [[tbl g] log]. exact L.
Qed.

End V3dInProbe.

(** Nor does [sample], which starts from an empty table. *)
Lemma sample_v3d_length s gst e srt flt o :
  (List.length (v3d_stats s) <= 16)%nat ->
  (List.length (v3d_stats (fst (fst (sample s gst e srt flt o)))) <= 16)%nat.
Proof.
  intros H. unfold sample. cbv zeta.
  set (s1 := mkSampler _ _ _ (sys_now e) _ _).
  pose proof (read_network_keeps s1 (net_dev e)
                (elapsed_since (sys_now e) (last_sample s))) as K1.
  destruct (read_network s1 (net_dev e) _) as [s2 net]. simpl in K1.
  destruct K1 as (_ & _ & _ & _ & K1).
  assert (H2 : (List.length (v3d_stats s2) <= 16)%nat) by (rewrite K1; exact H).
  pose proof (read_gpu_length gst s2 (read_memory (meminfo e)) (gpu_env e) H2) as L.
  destruct (Gpu.read_gpu gst s2 _ _) as [[[gst' s3] gpu] log]. simpl in L.
  destruct (proc_dir e); [|exact L].
  destruct (proc_loop _ _ _ _). exact L.
Qed.


Section ProbeEntry.
Import Gpu.

(** Whenever the cascade reaches a card, no usage has been stored yet:
    the NVIDIA step and every earlier card either set [has_usage] and
    returned, or left the usage at its initial 0. *)
Lemma nv_tokens_idle ts :
  has_usage (nv_tokens blank 0 ts) = false -> nv_tokens blank 0 ts = blank.
Proof.
  destruct ts as [|t r]; [reflexivity|]. simpl.
  assert (K : forall r g n, has_usage g = true -> has_usage (nv_tokens g n r) = true).
  { clear. induction r as [|t r IH]; intros g n H; simpl; [exact H|].
    apply IH. destruct n as [|[|[|[|n]]]]; simpl; auto. }
  intros H. rewrite K in H; [discriminate|reflexivity].
Qed.

Lemma drm_card_idle mem e tbl g c :
  has_usage g = false -> usage g = 0%Q ->
  has_usage (snd (drm_card mem e tbl g c)) = false ->
  usage (snd (drm_card mem e tbl g c)) = 0%Q.
Proof.
  intros H U. unfold drm_card, card_usage.
  destruct (first_some (firstn 4 (usage_files c))) as [v|].
  - destruct (card_tail_usage mem e c (set_has_usage (set_usage g v) true)) as [_ B].
    simpl. cbv zeta in B. rewrite B. discriminate.
  - destruct (card_stats_file c) as [lines|].
    + destruct (v3d_file_max lines tbl g) as (_ & _ & M3 & M4).
      destruct (v3d_file tbl g lines) as [tbl2 g2]. simpl in *.
      destruct (card_tail_usage mem e c g2) as [A B]. cbv zeta in A, B.
      rewrite A, B, M4, H. simpl. intros E. apply negb_false_iff in E.
      apply Nat.eqb_eq in E. apply length_zero_iff_nil in E. rewrite E in M3.
      destruct M3 as [M3|[]]. congruence.
    + simpl. destruct (card_tail_usage mem e c g) as [A B]. cbv zeta in A, B.
      rewrite A. intros _. exact U.
Qed.

End ProbeEntry.

(** A line whose timestamp is not past the retained one only stores its
    readings. *)
Lemma v3d_line_stale tbl g r i :
  Gpu.v3d_find tbl (Gpu.vr_queue r) = Some i ->
  Gpu.vr_ts r <= last_ts (nth i tbl Gpu.v3d_dflt) ->
  snd (Gpu.v3d_line (tbl, g) (Some r)) = g /\
  retained (fst (Gpu.v3d_line (tbl, g) (Some r))) (Gpu.vr_queue r)
    = Some (Gpu.vr_ts r, Gpu.vr_rt r).
Proof.
  intros F T. split.
  - rewrite v3d_line_usage. unfold line_util. rewrite F. cbv zeta.
    apply Z.ltb_ge in T. rewrite T. reflexivity.
  - apply v3d_line_retains. left. rewrite F. discriminate.
Qed.

(** A queue met when the 16 slots are taken is ignored. *)
Lemma v3d_line_full tbl g r :
  Gpu.v3d_find tbl (Gpu.vr_queue r) = None -> List.length tbl = 16%nat ->
  Gpu.v3d_line (tbl, g) (Some r) = (tbl, g).
Proof.
  intros F L. unfold Gpu.v3d_line. rewrite F, L. reflexivity.
Qed.

(** What [read_gpu] does with a V3D card. *)
Section V3dCard.
Import Gpu.

Lemma drm_loop_skips mem e (before : list DrmEntry) : forall rest tbl g,
  (forall b, In b before -> is_card (d_name b) = false) ->
  drm_loop mem e tbl g (before ++ rest) = drm_loop mem e tbl g rest.
Proof.
  induction before as [|b r IH]; intros rest tbl g N; [reflexivity|].
  cbn [app drm_loop]. rewrite (N b (or_introl eq_refl)).
  apply IH. intros x I. apply N. right. exact I.
Qed.

(** A card without a readable usage file hands its [gpu_stats] lines to
    the queue table. *)
Lemma drm_card_reads_stats mem e tbl g c lines :
  first_some (firstn 4 (usage_files c)) = None ->
  card_stats_file c = Some lines ->
  let r := drm_card mem e tbl g c in
  fst r = fst (v3d_file tbl g lines) /\
  usage (snd r) = usage (snd (v3d_file tbl g lines)) /\
  has_usage (snd r) = has_usage (snd (v3d_file tbl g lines)).
Proof.
  intros U S. apply drm_card_v3d; [|exact S].
  unfold card_usage. rewrite U. reflexivity.
Qed.

(** A probing call on a host whose first card is such a card and whose
    lines yield a utilization returns from that card. *)
Lemma read_gpu_v3d_card st s mem e before c after lines :
  cache_fresh st e = false ->
  nvidia_smi e = None \/ nvidia_smi e = Some [] ->
  drm e = Some (before ++ c :: after) ->
  (forall b, In b before -> is_card (d_name b) = false) ->
  is_card (d_name c) = true ->
  first_some (firstn 4 (usage_files c)) = None ->
  card_stats_file c = Some lines ->
  has_usage (snd (v3d_file (v3d_stats s) blank lines)) = true ->
  let '(st', s', gout, _) := read_gpu st s mem e in
  v3d_stats s' = fst (v3d_file (v3d_stats s) blank lines) /\
  has_usage gout = true /\
  usage gout = usage (snd (v3d_file (v3d_stats s) blank lines)) /\
  cached_gpu st' = gout.
Proof.
  intros F N D B C U S H. unfold read_gpu, probe. rewrite F. cbv zeta.
  assert (Nv : match nvidia_smi e with
               | Some ts => nv_tokens blank 0 ts
               | None => blank
               end = blank) by (destruct N as [-> | ->]; reflexivity).
  rewrite Nv. cbn [has_usage blank]. rewrite D.
  rewrite (drm_loop_skips mem e before (c :: after) (v3d_stats s) blank B).
  cbn [drm_loop]. rewrite C.
  destruct (drm_card_reads_stats mem e (v3d_stats s) blank c lines U S)
    as (E1 & E2 & E3).
  cbv zeta in E1, E2, E3.
  destruct (drm_card mem e (v3d_stats s) blank c) as [tbl' g'].
  cbn [fst snd] in E1, E2, E3. rewrite E3, H. cbn [with_v3d v3d_stats cached_gpu].
  rewrite <- E3 in H. auto.
Qed.

End V3dCard.

(* ------------------------------------------------------------------ *)
(** ** The GPU cache *)

Section GpuCache.
Import Gpu.

Lemma probe_log_nonempty tbl mem e : snd (probe tbl mem e) <> [].
Proof.
  unfold probe. cbv zeta. destruct (has_usage _); [discriminate|].
  destruct (match drm e with Some _ => _ | None => _ end) as [[tbl1 g1] ret].
  destruct ret; [discriminate|].
  destruct (adreno g1 e); [discriminate|]. destruct (devfreq g1 e); discriminate.
Qed.

(** A call served from the cache. *)
Lemma read_gpu_fresh st s mem e :
  cache_fresh st e = true -> read_gpu st s mem e = (st, s, cached_gpu st, []).
Proof. intros H. unfold read_gpu. rewrite H. reflexivity. Qed.

(** After any call the cache holds the snapshot the call returned, and
    the time stored is that of the last call that probed. *)
Lemma read_gpu_caches st s mem e :
  let '(st', _, g, log) := read_gpu st s mem e in
  cached_gpu st' = g /\
  (cache_fresh st e = true -> st' = st /\ log = []) /\
  (cache_fresh st e = false -> last_gpu_read st' = now e /\ log <> []).
Proof.
  unfold read_gpu. destruct (cache_fresh st e) eqn:F.
  - repeat split; auto; discriminate.
  - pose proof (probe_log_nonempty (v3d_stats s) mem e) as N.
    destruct (probe (v3d_stats s) mem e) as [[tbl g] log]. simpl in *.
    repeat split; auto; discriminate.
Qed.

(** Truncation makes [ms_diff] at most the microsecond difference
    divided by 1000 and rounded up. *)
Lemma ms_diff_bound (later earlier : timeval) :
  timeval_wf later -> timeval_wf earlier ->
  usec_between later earlier <= 799000 ->
  ms_diff later earlier < 800.
Proof.
  unfold timeval_wf, usec_between, ms_diff, c_div. intros L E B.
  set (ds := tv_sec later - tv_sec earlier) in *.
  set (du := tv_usec later - tv_usec earlier) in *.
  assert (R : -1000000 < du < 1000000) by (unfold du; lia).
  pose proof (Z.quot_rem du 1000 ltac:(lia)) as Q.
  pose proof (Z.rem_bound_abs du 1000 ltac:(lia)) as A.
  destruct (Z.le_gt_cases 0 du) as [P|N].
  - pose proof (Z.rem_nonneg du 1000 ltac:(lia) P). lia.
  - pose proof (Z.rem_nonpos du 1000 ltac:(lia) ltac:(lia)). lia.
Qed.

End GpuCache.

(* ------------------------------------------------------------------ *)
(** ** [human_bytes] *)

(** Converting to [double] does not move a byte count across a power of
    two that a [double] holds exactly. *)
Lemma fgeb_pow2 (k b : Z) : 0 <= k <= 52 -> 0 <= b ->
  fgeb (of_int b) (inject_Z (2 ^ k)) = (2 ^ k <=? b).
Proof.
  intros K B. unfold fgeb, fleb.
  assert (P : 0 < 2 ^ k) by (apply Z.pow_pos_nonneg; lia).
  assert (M : 2 ^ k < 2 ^ 53) by (apply Z.pow_lt_mono_r; lia).
  assert (E : (of_int (2 ^ k) == inject_Z (2 ^ k))%Q) by (apply of_int_exact; lia).
  destruct (2 ^ k <=? b) eqn:C.
  - apply Z.leb_le in C. apply Qle_bool_iff. rewrite <- E. apply of_int_mono, C.
  - apply Z.leb_gt in C.
    assert (Eb : (of_int b == inject_Z b)%Q) by (apply of_int_exact; lia).
    destruct (Qle_bool (inject_Z (2 ^ k)) (of_int b)) eqn:Q; [|reflexivity].
    apply Qle_bool_iff in Q. rewrite Eb in Q. rewrite <- Zle_Qle in Q. lia.
Qed.

Lemma text_spec (bytes : Z) : 0 <= bytes ->
  HumanBytes.text bytes =
  if 2 ^ 30 <=? bytes
  then (CStr.fmt_f 2 (fdiv (of_int bytes) (1024 * 1024 * 1024)%Q) ++ " GiB")%string
  else if 2 ^ 20 <=? bytes
  then (CStr.fmt_f 1 (fdiv (of_int bytes) (1024 * 1024)%Q) ++ " MiB")%string
  else if 2 ^ 10 <=? bytes
  then (CStr.fmt_f 1 (fdiv (of_int bytes) 1024%Q) ++ " KiB")%string
  else (CStr.fmt_llu bytes ++ " B")%string.
Proof.
  intros B. unfold HumanBytes.text. cbv zeta.
  change HumanBytes.GiB with (inject_Z (2 ^ 30)).
  change HumanBytes.MiB with (inject_Z (2 ^ 20)).
  change HumanBytes.KiB with (inject_Z (2 ^ 10)).
  rewrite !fgeb_pow2 by lia.
  reflexivity.
Qed.

Lemma store_nth (s : string) : forall (l : list string) (n : nat),
  (n < List.length l)%nat -> nth n (HumanBytes.store n s l) EmptyString = s.
Proof.
  induction l as [|x r IH]; intros [|n] H; simpl in *; try lia; auto.
  apply IH. lia.
Qed.

(** The buffer returned holds the text. *)
Lemma human_bytes_deref (st : HumanBytes.statics) (bytes : Z) :
  List.length (HumanBytes.bufs st) = 8%nat ->
  HumanBytes.deref (fst (HumanBytes.human_bytes st bytes))
                   (snd (HumanBytes.human_bytes st bytes))
  = HumanBytes.text bytes.
Proof.
  intros L. unfold HumanBytes.human_bytes, HumanBytes.deref. simpl.
  apply store_nth. rewrite L.
  pose proof (Z.mod_pos_bound (HumanBytes.idx st + 1) 8 ltac:(lia)). lia.
Qed.


(* ------------------------------------------------------------------ *)
(** ** Keys *)

Lemma read_key_quit (buf : list Z) :
  ktype (read_key buf) = K_QUIT <-> exists rest, buf = 3 :: rest.
Proof.
  split.
  - destruct buf as [|b0 rest]; simpl; [discriminate|].
    destruct (b0 =? 3) eqn:E.
    + apply Z.eqb_eq in E. subst b0. intros _. exists rest. reflexivity.
    + destruct rest as [|b1 [|b2 rest]]; simpl.
      * repeat (match goal with |- context [if ?b then _ else _] => destruct b end);
          discriminate.
      * discriminate.
      * repeat (match goal with |- context [if ?b then _ else _] => destruct b end);
          discriminate.
  - intros [rest ->]. reflexivity.
Qed.

(** Releasing the terminal after acquiring it gives back the line
    discipline found. *)
Lemma restore_after_init (t : Tty.state) :
  Tty.line (Tty.restore_terminal (Tty.init_terminal t)) = Tty.line t /\
  Tty.g_termios_active (Tty.restore_terminal (Tty.init_terminal t)) = false.
Proof. split; reflexivity. Qed.

Lemma search_exit_iff (t : Tty.state) (l : Main.locals) (k : Key) :
  Main.is_search l = true ->
  (exists t' c, Main.handle_key t l k = Main.Exited t' c) <-> ktype k = K_QUIT.
Proof.
  intros S. unfold Main.handle_key. rewrite S. split.
  - intros (t' & c & H). destruct (ktype k); try reflexivity;
      repeat (match type of H with context [if ?b then _ else _] => destruct b end);
      discriminate H.
  - intros ->. eauto.
Qed.

(* ================================================================== *)
(** * The properties of the specification *)

(* ------------------------------------------------------------------ *)
(** ** C1: counter reset in the CPU totals *)

(** Scenario 1 of the specification: 400 jiffies of which 200 idle. *)
Example overall_cpu_scenario :
  (out_cpu (snd (Fixture.two_samples
                   (Fixture.host (Fixture.at_sec 1000) Fixture.stat_a (Some []))
                   (Fixture.host (Fixture.at_sec 1001) Fixture.stat_b (Some []))
                   SORT_CPU Fixture.no_filter)) == 50)%Q.
Proof. vm_compute. reflexivity. Qed.

(** C1. [sample] does not clamp the deltas of the CPU totals.  When
    [user] falls from 100 to 50 between two samples while [idle] advances
    by 200, [total_delta] is 150, [idle_delta] is 200, their difference
    wraps to 2^64 - 50, and the overall CPU percent stored is
    12297829382473033728: not 0, and far above 100. *)
Theorem sample_counter_reset_wraps :
  let prev := read_cpu_times (Some Fixture.stat_a) in
  let cur := read_cpu_times (Some Fixture.stat_reset) in
  let o := snd (Fixture.two_samples
                  (Fixture.host (Fixture.at_sec 1000) Fixture.stat_a (Some []))
                  (Fixture.host (Fixture.at_sec 1001) Fixture.stat_reset (Some []))
                  SORT_CPU Fixture.no_filter) in
  user cur < user prev /\
  total_delta prev cur = 150 /\
  idle_delta prev cur = 200 /\
  U64.sub (total_delta prev cur) (idle_delta prev cur) = 2 ^ 64 - 50 /\
  (out_cpu o == 12297829382473033728)%Q /\
  ~ (out_cpu o == 0)%Q /\
  (100 < out_cpu o)%Q.
Proof.
  vm_compute. repeat split; try reflexivity; intros H; discriminate H.
Qed.

(* ------------------------------------------------------------------ *)
(** ** C2: per-process CPU percent *)

(** Scenario 2 of the specification: 1000 ticks, then 1200, over a total
    delta of 400. *)
Example proc_cpu_scenario :
  map (fun p => (pid p, cpu_percent p))
      (listed (snd (Fixture.two_samples
         (Fixture.host (Fixture.at_sec 1000) Fixture.stat_a (Some Fixture.procs_a))
         (Fixture.host (Fixture.at_sec 1001) Fixture.stat_b (Some Fixture.procs_b))
         SORT_CPU Fixture.no_filter)))
  = [(123, 50%Q)].
Proof. vm_compute. reflexivity. Qed.

(** Scenario 4 of the specification: the filter ["fire"] keeps the two
    processes whose name contains it, whatever the case. *)
Example filter_scenario :
  let e := Fixture.host (Fixture.at_sec 1000) Fixture.stat_a
             (Some [Fixture.proc "1" "init" 1 1 1 10;
                    Fixture.proc "42" "firefox" 1 1 1 10;
                    Fixture.proc "43" "Firefox-helper" 1 1 1 10]) in
  map pid (listed (snd (sample Fixture.fresh Gpu.init e SORT_CPU "fire"
                               Main.initial_outs)))
  = [42; 43].
Proof. vm_compute. reflexivity. Qed.

(** C2, failing instance.  Pid 456 is not in the table of the previous
    sample; its 1200 ticks over a total delta of 400 are reported as 300
    percent, not 0. *)
Lemma unseen_pid_counterexample :
  let e1 := Fixture.host (Fixture.at_sec 1000) Fixture.stat_a (Some Fixture.procs_a) in
  let e2 := Fixture.host (Fixture.at_sec 1001) Fixture.stat_b (Some Fixture.procs_late) in
  let s1 := fst (fst (sample Fixture.fresh Gpu.init e1 SORT_CPU Fixture.no_filter Main.initial_outs)) in
  let o2 := snd (Fixture.two_samples e1 e2 SORT_CPU Fixture.no_filter) in
  total_delta (prev_cpu s1) (read_cpu_times (stat_cpu e2)) = 400 /\
  find_prev_ticks (prev_ticks s1) 456 = None /\
  map (fun p => (pid p, cpu_percent p)) (listed o2) = [(456, 300%Q); (123, 50%Q)] /\
  exists p, In p (listed o2) /\ find_prev_ticks (prev_ticks s1) (pid p) = None /\
            ~ (cpu_percent p == 0)%Q.
Proof.
  vm_compute. repeat split.
  eexists. split; [left; reflexivity|]. split; [reflexivity|].
  intros H. discriminate H.
Qed.

(** C2, as amended.  Every process [sample] lists comes from an entry of
    [/proc] whose [stat] file gave [utime] and [stime]; with [total_ticks]
    their sum in [unsigned long long], which is what the new table holds
    for the pid: when [total_delta] is 0 the percent is 0; when it is
    positive and the previous table holds the pid with [prev_t], the
    percent is [(total_ticks - prev_t) * 100 / total_delta], the
    subtraction being exact when [prev_t <= total_ticks]; when the previous
    table does not hold the pid, the percent is
    [total_ticks * 100 / total_delta], not 0. *)
Theorem sample_cpu_percent s gst e srt flt o ds p :
  proc_dir e = Some ds ->
  In p (listed (snd (sample s gst e srt flt o))) ->
  let td := total_delta (prev_cpu s) (read_cpu_times (stat_cpu e)) in
  exists d st utime stime thr rss,
    In d ds /\ pd_stat d = Some st /\
    st_scan st = Some (utime, stime, thr, rss) /\
    pid p = CStr.atoi (pd_name d) /\
    let total_ticks := U64.add utime stime in
    In (mkPidTicks total_ticks (pid p))
       (prev_ticks (fst (fst (sample s gst e srt flt o)))) /\
    (td = 0 -> cpu_percent p = 0%Q) /\
    (0 < td ->
     match find_prev_ticks (prev_ticks s) (pid p) with
     | Some prev_t =>
         cpu_percent p =
         fdiv (fmul (of_int (U64.sub total_ticks prev_t)) 100%Q) (of_int td) /\
         (0 <= prev_t <= total_ticks ->
          U64.sub total_ticks prev_t = total_ticks - prev_t)
     | None =>
         cpu_percent p = fdiv (fmul (of_int total_ticks) 100%Q) (of_int td)
     end).
Proof.
  intros D I td.
  destruct (sample_listed_entry s gst e srt flt o ds p D I)
    as (d & st & ut & stm & thr & rss & Id & Es & _ & Ec & Ep & It & C & _).
  fold td in C.
  exists d, st, ut, stm, thr, rss.
  split; [exact Id|]. split; [exact Es|]. split; [exact Ec|].
  split; [exact Ep|]. cbv zeta. split; [exact It|].
  pose proof (wrap_range (ut + stm)) as R. fold (U64.add ut stm) in R.
  split.
  - intros Z. rewrite C. unfold proc_cpu. rewrite Z. reflexivity.
  - intros Z. rewrite C. unfold proc_cpu, prev_t_of.
    apply Z.ltb_lt in Z. rewrite Z.
    destruct (find_prev_ticks (prev_ticks s) (pid p)) as [prev_t|].
    + split; [reflexivity|]. intros B. unfold U64.sub. apply wrap_small.
      unfold U64.in_range in *. lia.
    + unfold U64.sub. rewrite Z.sub_0_r, wrap_small by exact R. reflexivity.
Qed.

Lemma sample_cpu_percent_witness :
  let e1 := Fixture.host (Fixture.at_sec 1000) Fixture.stat_a (Some Fixture.procs_a) in
  let e2 := Fixture.host (Fixture.at_sec 1001) Fixture.stat_b (Some Fixture.procs_b) in
  let s1 := fst (fst (sample Fixture.fresh Gpu.init e1 SORT_CPU Fixture.no_filter Main.initial_outs)) in
  let g1 := snd (fst (sample Fixture.fresh Gpu.init e1 SORT_CPU Fixture.no_filter Main.initial_outs)) in
  let o1 := snd (sample Fixture.fresh Gpu.init e1 SORT_CPU Fixture.no_filter Main.initial_outs) in
  let p := mkProcessInfo 123 "worker" 50%Q 40960 1 in
  exists d st utime stime thr rss,
    In d Fixture.procs_b /\ pd_stat d = Some st /\
    st_scan st = Some (utime, stime, thr, rss) /\
    pid p = CStr.atoi (pd_name d) /\
    let total_ticks := U64.add utime stime in
    In (mkPidTicks total_ticks (pid p))
       (prev_ticks (fst (fst (sample s1 g1 e2 SORT_CPU Fixture.no_filter o1)))) /\
    (400 = 0 -> cpu_percent p = 0%Q) /\
    (0 < 400 ->
     cpu_percent p =
     fdiv (fmul (of_int (U64.sub total_ticks 1000)) 100%Q) (of_int 400) /\
     (0 <= 1000 <= total_ticks -> U64.sub total_ticks 1000 = total_ticks - 1000)).
Proof.
  intros e1 e2 s1 g1 o1 p.
  apply (sample_cpu_percent s1 g1 e2 SORT_CPU Fixture.no_filter o1 Fixture.procs_b p).
  - reflexivity.
  - vm_compute. left. reflexivity.
Defined.

(* ------------------------------------------------------------------ *)
(** ** C3: order of the process list *)

(** C3, failing instance.  Two processes equal in CPU percent and in
    memory, which [/proc] lists with pid 7 before pid 3, come out in that
    order: the comparator returns -1 for the pair in either order, so the
    merge keeps the left one first. *)
Lemma pid_tie_break_counterexample :
  let e := Fixture.host (Fixture.at_sec 1000) Fixture.stat_a (Some Fixture.procs_tie) in
  let arr := listed (snd (sample Fixture.fresh Gpu.init e SORT_CPU Fixture.no_filter
                                 Main.initial_outs)) in
  map (fun p => (pid p, cpu_percent p, mem_bytes p)) arr
    = [(7, 0%Q, 40960); (3, 0%Q, 40960)] /\
  ~ Sorted (sorted_pair_pid SORT_CPU) arr.
Proof.
  vm_compute. split; [reflexivity|].
  intros H. apply Sorted_inv in H as [_ H]. apply HdRel_inv in H.
  destruct H as [_ H]. vm_compute in H.
  specialize (H eq_refl eq_refl). apply H. reflexivity.
Qed.

(** C3, as amended.  In the list [sample] returns, under [SORT_CPU] every
    entry has a CPU percent at least that of its successor and, when the
    two are equal, at least its memory; under [SORT_MEM] the same with the
    two metrics exchanged.  The list holds exactly the processes the
    [readdir] loop collected.  Nothing orders by pid the entries that are
    equal in both metrics: they come out in the order in which the loop
    collected them, which is the order of [/proc]. *)
Theorem sample_sorted s gst e srt flt o ds :
  proc_dir e = Some ds ->
  let r := sample s gst e srt flt o in
  let td := total_delta (prev_cpu s) (read_cpu_times (stat_cpu e)) in
  exists arr,
    out_procs (snd r) = PLive arr /\
    out_count (snd r) = Z.of_nat (List.length arr) /\
    Sorted (sorted_pair srt) arr /\
    Permutation arr (snd (proc_loop s td flt ds)) /\
    (forall p, filter (tied p) arr
               = filter (tied p) (snd (proc_loop s td flt ds))).
Proof.
  intros D r td.
  destruct (sample_opened s gst e srt flt o ds D) as (P & C & _).
  fold r td in P, C.
  exists (Qsort.qsort_r (compare_procs srt) (snd (proc_loop s td flt ds))).
  split; [exact P|]. split; [rewrite C, qsort_r_length; reflexivity|].
  split; [|split].
  - apply qsort_r_sorted.
    + apply compare_procs_le.
    + apply compare_procs_gt.
  - apply qsort_r_perm.
  - intros p. apply qsort_r_tied.
Qed.

(** Three processes listed as pids 7, 3, 5, with CPU percents 1, 5, 1 and
    30, 10, 30 pages: by CPU the order is 3, 7, 5 and by memory 7, 5, 3;
    pids 7 and 5, equal in both metrics, stay in the order of [/proc]. *)
Lemma sample_sorted_witness :
  let e := Fixture.host (Fixture.at_sec 1000) Fixture.stat_a (Some Fixture.procs_mixed) in
  let td := total_delta (prev_cpu Fixture.fresh) (read_cpu_times (stat_cpu e)) in
  let collected := snd (proc_loop Fixture.fresh td Fixture.no_filter Fixture.procs_mixed) in
  (map (fun p => (pid p, cpu_percent p, mem_bytes p)) collected
   = [(7, 1%Q, 122880); (3, 5%Q, 40960); (5, 1%Q, 122880)]) /\
  (let r := sample Fixture.fresh Gpu.init e SORT_CPU Fixture.no_filter Main.initial_outs in
   map pid (listed (snd r)) = [3; 7; 5] /\
   exists arr,
     out_procs (snd r) = PLive arr /\
     out_count (snd r) = Z.of_nat (List.length arr) /\
     Sorted (sorted_pair SORT_CPU) arr /\
     Permutation arr collected /\
     (forall p, filter (tied p) arr = filter (tied p) collected)) /\
  (let r := sample Fixture.fresh Gpu.init e SORT_MEM Fixture.no_filter Main.initial_outs in
   map pid (listed (snd r)) = [7; 5; 3] /\
   exists arr,
     out_procs (snd r) = PLive arr /\
     out_count (snd r) = Z.of_nat (List.length arr) /\
     Sorted (sorted_pair SORT_MEM) arr /\
     Permutation arr collected /\
     (forall p, filter (tied p) arr = filter (tied p) collected)).
Proof.
  intros e td collected.
  split; [vm_compute; reflexivity|]. split.
  - split; [vm_compute; reflexivity|].
    apply (sample_sorted Fixture.fresh Gpu.init e SORT_CPU Fixture.no_filter
                         Main.initial_outs Fixture.procs_mixed).
    reflexivity.
  - split; [vm_compute; reflexivity|].
    apply (sample_sorted Fixture.fresh Gpu.init e SORT_MEM Fixture.no_filter
                         Main.initial_outs Fixture.procs_mixed).
    reflexivity.
Defined.

(* ------------------------------------------------------------------ *)
(** ** C4: bounds of the overall CPU percent *)

(** C4, failing instance.  From all-zero totals to [user = 2],
    [idle = 2^64 - 1] no counter regresses, yet the sum of the counters
    wraps to 1 and the percent stored is 200. *)
Lemma overall_cpu_bound_counterexample :
  ~ (forall prev cur : CpuTimes,
       cpu_wf prev -> cpu_wf cur -> no_regression prev cur ->
       (0 <= overall_cpu prev cur /\ overall_cpu prev cur <= 100)%Q).
Proof.
  intros H.
  assert (W0 : cpu_wf zero_cpu)
    by (unfold cpu_wf, U64.in_range, U64.modulus; simpl; lia).
  assert (W1 : cpu_wf Fixture.cpu_huge)
    by (unfold cpu_wf, U64.in_range, U64.modulus; simpl; lia).
  assert (N : no_regression zero_cpu Fixture.cpu_huge)
    by (unfold no_regression; simpl; lia).
  destruct (H zero_cpu Fixture.cpu_huge W0 W1 N) as [_ U].
  vm_compute in U. apply U. reflexivity.
Qed.

(** Rounding alone can pass 100 once the delta is large: with a delta of
    400000000000003 jiffies, none of them idle, the product by 100 is
    rounded up and the quotient is 100 + 2^-46. *)
Example overall_cpu_rounding :
  (overall_cpu zero_cpu (mkCpuTimes 400000000000003 0 0 0 0 0 0 0)
   == 100 + (1 # 70368744177664))%Q.
Proof. vm_compute. reflexivity. Qed.

(** C4, as amended.  When no counter regresses, the eight counters of the
    current snapshot sum to less than 2^64 and the sums of the two
    snapshots differ by less than 2^48, the overall CPU percent lies in
    [0, 100]. *)
Theorem overall_cpu_bounded (prev cur : CpuTimes) :
  cpu_wf prev -> cpu_wf cur -> no_regression prev cur ->
  cpu_sum cur < 2 ^ 64 ->
  cpu_sum cur - cpu_sum prev < 2 ^ 48 ->
  (0 <= overall_cpu prev cur /\ overall_cpu prev cur <= 100)%Q.
Proof.
  intros Wp Wc N S B. unfold overall_cpu.
  rewrite (total_delta_exact prev cur Wp Wc N S).
  rewrite (idle_delta_exact prev cur Wp Wc N S).
  pose proof (cpu_sum_mono _ _ N) as M.
  destruct (0 <? cpu_sum cur - cpu_sum prev) eqn:E.
  - apply Z.ltb_lt in E.
    assert (I : 0 <= idle cur + iowait cur - (idle prev + iowait prev)
                <= cpu_sum cur - cpu_sum prev).
    { unfold no_regression, cpu_sum in *. lia. }
    unfold U64.sub. rewrite wrap_small by (unfold U64.in_range, U64.modulus; lia).
    apply percent_bounded; lia.
  - split; lra.
Qed.

Lemma overall_cpu_bounded_witness :
  let prev := read_cpu_times (Some Fixture.stat_a) in
  let cur := read_cpu_times (Some Fixture.stat_b) in
  (0 <= overall_cpu prev cur /\ overall_cpu prev cur <= 100)%Q.
Proof.
  apply overall_cpu_bounded.
  - unfold cpu_wf, U64.in_range, U64.modulus. simpl. lia.
  - unfold cpu_wf, U64.in_range, U64.modulus. simpl. lia.
  - unfold no_regression. simpl. lia.
  - vm_compute. reflexivity.
  - vm_compute. reflexivity.
Defined.

(* ------------------------------------------------------------------ *)
(** ** C5: totality of [sample] *)

(** The readers answer a missing file with zeros or their sentinel. *)
Lemma readers_unavailable :
  read_cpu_times None = zero_cpu /\ read_memory None = zero_mem /\
  read_cpu_count None = 1 /\
  (forall s el, read_network s None el = (s, default_net)).
Proof. repeat split. Qed.

(** C5.  When [opendir "/proc"] fails, [sample] returns before it stores
    the process list and the count and before it replaces the previous
    CPU totals and the previous tick table: the caller's [procs] and
    [count] are whatever they were.  In [main] the array was freed just
    before the call, so [procs] is left pointing to freed memory while
    [count] still holds the old length. *)
Theorem sample_returns_early s gst e l o :
  proc_dir e = None ->
  let r := Main.sample_block s gst e l o in
  out_procs (snd r) = Main.free_procs (out_procs o) /\
  out_count (snd r) = out_count o /\
  prev_cpu (fst (fst r)) = prev_cpu s /\
  prev_ticks (fst (fst r)) = prev_ticks s.
Proof.
  intros D r. subst r. unfold Main.sample_block.
  match goal with
  | |- context [sample s gst e ?a ?b ?c] =>
      destruct (sample_not_opened s gst e a b c D) as (P & C & T & U)
  end.
  simpl in P, C. auto.
Qed.

Lemma sample_returns_early_witness :
  out_procs (snd FixtureC5.after_ok)
    = PLive [mkProcessInfo 123 "worker" 100%Q 40960 1] /\
  out_procs (snd FixtureC5.after_fail) = PFreed /\
  out_count (snd FixtureC5.after_fail) = 1 /\
  prev_cpu (fst (fst FixtureC5.after_fail)) = read_cpu_times (Some Fixture.stat_a).
Proof.
  split; [vm_compute; reflexivity|].
  pose proof (sample_returns_early (fst (fst FixtureC5.after_ok))
                (snd (fst FixtureC5.after_ok)) FixtureC5.e_fail FixtureC5.l0
                (snd FixtureC5.after_ok) eq_refl) as H.
  cbv zeta in H. destruct H as (P & C & U & _).
  split; [|split].
  - etransitivity; [exact P|]. vm_compute. reflexivity.
  - etransitivity; [exact C|]. vm_compute. reflexivity.
  - etransitivity; [exact U|]. vm_compute. reflexivity.
Defined.

(* ------------------------------------------------------------------ *)
(** ** C6: the network snapshot returned *)

(** C6, failing instance.  On a host whose only interface besides [lo]
    has both counters at 0, the snapshot returned is the placeholder
    ["-"], not that interface. *)
Lemma idle_interface_counterexample :
  let snap := snd (read_network (FixtureNet.with_prev_net [])
                                (Some FixtureNet.idle_host) 1%Q) in
  snap = default_net /\ ~ names_greatest FixtureNet.idle_host snap.
Proof.
  split; [reflexivity|].
  intros (r & I & N & E & _). vm_compute in E.
  destruct I as [I|[I|[]]]; injection I as <-; [apply N; reflexivity|discriminate E].
Qed.

(** C6, as amended.  [read_network] never records nor returns [lo]; an
    interface absent from the previous table gets both rates 0; with a
    positive elapsed time no rate is negative, also when a counter went
    backwards; no interface other than [lo] has a total [rx + tx] (in
    [unsigned long long]) above that of the returned snapshot; and the
    snapshot is that of an interface with the greatest total when that
    total is positive, the placeholder ["-"] with rates 0 otherwise. *)
Theorem read_network_spec (s : Sampler) (lines : list (option NetRow))
    (elapsed : double) :
  (0 < elapsed)%Q ->
  let r := read_network s (Some lines) elapsed in
  let snap := snd r in
  iface snap <> "lo"%string /\
  (forall n, In n (prev_net (fst r)) -> ns_iface n <> "lo"%string) /\
  (forall row, find_prev_net (prev_net s) (nr_iface row) = None ->
     (rx_rate (row_snapshot (prev_net s) elapsed row) == 0 /\
      tx_rate (row_snapshot (prev_net s) elapsed row) == 0)%Q) /\
  (0 <= rx_rate snap /\ 0 <= tx_rate snap)%Q /\
  ((snap = default_net /\
    forall row, In (Some row) lines -> nr_iface row <> "lo"%string ->
                row_total row = 0) \/
   (exists w, In (Some w) lines /\ nr_iface w <> "lo"%string /\
              0 < row_total w /\ snap = row_snapshot (prev_net s) elapsed w /\
              forall row, In (Some row) lines -> nr_iface row <> "lo"%string ->
                          row_total row <= row_total w)).
Proof.
  intros E r snap. subst snap r.
  destruct (read_network_inv s lines elapsed) as (a & C & B & I1 & I2 & I3).
  rewrite B, C.
  split; [|split; [exact I1|split; [apply row_snapshot_first_sight|split]]].
  - destruct I3 as [[_ D]|(w & _ & N & _ & _ & D)]; rewrite D.
    + discriminate.
    + exact N.
  - rewrite <- B. apply read_network_rates_nonneg, E.
  - destruct I3 as [[Z D]|(w & S & N & P & T & D)].
    + left. split; [exact D|]. intros row R N.
      pose proof (I2 row R N). pose proof (row_total_nonneg row). lia.
    + right. exists w. repeat split; auto.
      intros row R N'. rewrite T. apply I2; auto.
Qed.

Lemma read_network_spec_witness :
  let s := FixtureNet.with_prev_net FixtureNet.prev_table in
  let snap := snd (read_network s (Some FixtureNet.busy_host) 1%Q) in
  snap = mkNetworkSnapshot "eth0" 1024000%Q 0%Q /\
  (0 <= rx_rate snap /\ 0 <= tx_rate snap)%Q.
Proof.
  intros s snap. split; [vm_compute; reflexivity|].
  apply (read_network_spec s FixtureNet.busy_host 1%Q). reflexivity.
Defined.

(* ------------------------------------------------------------------ *)
(** ** C7: V3D queue utilization *)

(** Scenario 5 of the specification through [read_gpu]: the second probe
    reports the maximum, 50, of the two queues' 50 and 25, and retains the
    readings of both. *)
Example v3d_scenario :
  let '(_, s, g, _) := FixtureV3d.probe2 in
  usage g = 50%Q /\ has_usage g = true /\ g_name g = "VideoCore GPU"%string /\
  retained (v3d_stats s) "bin" = Some (2000000000, 1000000000) /\
  retained (v3d_stats s) "render" = Some (2000000000, 350000000).
Proof. vm_compute. repeat split. Qed.

(** C7, failing instance.  A line whose timestamp is not past the one
    retained for its queue (here the counters restarted) yields no
    utilization: the usage and [has_usage] stay as they were, and a card
    with only such lines reports no usage. *)
Lemma v3d_stale_counterexample :
  (let '(_, s, g, log) := FixtureV3d.probe3 in
   has_usage g = false /\ usage g = 0%Q /\
   retained (v3d_stats s) "bin" = Some (1000000000, 500000000)) /\
  ~ every_tracked_row_counts.
Proof.
  split; [vm_compute; repeat split|].
  intros H.
  specialize (H [mkV3dStats "bin" 2000000000 1000000000] Gpu.blank
                (Gpu.mkV3dRow "bin" 1000000000 500000000) 0%nat eq_refl).
  destruct H as [H _]. discriminate H.
Qed.

(** A queue met when all 16 slots are taken is never tracked, however
    often it is read. *)
Example v3d_seventeenth_queue :
  let r := Gpu.mkV3dRow "extra" 2000 20 in
  Gpu.v3d_file FixtureV3d.full_table Gpu.blank [Some r; Some r]
  = (FixtureV3d.full_table, Gpu.blank).
Proof. vm_compute. reflexivity. Qed.

(** C7, as amended.  Let a [gpu_stats] file be read whose line [r] names
    a queue the table holds when the line is reached, with a timestamp
    past the retained one, and let no later line of the file name that
    queue.  Then the utilization [(rt - last_rt) * 100 / (ts - last_ts)]
    of the queue, its differences exact when the runtime has not gone
    back, is among the utilizations of the file; the usage reported after
    the file is one of these utilizations and none of them exceeds it; the
    table retains [(ts, rt)] for the queue; and the table still has at
    most 16 entries.  A line whose timestamp is not past the retained one
    yields no utilization and only stores its readings; a queue met for
    the first time is stored when the table has room and ignored when it
    is full.  A card without a readable usage file reports what its
    [gpu_stats] lines yield, no usage when they yield none; [read_gpu]
    returns from such a card with this usage and this table when the
    lines yield one, and never leaves more than 16 queues in the
    sampler. *)
Theorem v3d_queue_spec (tbl : list V3dStats) (g : GpuSnapshot)
    (pre post : list (option Gpu.V3dRow)) (r : Gpu.V3dRow) (i : nat) :
  (List.length tbl <= 16)%nat ->
  usage g = 0%Q ->
  let mid := fst (Gpu.v3d_file tbl g pre) in
  Gpu.v3d_find mid (Gpu.vr_queue r) = Some i ->
  let old := nth i mid Gpu.v3d_dflt in
  last_ts old < Gpu.vr_ts r ->
  (forall r', In (Some r') post -> Gpu.vr_queue r' <> Gpu.vr_queue r) ->
  let u := fdiv (fmul (of_int (U64.sub (Gpu.vr_rt r) (last_rt old))) 100%Q)
                (of_int (U64.sub (Gpu.vr_ts r) (last_ts old))) in
  let lines := pre ++ Some r :: post in
  let fin := Gpu.v3d_file tbl g lines in
  In u (v3d_utils tbl lines) /\
  has_usage (snd fin) = true /\
  (exists v, In v (v3d_utils tbl lines) /\ (usage (snd fin) == v)%Q) /\
  (forall v, In v (v3d_utils tbl lines) -> (v <= usage (snd fin))%Q) /\
  retained (fst fin) (Gpu.vr_queue r) = Some (Gpu.vr_ts r, Gpu.vr_rt r) /\
  (List.length (fst fin) <= 16)%nat /\
  (0 <= last_ts old -> Gpu.vr_ts r < 2 ^ 64 ->
   0 <= last_rt old <= Gpu.vr_rt r -> Gpu.vr_rt r < 2 ^ 64 ->
   u = fdiv (fmul (of_int (Gpu.vr_rt r - last_rt old)) 100%Q)
            (of_int (Gpu.vr_ts r - last_ts old))) /\
  (forall tbl0 g0 r0 i0,
     Gpu.v3d_find tbl0 (Gpu.vr_queue r0) = Some i0 ->
     Gpu.vr_ts r0 <= last_ts (nth i0 tbl0 Gpu.v3d_dflt) ->
     snd (Gpu.v3d_line (tbl0, g0) (Some r0)) = g0 /\
     retained (fst (Gpu.v3d_line (tbl0, g0) (Some r0))) (Gpu.vr_queue r0)
     = Some (Gpu.vr_ts r0, Gpu.vr_rt r0)) /\
  (forall tbl0 g0 r0,
     Gpu.v3d_find tbl0 (Gpu.vr_queue r0) = None ->
     ((List.length tbl0 < 16)%nat ->
      snd (Gpu.v3d_line (tbl0, g0) (Some r0)) = g0 /\
      retained (fst (Gpu.v3d_line (tbl0, g0) (Some r0))) (Gpu.vr_queue r0)
      = Some (Gpu.vr_ts r0, Gpu.vr_rt r0)) /\
     ((16 <= List.length tbl0)%nat ->
      Gpu.v3d_line (tbl0, g0) (Some r0) = (tbl0, g0))) /\
  (forall mem e c tbl0 lines0,
     Gpu.first_some (firstn 4 (Gpu.usage_files c)) = None ->
     Gpu.card_stats_file c = Some lines0 ->
     let rc := Gpu.drm_card mem e tbl0 Gpu.blank c in
     fst rc = fst (Gpu.v3d_file tbl0 Gpu.blank lines0) /\
     usage (snd rc) = usage (snd (Gpu.v3d_file tbl0 Gpu.blank lines0)) /\
     (forall v, In v (v3d_utils tbl0 lines0) -> (v <= usage (snd rc))%Q) /\
     (has_usage (snd rc) = true <-> v3d_utils tbl0 lines0 <> [])) /\
  (forall st s mem e before c after,
     g = Gpu.blank -> tbl = v3d_stats s ->
     Gpu.cache_fresh st e = false ->
     Gpu.nvidia_smi e = None \/ Gpu.nvidia_smi e = Some [] ->
     Gpu.drm e = Some (before ++ c :: after) ->
     (forall b, In b before -> Gpu.is_card (Gpu.d_name b) = false) ->
     Gpu.is_card (Gpu.d_name c) = true ->
     Gpu.first_some (firstn 4 (Gpu.usage_files c)) = None ->
     Gpu.card_stats_file c = Some lines ->
     let '(st', s', gout, _) := Gpu.read_gpu st s mem e in
     v3d_stats s' = fst fin /\ has_usage gout = true /\
     usage gout = usage (snd fin) /\ Gpu.cached_gpu st' = gout) /\
  (forall st s mem e,
     (List.length (v3d_stats s) <= 16)%nat ->
     (List.length (v3d_stats (snd (fst (fst (Gpu.read_gpu st s mem e))))) <= 16)%nat).
Proof.
  intros L U mid F old T N u lines fin.
  assert (Iu : In u (v3d_utils tbl lines)).
  { unfold lines. rewrite (v3d_utils_app pre (Some r :: post) tbl g).
    apply in_or_app. right. fold mid. rewrite v3d_utils_cons.
    apply in_or_app. left. unfold line_util. rewrite F. cbv zeta. fold old.
    apply Z.ltb_lt in T. rewrite T. left. reflexivity. }
  destruct (v3d_file_max lines tbl g) as (M1 & M2 & M3 & M4). fold fin in M1, M2, M3, M4.
  assert (Hu : has_usage (snd fin) = true).
  { rewrite M4. destruct (v3d_utils tbl lines); [contradiction|].
    simpl. apply orb_true_r. }
  split; [exact Iu|]. split; [exact Hu|].
  split; [|split; [exact M2|split; [|split; [|split; [|split; [|split;
    [|split; [|split]]]]]]]].
  - destruct M3 as [M3|M3].
    + exists u. split; [exact Iu|]. rewrite M3, U.
      pose proof (M2 u Iu) as A. rewrite M3, U in A.
      pose proof (v3d_utils_nonneg _ _ _ Iu) as B. lra.
    + exists (usage (snd fin)). split; [exact M3|reflexivity].
  - unfold fin, lines. rewrite v3d_file_app, v3d_file_cons. fold mid.
    rewrite v3d_file_keeps by exact N.
    apply v3d_line_retains. left. rewrite F. discriminate.
  - apply v3d_file_length, L.
  - intros A B C D. unfold u, U64.sub.
    rewrite !wrap_small by (unfold U64.in_range, U64.modulus; lia).
    reflexivity.
  - intros tbl0 g0 r0 i0 F0 T0. apply (v3d_line_stale tbl0 g0 r0 i0 F0 T0).
  - intros tbl0 g0 r0 F0. split.
    + intros R0. split.
      * rewrite v3d_line_usage. unfold line_util. rewrite F0. reflexivity.
      * apply v3d_line_retains. right. exact R0.
    + intros R0. unfold Gpu.v3d_line. rewrite F0.
      replace (List.length tbl0 <? 16)%nat with false; [reflexivity|].
      symmetry. apply Nat.ltb_ge. exact R0.
  - intros mem e c tbl0 lines0 U0 S0 rc.
    destruct (drm_card_reads_stats mem e tbl0 Gpu.blank c lines0 U0 S0)
      as (E1 & E2 & E3). fold rc in E1, E2, E3.
    destruct (v3d_file_max lines0 tbl0 Gpu.blank) as (_ & X2 & _ & X4).
    split; [exact E1|]. split; [exact E2|]. split.
    + intros v Iv. rewrite E2. apply X2, Iv.
    + rewrite E3, X4. cbn [has_usage Gpu.blank orb].
      destruct (v3d_utils tbl0 lines0); simpl; split; congruence.
  - intros st s mem e before c after Eg Et Fr Nv Dr Bf Cc Uf Sf.
    subst g tbl.
    exact (read_gpu_v3d_card st s mem e before c after lines Fr Nv Dr Bf Cc Uf Sf Hu).
  - intros st s mem e Ls. apply read_gpu_length, Ls.
Qed.

Lemma v3d_queue_spec_witness :
  let tbl := [mkV3dStats "bin" 1000000000 500000000;
              mkV3dStats "render" 1000000000 100000000] in
  let r := Gpu.mkV3dRow "render" 2000000000 350000000 in
  let lines := FixtureV3d.second_read in
  let fin := Gpu.v3d_file tbl Gpu.blank lines in
  In 25%Q (v3d_utils tbl lines) /\
  has_usage (snd fin) = true /\
  (exists v, In v (v3d_utils tbl lines) /\ (usage (snd fin) == v)%Q) /\
  (forall v, In v (v3d_utils tbl lines) -> (v <= usage (snd fin))%Q) /\
  retained (fst fin) "render" = Some (2000000000, 350000000) /\
  (List.length (fst fin) <= 16)%nat /\
  (let '(_, s', gout, _) :=
     Gpu.read_gpu (fst (fst (fst FixtureV3d.probe1)))
                  (snd (fst (fst FixtureV3d.probe1))) zero_mem
                  (FixtureV3d.host (Fixture.at_sec 1001) FixtureV3d.second_read) in
   v3d_stats s' = fst fin /\ has_usage gout = true /\
   usage gout = usage (snd fin)).
Proof.
  intros tbl r lines fin.
  destruct (v3d_queue_spec tbl Gpu.blank
              [Some (Gpu.mkV3dRow "bin" 2000000000 1000000000); None] [] r 1%nat
              ltac:(simpl; lia) eq_refl eq_refl eq_refl ltac:(intros r' []))
    as (A & B & C & D & E & F & _ & _ & _ & _ & G & _).
  split; [exact A|]. split; [exact B|]. split; [exact C|]. split; [exact D|].
  split; [exact E|]. split; [exact F|].
  pose proof (G (fst (fst (fst FixtureV3d.probe1)))
                (snd (fst (fst FixtureV3d.probe1))) zero_mem
                (FixtureV3d.host (Fixture.at_sec 1001) FixtureV3d.second_read)
                [] (FixtureV3d.card FixtureV3d.second_read) []
                eq_refl eq_refl eq_refl (or_introl eq_refl) eq_refl
                ltac:(intros b []) eq_refl eq_refl eq_refl) as H.
  destruct (Gpu.read_gpu _ _ _ _) as [[[st' s'] gout] log].
  destruct H as (H1 & H2 & H3 & _). auto.
Defined.

(* ------------------------------------------------------------------ *)
(** ** C8: the 800 ms cache of [read_gpu] *)

(** Truncation toward zero can turn a difference below 800 ms into 800:
    799.5 ms apart, across a second boundary. *)
Example ms_diff_truncation :
  usec_between (mkTimeval 1001 0) (mkTimeval 1000 200500) = 799500 /\
  Gpu.ms_diff (mkTimeval 1001 0) (mkTimeval 1000 200500) = 800.
Proof. split; reflexivity. Qed.

(** C8, failing instance.  With calls 500 ms apart the first probes, the
    second is served from the cache, and the third, 1000 ms after the
    probe, probes again: it is less than 800 ms after the second call, yet
    it consults the backends and returns another snapshot, here under
    another name. *)
Lemma gpu_cache_counterexample :
  (let '(_, _, g1, log1) := FixtureGpu.call1 in
   let '(_, _, g2, log2) := FixtureGpu.call2 in
   let '(_, _, g3, log3) := FixtureGpu.call3 in
   Gpu.ms_diff (Gpu.now FixtureGpu.e3) (Gpu.now FixtureGpu.e2) = 500 /\
   log1 = [Gpu.BNvidia] /\ g2 = g1 /\ log2 = [] /\
   g_name g2 = "NVIDIA GPU"%string /\ g_name g3 = "GPU"%string /\
   log3 = [Gpu.BNvidia; Gpu.BDrm; Gpu.BAdreno; Gpu.BDevfreq; Gpu.BFallback]) /\
  ~ cached_within_800ms.
Proof.
  split; [vm_compute; repeat split|].
  intros H.
  specialize (H (fst (fst (fst FixtureGpu.call1))) (snd (fst (fst FixtureGpu.call1)))
                zero_mem FixtureGpu.e2 FixtureGpu.e3).
  assert (A : tv_sec (Gpu.last_gpu_read (fst (fst (fst FixtureGpu.call1)))) <> 0)
    by (vm_compute; discriminate).
  assert (B : 0 <= Gpu.ms_diff (Gpu.now FixtureGpu.e3) (Gpu.now FixtureGpu.e2) < 800)
    by (vm_compute; split; [discriminate|reflexivity]).
  specialize (H A B). vm_compute in H. destruct H as [H _]. discriminate H.
Qed.

(** C8, as amended.  After any call, the statics hold the snapshot the
    call returned and the time of the last call that probed.  A call made
    while [ms_diff] from that time is below 800, that time having a
    non-zero [tv_sec], returns the snapshot the previous call returned,
    consults no backend and changes neither the statics nor the sampler;
    the condition holds whenever the two clock readings are at most
    799 ms apart.  A call made when [ms_diff] from that time has reached
    800, or that time has a zero [tv_sec], probes again: it consults the
    backends, returns and caches what they give, and records its own
    time. *)
Theorem read_gpu_cached (st : Gpu.statics) (s : Sampler) (mem mem' : MemorySnapshot)
    (e1 e2 : Gpu.Env) :
  let '(st1, s1, g1, log1) := Gpu.read_gpu st s mem e1 in
  (tv_sec (Gpu.last_gpu_read st1) <> 0 ->
   (Gpu.ms_diff (Gpu.now e2) (Gpu.last_gpu_read st1) < 800 \/
    (timeval_wf (Gpu.now e2) /\ timeval_wf (Gpu.last_gpu_read st1) /\
     usec_between (Gpu.now e2) (Gpu.last_gpu_read st1) <= 799000)) ->
   Gpu.read_gpu st1 s1 mem' e2 = (st1, s1, g1, [])) /\
  (800 <= Gpu.ms_diff (Gpu.now e2) (Gpu.last_gpu_read st1) \/
   tv_sec (Gpu.last_gpu_read st1) = 0 ->
   let '(st2, s2, g2, log2) := Gpu.read_gpu st1 s1 mem' e2 in
   log2 <> [] /\ Gpu.last_gpu_read st2 = Gpu.now e2 /\
   Gpu.cached_gpu st2 = g2 /\
   (s2, g2, log2)
   = (Gpu.with_v3d s1 (fst (fst (Gpu.probe (v3d_stats s1) mem' e2))),
      snd (fst (Gpu.probe (v3d_stats s1) mem' e2)),
      snd (Gpu.probe (v3d_stats s1) mem' e2))) /\
  Gpu.cached_gpu st1 = g1 /\
  (log1 = [] -> st1 = st) /\
  (log1 <> [] -> Gpu.last_gpu_read st1 = Gpu.now e1).
Proof.
  pose proof (read_gpu_caches st s mem e1) as C.
  destruct (Gpu.read_gpu st s mem e1) as [[[st1 s1] g1] log1].
  destruct C as (C & C1 & C2).
  split; [|split; [|split; [exact C|split]]].
  - intros Z D.
    assert (M : Gpu.ms_diff (Gpu.now e2) (Gpu.last_gpu_read st1) < 800).
    { destruct D as [D|(W1 & W2 & D)]; [exact D|apply ms_diff_bound; assumption]. }
    rewrite read_gpu_fresh, C; [reflexivity|].
    unfold Gpu.cache_fresh. apply andb_true_iff. split.
    + apply Z.ltb_lt, M.
    + apply negb_true_iff, Z.eqb_neq, Z.
  - intros D.
    assert (F : Gpu.cache_fresh st1 e2 = false).
    { unfold Gpu.cache_fresh. apply andb_false_iff.
      destruct D as [D|D]; [left; apply Z.ltb_ge, D|].
      right. apply negb_false_iff, Z.eqb_eq, D. }
    pose proof (probe_log_nonempty (v3d_stats s1) mem' e2) as P.
    unfold Gpu.read_gpu. rewrite F.
    destruct (Gpu.probe (v3d_stats s1) mem' e2) as [[tbl g] log].
    cbn [fst snd] in *. auto.
  - intros E. destruct (Gpu.cache_fresh st e1) eqn:F.
    + apply C1. reflexivity.
    + destruct (C2 eq_refl) as [_ N]. contradiction.
  - intros N. destruct (Gpu.cache_fresh st e1) eqn:F.
    + destruct (C1 eq_refl) as [_ E]. contradiction.
    + apply C2. reflexivity.
Qed.

(** The first call probes and the second, 500 ms later, is served from
    the cache; the third, 500 ms later again and so 1000 ms after the
    probe, probes anew. *)
Lemma read_gpu_cached_witness :
  (let '(st1, s1, g1, _) := FixtureGpu.call1 in
   Gpu.read_gpu st1 s1 zero_mem FixtureGpu.e2 = (st1, s1, g1, [])) /\
  (let '(st2, _, g2, log2) := FixtureGpu.call3 in
   log2 <> [] /\ Gpu.last_gpu_read st2 = Gpu.now FixtureGpu.e3 /\
   Gpu.cached_gpu st2 = g2).
Proof.
  split.
  - pose proof (read_gpu_cached Gpu.init Fixture.fresh zero_mem zero_mem
                  FixtureGpu.e1 FixtureGpu.e2) as H.
    fold FixtureGpu.call1 in H.
    destruct FixtureGpu.call1 as [[[st1 s1] g1] log1] eqn:E.
    assert (T : Gpu.last_gpu_read st1 = Gpu.now FixtureGpu.e1).
    { pose proof (f_equal (fun r => Gpu.last_gpu_read (fst (fst (fst r)))) E) as T.
      simpl in T. rewrite <- T. vm_compute. reflexivity. }
    apply (proj1 H).
    + rewrite T. vm_compute. discriminate.
    + left. rewrite T. vm_compute. reflexivity.
  - pose proof (read_gpu_cached (fst (fst (fst FixtureGpu.call1)))
                  (snd (fst (fst FixtureGpu.call1))) zero_mem zero_mem
                  FixtureGpu.e2 FixtureGpu.e3) as H.
    change (Gpu.read_gpu (fst (fst (fst FixtureGpu.call1)))
              (snd (fst (fst FixtureGpu.call1))) zero_mem FixtureGpu.e2)
      with FixtureGpu.call2 in H.
    destruct FixtureGpu.call2 as [[[st1 s1] g1] log1] eqn:E.
    destruct H as (_ & H & _).
    assert (T : Gpu.last_gpu_read st1 = Gpu.now FixtureGpu.e1).
    { pose proof (f_equal (fun r => Gpu.last_gpu_read (fst (fst (fst r)))) E) as T.
      simpl in T. rewrite <- T. vm_compute. reflexivity. }
    assert (D : 800 <= Gpu.ms_diff (Gpu.now FixtureGpu.e3) (Gpu.last_gpu_read st1)).
    { rewrite T. vm_compute. discriminate. }
    specialize (H (or_introl D)).
    assert (E3 : FixtureGpu.call3 = Gpu.read_gpu st1 s1 zero_mem FixtureGpu.e3).
    { unfold FixtureGpu.call3. rewrite E. reflexivity. }
    rewrite E3.
    destruct (Gpu.read_gpu st1 s1 zero_mem FixtureGpu.e3) as [[[st2 s2] g2] log2].
    destruct H as (A & B & C & _). auto.
Defined.

(* ------------------------------------------------------------------ *)
(** ** C9: the formats of [human_bytes] *)

(** Scenario 3 of the specification: 1 024 000 bytes per second. *)
Example human_bytes_rate :
  HumanBytes.text (to_u64 1024000%Q) = "1000.0 KiB"%string.
Proof. vm_compute. reflexivity. Qed.

(** C9.  [human_bytes] returns a buffer holding: for an input of at
    least 2^30, the input divided by 2^30 printed with ["%.2f GiB"]; from
    2^20 up to 2^30 - 1, divided by 2^20 with ["%.1f MiB"]; from 2^10 up
    to 2^20 - 1, divided by 1024 with ["%.1f KiB"]; below 2^10, the input
    itself with ["%llu B"].  So 1024 gives ["1.0 KiB"], 1024 * 1024 - 1
    still gives a KiB text, and 1024 * 1024 gives ["1.0 MiB"]; likewise
    at the MiB/GiB border. *)
Theorem human_bytes_format (st : HumanBytes.statics) (bytes : Z) :
  U64.in_range bytes ->
  List.length (HumanBytes.bufs st) = 8%nat ->
  (let '(st', p) := HumanBytes.human_bytes st bytes in
   HumanBytes.deref st' p =
   if 2 ^ 30 <=? bytes
   then (CStr.fmt_f 2 (fdiv (of_int bytes) (1024 * 1024 * 1024)%Q) ++ " GiB")%string
   else if 2 ^ 20 <=? bytes
   then (CStr.fmt_f 1 (fdiv (of_int bytes) (1024 * 1024)%Q) ++ " MiB")%string
   else if 2 ^ 10 <=? bytes
   then (CStr.fmt_f 1 (fdiv (of_int bytes) 1024%Q) ++ " KiB")%string
   else (CStr.fmt_llu bytes ++ " B")%string) /\
  HumanBytes.text 1023 = "1023 B"%string /\
  HumanBytes.text 1024 = "1.0 KiB"%string /\
  HumanBytes.text (1024 * 1024 - 1) = "1024.0 KiB"%string /\
  HumanBytes.text (1024 * 1024) = "1.0 MiB"%string /\
  HumanBytes.text (1024 * 1024 * 1024 - 1) = "1024.0 MiB"%string /\
  HumanBytes.text (1024 * 1024 * 1024) = "1.00 GiB"%string.
Proof.
  intros [B _] L. split.
  - pose proof (human_bytes_deref st bytes L) as D.
    destruct (HumanBytes.human_bytes st bytes) as [st' p]. simpl in D.
    rewrite D. apply text_spec, B.
  - repeat split; vm_compute; reflexivity.
Qed.

Lemma human_bytes_format_witness :
  let '(st', p) := HumanBytes.human_bytes HumanBytes.init 1536 in
  HumanBytes.deref st' p = "1.5 KiB"%string.
Proof.
  pose proof (human_bytes_format HumanBytes.init 1536) as H.
  destruct (HumanBytes.human_bytes HumanBytes.init 1536) as [st' p].
  destruct H as [H _].
  - vm_compute. split; [discriminate|reflexivity].
  - reflexivity.
  - rewrite H. vm_compute. reflexivity.
Defined.

(* ------------------------------------------------------------------ *)
(** ** C10: the key 'q' in SEARCH mode *)

(** C10.  In SEARCH mode the byte 'q' read alone is a character key, and
    handling it keeps the program running: it is appended to the filter
    when the filter is shorter than 63 bytes and ignored otherwise.  A
    buffer whose first byte is 0x03 is Quit whatever follows it, and a key
    makes the program leave SEARCH mode by exiting only if it is Quit;
    the exit code is then 0 and the terminal has been restored. *)
Theorem search_mode_q_is_text (t : Tty.state) (l : Main.locals) :
  Main.is_search l = true ->
  read_key [113] = mkKey K_CHAR 113 /\
  Main.handle_key t l (mkKey K_CHAR 113) =
    Main.Running t
      (if Main.strlen (Main.filter l) <? 63
       then Main.mkLocals (Main.sort l) (Main.filter l ++ [113]) true 0 true
                          (Main.needs_render l)
       else l) /\
  (forall rest, read_key (3 :: rest) = mkKey K_QUIT 0) /\
  (forall buf, ktype (read_key buf) = K_QUIT -> exists rest, buf = 3 :: rest) /\
  (forall k, (exists t' c, Main.handle_key t l k = Main.Exited t' c)
             <-> ktype k = K_QUIT) /\
  (forall k, ktype k = K_QUIT ->
             Main.handle_key t l k = Main.Exited (Tty.restore_terminal t) 0) /\
  (Tty.g_termios_active t = true ->
   Tty.line (Tty.restore_terminal t) = Tty.g_original_termios t /\
   Tty.g_termios_active (Tty.restore_terminal t) = false).
Proof.
  intros S. split; [reflexivity|]. split.
  - unfold Main.handle_key. simpl. rewrite S.
    destruct (Main.strlen (Main.filter l) <? 63); reflexivity.
  - split; [reflexivity|]. split; [intros buf; apply read_key_quit|].
    split; [intros k; apply search_exit_iff, S|]. split.
    + intros k Q. unfold Main.handle_key. rewrite Q. reflexivity.
    + intros A. unfold Tty.restore_terminal. rewrite A. split; reflexivity.
Qed.

Lemma search_mode_q_is_text_witness :
  Main.drain [[113]; [3; 113]] FixtureKeys.tty FixtureKeys.searching
  = Main.Exited (Tty.restore_terminal FixtureKeys.tty) 0 /\
  Main.handle_key FixtureKeys.tty FixtureKeys.searching (mkKey K_CHAR 113)
  = Main.Running FixtureKeys.tty
      (Main.mkLocals SORT_CPU [102; 105; 114; 101; 113] true 0 true false).
Proof.
  split; [reflexivity|].
  destruct (search_mode_q_is_text FixtureKeys.tty FixtureKeys.searching eq_refl)
    as (_ & H & _).
  exact H.
Defined.

(* ================================================================== *)
(** * Further properties of the code *)

(* ------------------------------------------------------------------ *)
(** ** Keys and the terminal *)

Ltac split_ifs :=
  repeat match goal with
         | |- context [if ?b then _ else _] => destruct b eqn:?
         end.

Ltac bools_to_Z :=
  repeat match goal with
         | H : (_ =? _) = true |- _ => apply Z.eqb_eq in H
         | H : (_ =? _) = false |- _ => apply Z.eqb_neq in H
         | H : (_ && _) = true |- _ => apply andb_true_iff in H; destruct H
         | H : (_ || _) = false |- _ => apply orb_false_iff in H; destruct H
         | H : (_ <=? _) = true |- _ => apply Z.leb_le in H
         | H : (_ <=? _) = false |- _ => apply Z.leb_gt in H
         | H : (_ <? _) = true |- _ => apply Z.ltb_lt in H
         | H : (_ <? _) = false |- _ => apply Z.ltb_ge in H
         end.

(** What [read_key] returns for a buffer of one byte other than 3. *)
Lemma read_key_single (c : Z) :
  c <> 3 ->
  read_key [c] =
    if c =? 27 then mkKey K_ESC 0
    else if (c =? 127) || (c =? 8) then mkKey K_BACKSPACE 0
    else if (c =? 10) || (c =? 13) then mkKey K_ENTER 0
    else if CStr.isprint c then mkKey K_CHAR c
    else mkKey K_NONE 0.
Proof. intros N. simpl. apply Z.eqb_neq in N. rewrite N. reflexivity. Qed.

(** A character key carries a printable byte. *)
Lemma read_key_char (buf : list Z) (c : Z) :
  read_key buf = mkKey K_CHAR c <-> buf = [c] /\ 32 <= c <= 126.
Proof.
  split.
  - destruct buf as [|b0 [|b1 [|b2 rest]]]; simpl; split_ifs; try discriminate.
    intros H. injection H as <-. unfold CStr.isprint in *. bools_to_Z. auto.
  - intros [-> R]. rewrite read_key_single by lia.
    destruct (c =? 27) eqn:E1; [bools_to_Z; lia|].
    destruct ((c =? 127) || (c =? 8)) eqn:E2;
      [apply orb_true_iff in E2; destruct E2; bools_to_Z; lia|].
    destruct ((c =? 10) || (c =? 13)) eqn:E3;
      [apply orb_true_iff in E3; destruct E3; bools_to_Z; lia|].
    unfold CStr.isprint.
    replace (32 <=? c) with true by (symmetry; apply Z.leb_le; lia).
    replace (c <=? 126) with true by (symmetry; apply Z.leb_le; lia).
    reflexivity.
Qed.

Lemma read_key_ch (buf : list Z) :
  ktype (read_key buf) <> K_CHAR -> ch (read_key buf) = 0.
Proof.
  destruct buf as [|b0 [|b1 [|b2 rest]]]; simpl; split_ifs; simpl; congruence.
Qed.

Lemma read_key_arrow (buf : list Z) (kt : KeyType) (code : Z) :
  (kt = K_UP /\ code = 65) \/ (kt = K_DOWN /\ code = 66) \/
  (kt = K_RIGHT /\ code = 67) \/ (kt = K_LEFT /\ code = 68) ->
  ktype (read_key buf) = kt <-> exists rest, buf = 27 :: 91 :: code :: rest.
Proof.
  intros K. split.
  - destruct buf as [|b0 [|b1 [|b2 rest]]]; simpl; split_ifs; simpl; intros H;
      bools_to_Z; subst;
      destruct K as [[? ?]|[[? ?]|[[? ?]|[? ?]]]]; subst; try discriminate;
      eauto.
  - intros [rest ->].
    destruct K as [[? ?]|[[? ?]|[[? ?]|[? ?]]]]; subst; reflexivity.
Qed.

(** X1.  The complete table of [read_key]: Escape, Backspace and Enter
    are the single bytes 27; 127 or 8; 10 or 13.  A character key is a
    single printable byte (32..126), which the key carries; every other
    key carries 0.  The arrows are the buffers of three bytes or more that
    start with ESC '[' and 'A', 'B', 'C' or 'D' (up, down, right, left),
    whatever follows.  In particular a buffer of two bytes, or several
    printable bytes read at once, is no key at all unless it starts with
    the byte 3. *)
Theorem read_key_table (buf : list Z) :
  (ktype (read_key buf) = K_ESC <-> buf = [27]) /\
  (ktype (read_key buf) = K_BACKSPACE <-> buf = [127] \/ buf = [8]) /\
  (ktype (read_key buf) = K_ENTER <-> buf = [10] \/ buf = [13]) /\
  (forall c, read_key buf = mkKey K_CHAR c <-> buf = [c] /\ 32 <= c <= 126) /\
  (ktype (read_key buf) <> K_CHAR -> ch (read_key buf) = 0) /\
  (ktype (read_key buf) = K_UP <-> exists rest, buf = 27 :: 91 :: 65 :: rest) /\
  (ktype (read_key buf) = K_DOWN <-> exists rest, buf = 27 :: 91 :: 66 :: rest) /\
  (ktype (read_key buf) = K_RIGHT <-> exists rest, buf = 27 :: 91 :: 67 :: rest) /\
  (ktype (read_key buf) = K_LEFT <-> exists rest, buf = 27 :: 91 :: 68 :: rest) /\
  (forall b0 b1, b0 <> 3 -> read_key [b0; b1] = mkKey K_NONE 0) /\
  (forall b0 b1 rest, b0 <> 3 -> b0 <> 27 ->
                      read_key (b0 :: b1 :: rest) = mkKey K_NONE 0).
Proof.
  split; [|split; [|split; [|split; [|split; [|split; [|split; [|split;
    [|split; [|split]]]]]]]]].
  - split.
    + destruct buf as [|b0 [|b1 [|b2 rest]]]; simpl; split_ifs; simpl;
        try discriminate. intros _. bools_to_Z. subst. reflexivity.
    + intros ->. reflexivity.
  - split.
    + destruct buf as [|b0 [|b1 [|b2 rest]]]; simpl; split_ifs; simpl;
        try discriminate. intros _.
      match goal with H : (_ || _) = true |- _ =>
        apply orb_true_iff in H; destruct H end; bools_to_Z; subst; auto.
    + intros [-> | ->]; reflexivity.
  - split.
    + destruct buf as [|b0 [|b1 [|b2 rest]]]; simpl; split_ifs; simpl;
        try discriminate. intros _.
      match goal with H : (_ =? 10) || _ = true |- _ =>
        apply orb_true_iff in H; destruct H end; bools_to_Z; subst; auto.
    + intros [-> | ->]; reflexivity.
  - intros c. apply read_key_char.
  - apply read_key_ch.
  - apply read_key_arrow. auto.
  - apply read_key_arrow. auto.
  - apply read_key_arrow. auto 6.
  - apply read_key_arrow. auto 6.
  - intros b0 b1 N. simpl. apply Z.eqb_neq in N. rewrite N. reflexivity.
  - intros b0 b1 rest N3 N27. simpl. apply Z.eqb_neq in N3, N27.
    rewrite N3, N27. destruct rest; reflexivity.
Qed.

(** *** The filter *)

Lemma Forall_removelast {A} (P : A -> Prop) (l : list A) :
  Forall P l -> Forall P (removelast l).
Proof.
  induction 1 as [|x r Hx Hr IH]; simpl; [constructor|].
  destruct r; [constructor|]. constructor; assumption.
Qed.

Lemma length_removelast_le {A} (l : list A) :
  (List.length (removelast l) <= List.length l)%nat.
Proof.
  induction l as [|x r IH]; simpl; [lia|]. destruct r; simpl in *; lia.
Qed.

Lemma handle_key_filter_fits t l k t' l' :
  (ktype k = K_CHAR -> 32 <= ch k <= 126) ->
  filter_fits l -> Main.handle_key t l k = Main.Running t' l' -> filter_fits l'.
Proof.
  intros P [L F]. unfold Main.handle_key.
  assert (R : forall a b c d e,
             filter_fits (Main.mkLocals a (removelast (Main.filter l)) b c d e)).
  { intros. split; simpl.
    - pose proof (length_removelast_le (Main.filter l)).
      unfold Main.strlen in *. lia.
    - apply Forall_removelast, F. }
  assert (E : forall a b c d e, filter_fits (Main.mkLocals a [] b c d e)).
  { intros. split; simpl; [unfold Main.strlen; simpl; lia | constructor]. }
  assert (S : forall a b c d e,
             filter_fits (Main.mkLocals a (Main.filter l) b c d e)).
  { intros. split; assumption. }
  assert (I : filter_fits l) by (split; assumption).
  destruct (ktype k) eqn:K; try discriminate;
    destruct (Main.is_search l) eqn:M; split_ifs;
    try (intros H; first [discriminate H | injection H as <- <-];
         solve [exact I | apply R | apply E | apply S]).
  - intros H. injection H as <- <-. bools_to_Z. split; simpl.
    + unfold Main.strlen in *. rewrite length_app. simpl. lia.
    + apply Forall_app. split; [assumption|]. constructor; [auto|constructor].
Qed.

Lemma read_key_printable (buf : list Z) :
  ktype (read_key buf) = K_CHAR -> 32 <= ch (read_key buf) <= 126.
Proof.
  destruct (read_key buf) as [kt c] eqn:E. simpl. intros ->.
  apply read_key_char in E. tauto.
Qed.

Lemma drain_filter_fits (reads : list (list Z)) :
  forall t l t' l',
    filter_fits l -> Main.drain reads t l = Main.Running t' l' -> filter_fits l'.
Proof.
  induction reads as [|buf more IH]; intros t l t' l' F; simpl.
  - intros H. injection H as <- <-. exact F.
  - destruct (KeyType_eqb (ktype (read_key buf)) K_NONE).
    + intros H. injection H as <- <-. exact F.
    + destruct (Main.handle_key t l (read_key buf)) as [t1 l1|t1 c] eqn:H1;
        [|discriminate].
      apply IH. eapply handle_key_filter_fits; eauto using read_key_printable.
Qed.

(** X2.  The filter never outgrows its 64-byte array: whatever bytes
    arrive, while the program keeps running the filter stays at most 63
    bytes long (leaving room for the terminator) and holds printable
    bytes only. *)
Theorem filter_never_overflows (reads : list (list Z)) (t t' : Tty.state)
    (l l' : Main.locals) :
  filter_fits l -> Main.drain reads t l = Main.Running t' l' -> filter_fits l'.
Proof. apply drain_filter_fits. Qed.

Lemma filter_never_overflows_witness :
  filter_fits (Main.mkLocals SORT_CPU [102; 105; 114; 101; 33] true 0 true false).
Proof.
  apply (filter_never_overflows [[33]; [27; 91]; [7]] FixtureKeys.tty
           FixtureKeys.tty FixtureKeys.searching).
  - split; [unfold Main.strlen; simpl; lia|].
    repeat (constructor; [lia|]). constructor.
  - reflexivity.
Defined.

(** X3.  In NORMAL mode the arrow keys and the letters do the same: the
    bytes of Up, Down, Left and Right have the effect of 'k', 'j', 'h'
    and 'l', on the state and on everything read after them. *)
Theorem arrows_match_letters (reads : list (list Z)) (t : Tty.state)
    (l : Main.locals) :
  Main.is_search l = false ->
  Main.drain ([27; 91; 65] :: reads) t l = Main.drain ([107] :: reads) t l /\
  Main.drain ([27; 91; 66] :: reads) t l = Main.drain ([106] :: reads) t l /\
  Main.drain ([27; 91; 68] :: reads) t l = Main.drain ([104] :: reads) t l /\
  Main.drain ([27; 91; 67] :: reads) t l = Main.drain ([108] :: reads) t l.
Proof.
  intros N. simpl. unfold Main.handle_key. simpl. rewrite N. simpl.
  repeat split; reflexivity.
Qed.

Lemma arrows_match_letters_witness :
  Main.drain [[27; 91; 66]; [27; 91; 66]; [27; 91; 67]] FixtureKeys.tty
             FixtureView.browsing
  = Main.drain [[106]; [27; 91; 66]; [27; 91; 67]] FixtureKeys.tty
               FixtureView.browsing.
Proof.
  exact (proj1 (proj2 (arrows_match_letters [[27; 91; 66]; [27; 91; 67]]
                         FixtureKeys.tty FixtureView.browsing eq_refl))).
Defined.

(** X4.  A key that keeps the program running never touches the terminal
    and never clears a pending request to sample or to render.  When it
    changes the sort mode it requests a sample; when it changes the filter
    it requests a sample, except '/' in NORMAL mode, which empties the
    filter and requests a rendering only (the list shown stays the
    filtered one until the next periodic sample); when it changes the
    selection or the mode it requests a sample or a rendering. *)
Theorem key_changes_are_flagged (t t' : Tty.state) (l l' : Main.locals) (k : Key) :
  Main.handle_key t l k = Main.Running t' l' ->
  t' = t /\
  (Main.needs_sample l = true -> Main.needs_sample l' = true) /\
  (Main.needs_render l = true -> Main.needs_render l' = true) /\
  (Main.sort l' <> Main.sort l -> Main.needs_sample l' = true) /\
  (Main.filter l' <> Main.filter l ->
   Main.needs_sample l' = true \/
   (Main.is_search l = false /\ k = mkKey K_CHAR 47 /\ Main.filter l' = [] /\
    Main.needs_render l' = true)) /\
  (Main.selection l' <> Main.selection l ->
   Main.needs_sample l' = true \/ Main.needs_render l' = true) /\
  (Main.is_search l' <> Main.is_search l -> Main.needs_render l' = true).
Proof.
  unfold Main.handle_key. destruct k as [kt c]. simpl.
  destruct kt; try discriminate;
    destruct (Main.is_search l) eqn:M; split_ifs;
    intros H; try discriminate H; injection H as <- <-; simpl;
    bools_to_Z; subst;
    repeat split; auto; try congruence; try (intros; left; reflexivity).
Qed.

Lemma key_changes_are_flagged_witness :
  Main.needs_sample
    (Main.mkLocals SORT_MEM [] false 0 true false) = true.
Proof.
  destruct (key_changes_are_flagged FixtureKeys.tty FixtureKeys.tty
              FixtureView.browsing
              (Main.mkLocals SORT_MEM [] false 0 true false)
              (mkKey K_CHAR 108) eq_refl) as (_ & _ & _ & S & _).
  apply S. discriminate.
Defined.

(** *** Leaving the program *)

(** While the program runs the terminal is as it was; when a key ends it,
    [restore_terminal] has run and the code is 0. *)
Lemma handle_key_tty t l k :
  match Main.handle_key t l k with
  | Main.Running t' _ => t' = t
  | Main.Exited t' c => t' = Tty.restore_terminal t /\ c = 0
  end.
Proof.
  unfold Main.handle_key.
  destruct (ktype k); destruct (Main.is_search l); split_ifs; auto.
Qed.

Lemma drain_tty (reads : list (list Z)) :
  forall t l,
    match Main.drain reads t l with
    | Main.Running t' _ => t' = t
    | Main.Exited t' c => t' = Tty.restore_terminal t /\ c = 0
    end.
Proof.
  induction reads as [|buf more IH]; intros t l; simpl; [reflexivity|].
  destruct (KeyType_eqb (ktype (read_key buf)) K_NONE); [reflexivity|].
  pose proof (handle_key_tty t l (read_key buf)) as H.
  destruct (Main.handle_key t l (read_key buf)) as [t1 l1|t1 c]; [|exact H].
  subst t1. apply IH.
Qed.

(** X5.  However the key loop ends the program, once [init_terminal]
    has run the terminal is put back: the line flags are those saved in
    [g_original_termios], the sequences that leave the alternate screen
    and show the cursor are written once, after everything written
    before, and the exit code is 0. *)
Theorem key_exit_restores_terminal (t t' : Tty.state) (reads : list (list Z))
    (l : Main.locals) (c : Z) :
  Tty.g_termios_active t = true ->
  Main.drain reads t l = Main.Exited t' c ->
  c = 0 /\ Tty.line t' = Tty.g_original_termios t /\
  Tty.g_termios_active t' = false /\
  Tty.written t' =
    Tty.written t
    ++ [String (ascii_of_nat 27) "[?1049l"; String (ascii_of_nat 27) "[?25h";
        String (ascii_of_nat 27) "[0m"].
Proof.
  intros A H. pose proof (drain_tty reads t l) as D.
  rewrite H in D. destruct D as [-> ->]. unfold Tty.restore_terminal.
  rewrite A. repeat split; reflexivity.
Qed.

Lemma key_exit_restores_terminal_witness :
  Tty.line (Tty.restore_terminal FixtureKeys.tty) = 35387.
Proof.
  destruct (key_exit_restores_terminal FixtureKeys.tty
              (Tty.restore_terminal FixtureKeys.tty)
              [[106]; [47]; [113]; [27]; [113]] FixtureView.browsing 0
              eq_refl eq_refl)
    as (_ & L & _).
  exact L.
Defined.

(** X6.  A signal that arrives after any amount of input has been handled
    finds the terminal as it was before that input (key handling never
    touches it while the program runs), restores the saved line flags
    and ends the program with the signal's number. *)
Theorem signal_restores_terminal (t t1 : Tty.state) (reads : list (list Z))
    (l l1 : Main.locals) (sig : Z) :
  Tty.g_termios_active t = true ->
  Main.drain reads t l = Main.Running t1 l1 ->
  t1 = t /\
  exists t', signal_handler t1 sig = Main.Exited t' sig /\
             Tty.line t' = Tty.g_original_termios t /\
             Tty.g_termios_active t' = false.
Proof.
  intros A H. pose proof (drain_tty reads t l) as D.
  rewrite H in D. subst t1. split; [reflexivity|].
  unfold signal_handler, Tty.restore_terminal. rewrite A.
  eexists. split; [reflexivity|]. split; reflexivity.
Qed.

Lemma signal_restores_terminal_witness :
  exists t', signal_handler FixtureKeys.tty 15 = Main.Exited t' 15 /\
             Tty.line t' = 35387 /\ Tty.g_termios_active t' = false.
Proof.
  exact (proj2 (signal_restores_terminal FixtureKeys.tty FixtureKeys.tty
                  [[106]; [47]; [113]] FixtureView.browsing
                  (Main.mkLocals SORT_CPU [113] true 0 true true) 15
                  eq_refl eq_refl)).
Defined.

(** The bits of [ECHO | ICANON | ISIG]. *)
Lemma lflag_mask_bits (i : Z) :
  0 <= i ->
  Z.testbit (Z.lor Tty.ECHO (Z.lor Tty.ICANON Tty.ISIG)) i
  = (i =? 0) || (i =? 1) || (i =? 3).
Proof.
  intros P. change (Z.lor Tty.ECHO (Z.lor Tty.ICANON Tty.ISIG)) with 11.
  destruct (Z.eq_dec i 0) as [->|]; [reflexivity|].
  destruct (Z.eq_dec i 1) as [->|]; [reflexivity|].
  destruct (Z.eq_dec i 2) as [->|]; [reflexivity|].
  destruct (Z.eq_dec i 3) as [->|]; [reflexivity|].
  rewrite Z.bits_above_log2 by (change (Z.log2 11) with 3; lia).
  symmetry. repeat (apply orb_false_iff; split); apply Z.eqb_neq; lia.
Qed.

(** X7.  [init_terminal] saves the line flags it finds and turns off
    exactly three of them, ISIG, ICANON and ECHO (bits 0, 1 and 3): every
    other flag of the terminal stays as it was. *)
Theorem init_terminal_clears_three_flags (t : Tty.state) (i : Z) :
  0 <= i ->
  Tty.g_original_termios (Tty.init_terminal t) = Tty.line t /\
  Z.testbit (Tty.line (Tty.init_terminal t)) i
  = Z.testbit (Tty.line t) i && negb ((i =? 0) || (i =? 1) || (i =? 3)).
Proof.
  intros P. split; [reflexivity|]. unfold Tty.init_terminal. simpl.
  rewrite Z.land_spec, Z.lnot_spec by assumption.
  rewrite lflag_mask_bits by assumption. reflexivity.
Qed.

Lemma init_terminal_clears_three_flags_witness :
  Z.testbit (Tty.line FixtureKeys.tty) 3 = false /\
  Z.testbit (Tty.line FixtureKeys.tty) 4 = true.
Proof.
  split.
  - exact (proj2 (init_terminal_clears_three_flags
                    (Tty.mkState 0 false 35387 []) 3 ltac:(lia))).
  - exact (proj2 (init_terminal_clears_three_flags
                    (Tty.mkState 0 false 35387 []) 4 ltac:(lia))).
Defined.

(* ------------------------------------------------------------------ *)
(** ** The process table on screen *)

(** The loop prints consecutive indices, up to the smaller of its two
    bounds. *)
Lemma rows_from_spec (count lim : Z) (n : nat) :
  forall i,
    Z.min count lim - i <= Z.of_nat n ->
    View.rows_from n i count lim
    = map (fun k => i + Z.of_nat k) (seq 0 (Z.to_nat (Z.min count lim - i))).
Proof.
  induction n as [|n IH]; intros i B.
  - replace (Z.to_nat (Z.min count lim - i)) with 0%nat by lia. reflexivity.
  - cbn [View.rows_from].
    destruct ((i <? count) && (i <? lim)) eqn:E.
    + apply andb_true_iff in E. destruct E as [E1 E2].
      apply Z.ltb_lt in E1, E2.
      rewrite IH by lia.
      replace (Z.to_nat (Z.min count lim - i))
        with (S (Z.to_nat (Z.min count lim - (i + 1)))) by lia.
      cbn [seq map]. f_equal; [lia|].
      rewrite <- seq_shift, map_map. apply map_ext. intros k. lia.
    + replace (Z.to_nat (Z.min count lim - i)) with 0%nat; [reflexivity|].
      apply andb_false_iff in E. destruct E as [E|E]; apply Z.ltb_ge in E; lia.
Qed.

Lemma clamp_selection_range (count selection : Z) :
  0 <= View.clamp_selection count selection /\
  (0 < count -> View.clamp_selection count selection < count) /\
  (count <= 0 -> View.clamp_selection count selection = 0) /\
  (0 <= selection < count -> View.clamp_selection count selection = selection).
Proof.
  unfold View.clamp_selection. cbv zeta.
  destruct (Z.leb_spec count selection); destruct (Z.ltb_spec 0 count);
    cbn iota.
  all: repeat match goal with
              | |- context [?a <? ?b] => destruct (Z.ltb_spec a b)
              end.
  all: lia.
Qed.

Lemma half_bounds (vis : Z) :
  (0 <= vis -> 0 <= c_div vis 2 /\ 2 * c_div vis 2 <= vis) /\
  (vis <= 0 -> c_div vis 2 <= 0 /\ vis <= 2 * c_div vis 2).
Proof.
  unfold c_div. split; intros P; Z.to_euclidean_division_equations; lia.
Qed.

Lemma scroll_top_range (count vis sel : Z) :
  0 <= View.scroll_top count vis sel /\
  (0 <= vis -> 0 <= count ->
   View.scroll_top count vis sel <= Z.max 0 (count - vis)) /\
  (1 <= vis -> 0 <= sel < count ->
   View.scroll_top count vis sel <= sel < View.scroll_top count vis sel + vis).
Proof.
  unfold View.scroll_top. cbv zeta. pose proof (half_bounds vis) as [Hp Hn].
  destruct (Z.ltb_spec (count - vis) (sel - c_div vis 2)); cbn iota.
  all: match goal with |- context [?a <? ?b] => destruct (Z.ltb_spec a b) end.
  all: repeat split; intros; lia.
Qed.

Lemma shown_rows_spec (count top vis : Z) :
  0 <= top ->
  View.shown_rows count top vis
  = map (fun k => top + Z.of_nat k)
        (seq 0 (Z.to_nat (Z.min count (top + vis) - top))).
Proof. intros P. unfold View.shown_rows. apply rows_from_spec. lia. Qed.

(** The number of rows printed. *)
Lemma shown_rows_count (count vis sel : Z) :
  0 <= count ->
  Z.to_nat (Z.min count (View.scroll_top count vis sel + vis)
            - View.scroll_top count vis sel)
  = Z.to_nat (Z.min count vis).
Proof.
  intros C. destruct (scroll_top_range count vis sel) as (T0 & T1 & _).
  destruct (Z.le_gt_cases 0 vis) as [V|V]; [specialize (T1 V C)|]; lia.
Qed.

(** X8.  Whatever the selection was (a key can push it past the end, and
    the list can shrink under it), rendering brings it back into the
    list, leaving it alone when it was inside, and the selected process
    is among the rows printed: the highlighted row never scrolls out of
    a window of at least one row. *)
Theorem selected_row_is_shown (ws : View.winsize) (count selection : Z) :
  0 < count -> 13 <= View.ws_row ws ->
  let f := View.render_frame ws count selection in
  0 <= View.f_selection f < count /\
  In (View.f_selection f) (View.f_rows f) /\
  (0 <= selection < count -> View.f_selection f = selection) /\
  (count <= selection -> View.f_selection f = count - 1) /\
  (selection < 0 -> View.f_selection f = 0).
Proof.
  intros C R. cbv zeta. unfold View.render_frame. cbn [View.f_selection View.f_rows].
  destruct (clamp_selection_range count selection) as (S0 & S1 & _ & S3).
  specialize (S1 C).
  set (sel := View.clamp_selection count selection) in *.
  assert (V : 1 <= View.visible ws) by (unfold View.visible; lia).
  destruct (scroll_top_range count (View.visible ws) sel) as (T0 & _ & T2).
  specialize (T2 V (conj S0 S1)).
  split; [lia|]. split; [|split; [exact S3|]].
  - rewrite shown_rows_spec by exact T0. apply in_map_iff.
    exists (Z.to_nat (sel - View.scroll_top count (View.visible ws) sel)).
    split; [lia|]. apply in_seq. lia.
  - subst sel. unfold View.clamp_selection. cbv zeta. split; intros H.
    + destruct (Z.leb_spec count selection); [|lia].
      destruct (Z.ltb_spec 0 count); [|lia].
      destruct (Z.ltb_spec (count - 1) 0); lia.
    + destruct (Z.leb_spec count selection); [lia|].
      destruct (Z.ltb_spec selection 0); lia.
Qed.

Lemma selected_row_is_shown_witness :
  In 99 (View.f_rows (View.render_frame FixtureView.vt100 100 250)).
Proof.
  destruct (selected_row_is_shown FixtureView.vt100 100 250 ltac:(lia)
              ltac:(simpl; lia)) as (_ & I & _ & E & _).
  rewrite <- (E ltac:(lia)) at 1. exact I.
Defined.

(** X9.  The rows printed are consecutive indices of the array, starting
    at [scroll_top >= 0]; there are as many as the smaller of the number
    of processes and the [ws_row - 12] rows available, so the window is
    never left partly empty while processes remain, no index outside the
    array is ever read, and a terminal of 12 rows or fewer shows no
    process at all. *)
Theorem window_is_full (ws : View.winsize) (count selection : Z) :
  0 <= count ->
  let f := View.render_frame ws count selection in
  View.f_rows f
  = map (fun k => View.f_scroll_top f + Z.of_nat k)
        (seq 0 (Z.to_nat (Z.min count (View.visible ws)))) /\
  (forall i, In i (View.f_rows f) -> 0 <= i < count) /\
  (View.ws_row ws <= 12 -> View.f_rows f = []).
Proof.
  intros C. cbv zeta. unfold View.render_frame.
  cbn [View.f_rows View.f_scroll_top].
  set (sel := View.clamp_selection count selection).
  destruct (scroll_top_range count (View.visible ws) sel) as (T0 & T1 & _).
  assert (E : View.shown_rows count (View.scroll_top count (View.visible ws) sel)
                (View.visible ws)
              = map (fun k => View.scroll_top count (View.visible ws) sel
                              + Z.of_nat k)
                    (seq 0 (Z.to_nat (Z.min count (View.visible ws))))).
  { rewrite shown_rows_spec by exact T0. rewrite shown_rows_count by exact C.
    reflexivity. }
  split; [exact E|]. split.
  - intros i I. rewrite E in I. apply in_map_iff in I.
    destruct I as (k & <- & K). apply in_seq in K.
    destruct (Z.le_gt_cases 0 (View.visible ws)) as [V|V];
      [specialize (T1 V C)|]; lia.
  - intros R. rewrite E.
    replace (Z.to_nat (Z.min count (View.visible ws))) with 0%nat;
      [reflexivity|]. unfold View.visible. lia.
Qed.

Lemma window_is_full_witness :
  View.f_rows (View.render_frame FixtureView.vt100 5 3) = [0; 1; 2; 3; 4] /\
  View.f_rows (View.render_frame FixtureView.vt100 100 250)
  = [88; 89; 90; 91; 92; 93; 94; 95; 96; 97; 98; 99].
Proof.
  split.
  - exact (proj1 (window_is_full FixtureView.vt100 5 3 ltac:(lia))).
  - exact (proj1 (window_is_full FixtureView.vt100 100 250 ltac:(lia))).
Defined.

(** X10.  On a terminal of 13 rows or more showing at least one process,
    the footer ["Showing a-b of n"] names the rows printed: [a] is the
    first row and [b] the last one, counted from 1, and [b <= n]. *)
Theorem footer_names_rows_shown (ws : View.winsize) (count selection : Z) :
  0 < count -> 13 <= View.ws_row ws ->
  let f := View.render_frame ws count selection in
  fst (View.f_footer f) = hd 0 (View.f_rows f) + 1 /\
  snd (View.f_footer f) = last (View.f_rows f) 0 + 1 /\
  snd (View.f_footer f) = View.f_scroll_top f + Z.of_nat (List.length (View.f_rows f)) /\
  snd (View.f_footer f) <= count.
Proof.
  intros C R. cbv zeta. unfold View.render_frame.
  cbn [View.f_rows View.f_scroll_top View.f_footer fst snd].
  set (sel := View.clamp_selection count selection).
  assert (V : 1 <= View.visible ws) by (unfold View.visible; lia).
  destruct (scroll_top_range count (View.visible ws) sel) as (T0 & T1 & _).
  specialize (T1 ltac:(lia) ltac:(lia)).
  set (top := View.scroll_top count (View.visible ws) sel) in *.
  rewrite shown_rows_spec by exact T0.
  set (n := Z.to_nat (Z.min count (top + View.visible ws) - top)).
  assert (N : (1 <= n)%nat) by (subst n; lia).
  assert (B : (if count <? top + View.visible ws then count
               else top + View.visible ws) = top + Z.of_nat n).
  { subst n. destruct (Z.ltb_spec count (top + View.visible ws)); lia. }
  assert (U : top + Z.of_nat n <= count) by (subst n; lia).
  clearbody n. rewrite B. rewrite length_map, length_seq.
  destruct n as [|m]; [lia|]. split; [cbn; lia|]. split; [|split; [reflexivity|lia]].
  rewrite seq_S, map_app. cbn [map]. rewrite last_last. lia.
Qed.

Lemma footer_names_rows_shown_witness :
  View.f_footer (View.render_frame FixtureView.vt100 100 250) = (89, 100).
Proof.
  pose proof (footer_names_rows_shown FixtureView.vt100 100 250 ltac:(lia)
                ltac:(simpl; lia)) as (A & B & _).
  apply injective_projections; [exact A | exact B].
Defined.

(* ------------------------------------------------------------------ *)
(** ** The sampler *)

Section PercentValue.
Local Open Scope Q_scope.

(** The two roundings of [(double)x * 100.0 / (double)y] amount to one:
    for operands below 2^48 the result is the exact percentage, rounded
    once. *)
Lemma percent_value (x y : Z) : (0 <= x < 2 ^ 48)%Z -> (0 < y < 2 ^ 48)%Z ->
  fdiv (fmul (of_int x) 100) (of_int y) == rnd (inject_Z x * 100 / inject_Z y).
Proof.
  intros Hx Hy.
  assert (Ex : of_int x == inject_Z x) by (apply of_int_exact; lia).
  assert (Ey : of_int y == inject_Z y) by (apply of_int_exact; lia).
  assert (Em : fmul (of_int x) 100 == inject_Z x * 100).
  { unfold fmul. rewrite (rnd_comp _ (inject_Z (25 * x) * 2 ^ 2)).
    - rewrite rnd_exact by lia. rewrite inject_Z_mult. change (2 ^ 2) with 4.
      change (inject_Z 25) with 25. ring.
    - rewrite Ex, inject_Z_mult. change (2 ^ 2) with 4.
      change (inject_Z 25) with 25. ring. }
  unfold fdiv. apply rnd_comp. rewrite Em, Ey. reflexivity.
Qed.

Lemma percent_zero (y : Z) : fdiv (fmul (of_int 0) 100) (of_int y) = 0.
Proof. reflexivity. Qed.

End PercentValue.

(** X11.  When no counter of [/proc/stat] regresses, the sums do not
    wrap and fewer than 2^48 ticks passed, the overall CPU percent is the
    exact ratio [100 * (total - idle) / total] of the tick deltas rounded
    once to a double, with [idle] counting idle and iowait; it is 0 when
    no tick passed or every tick was idle, and exactly 100 when none
    was. *)
Theorem overall_cpu_exact (prev cur : CpuTimes) :
  cpu_wf prev -> cpu_wf cur -> no_regression prev cur ->
  cpu_sum cur < 2 ^ 64 ->
  cpu_sum cur - cpu_sum prev < 2 ^ 48 ->
  let total := cpu_sum cur - cpu_sum prev in
  let idl := (idle cur + iowait cur) - (idle prev + iowait prev) in
  (total = 0 -> (overall_cpu prev cur == 0)%Q) /\
  (0 < total ->
   (overall_cpu prev cur
    == rnd (inject_Z (total - idl) * 100 / inject_Z total))%Q) /\
  (idl = total -> (overall_cpu prev cur == 0)%Q) /\
  (0 < total -> idl = 0 -> (overall_cpu prev cur == 100)%Q).
Proof.
  intros Wp Wc N S B total idl. unfold overall_cpu.
  rewrite (total_delta_exact prev cur Wp Wc N S).
  rewrite (idle_delta_exact prev cur Wp Wc N S).
  fold total idl.
  assert (I : 0 <= idl <= total).
  { subst total idl. unfold no_regression, cpu_sum in *. lia. }
  assert (V : 0 < total ->
              (fdiv (fmul (of_int (U64.sub total idl)) 100) (of_int total)
               == rnd (inject_Z (total - idl) * 100 / inject_Z total))%Q).
  { intros P. unfold U64.sub.
    rewrite wrap_small by (unfold U64.in_range, U64.modulus; lia).
    apply percent_value; lia. }
  split; [|split; [|split]].
  - intros Z. rewrite Z. reflexivity.
  - intros P. apply Z.ltb_lt in P. rewrite P. apply Z.ltb_lt in P. exact (V P).
  - intros E. destruct (0 <? total) eqn:P; [|reflexivity].
    apply Z.ltb_lt in P. rewrite (V P), E, Z.sub_diag.
    apply rnd_of_zero. unfold Qdiv. ring.
  - intros P E. pose proof P as P'. apply Z.ltb_lt in P'. rewrite P'.
    rewrite (V P), E, Z.sub_0_r.
    assert (E100 : (rnd 100 == 100)%Q) by (vm_compute; reflexivity).
    rewrite <- E100 at 2. apply rnd_comp.
    assert (~ (inject_Z total == 0)%Q).
    { intros Q. unfold Qeq in Q. simpl in Q. lia. }
    field. assumption.
Qed.

Lemma overall_cpu_exact_witness :
  (overall_cpu (read_cpu_times (Some Fixture.stat_a))
               (read_cpu_times (Some Fixture.stat_b))
   == rnd (inject_Z (400 - 200) * 100 / inject_Z 400))%Q.
Proof.
  assert (W : forall l, cpu_wf (read_cpu_times (Some l)) ->
                        cpu_wf (read_cpu_times (Some l))) by auto.
  refine (proj1 (proj2 (overall_cpu_exact
            (read_cpu_times (Some Fixture.stat_a))
            (read_cpu_times (Some Fixture.stat_b)) _ _ _ _ _)) _);
    try (unfold cpu_wf, no_regression, U64.in_range, U64.modulus; simpl; lia);
    try (unfold cpu_sum; simpl; lia).
Defined.

(** *** The process list and the tick table *)

Lemma proc_loop_pids s td flt ds :
  map pt_pid (fst (proc_loop s td flt ds)) = map pid (snd (proc_loop s td flt ds)).
Proof.
  induction ds as [|d r IH]; simpl; [reflexivity|].
  destruct (proc_loop s td flt r) as [ts ps]. simpl in IH.
  destruct (proc_entry s td flt d) as [[t p]|] eqn:E; simpl; [|exact IH].
  destruct (proc_entry_cpu _ _ _ _ _ _ E) as (Ep & _). rewrite Ep, IH.
  reflexivity.
Qed.

(** X12.  After a sample that could open [/proc], the count returned is
    the length of the list returned, and the tick table kept for the next
    sample holds one entry per listed process, with its pid: a process
    the filter rejected, or whose [stat] could not be read or parsed,
    leaves no ticks behind. *)
Theorem tick_table_matches_list s gst e srt flt o ds :
  proc_dir e = Some ds ->
  let r := sample s gst e srt flt o in
  out_count (snd r) = Z.of_nat (List.length (listed (snd r))) /\
  Permutation (map pid (listed (snd r))) (map pt_pid (prev_ticks (fst (fst r)))).
Proof.
  intros D r. subst r.
  destruct (sample_opened s gst e srt flt o ds D) as (P & C & T & _).
  unfold listed. rewrite P, C, T, qsort_r_length, proc_loop_pids.
  split; [reflexivity|]. apply Permutation_map, qsort_r_perm.
Qed.

Lemma tick_table_matches_list_witness :
  Permutation
    (map pid (listed (snd (FixtureFilter.first "work"))))
    (map pt_pid (prev_ticks (fst (fst (FixtureFilter.first "work"))))) /\
  map pt_pid (prev_ticks (fst (fst (FixtureFilter.first "work")))) = [123].
Proof.
  split; [|vm_compute; reflexivity].
  exact (proj2 (tick_table_matches_list Fixture.fresh Gpu.init FixtureFilter.e1
                  SORT_CPU "work" Main.initial_outs _ eq_refl)).
Defined.

(** *** The filter *)

Lemma filter_accepts_empty nm p : filter_accepts EmptyString nm p = true.
Proof. reflexivity. Qed.

(** An entry is listed under a filter when it is listed without one and
    the filter accepts its name or pid; the record is the same. *)
Lemma proc_entry_filter s td flt d :
  proc_entry s td flt d =
  match proc_entry s td EmptyString d with
  | Some (t, p) => if matches flt p then Some (t, p) else None
  | None => None
  end.
Proof.
  unfold proc_entry, matches.
  destruct (String.get 0 (pd_name d)); [|reflexivity].
  destruct (negb (CStr.isdigit a)); [reflexivity|].
  destruct (pd_stat d) as [st|]; [|reflexivity].
  destruct (st_comm st) as [nm|]; [|reflexivity].
  rewrite filter_accepts_empty. cbn [negb].
  destruct (st_scan st) as [[[[ut stm] thr] rss]|].
  - cbn [name pid]. destruct (filter_accepts flt nm _); reflexivity.
  - destruct (negb _); reflexivity.
Qed.

Lemma proc_loop_filter s td flt ds :
  snd (proc_loop s td flt ds)
  = filter (matches flt) (snd (proc_loop s td EmptyString ds)).
Proof.
  induction ds as [|d r IH]; simpl; [reflexivity|].
  rewrite (proc_entry_filter s td flt d).
  destruct (proc_loop s td flt r) as [ts ps].
  destruct (proc_loop s td EmptyString r) as [ts0 ps0]. simpl in IH.
  destruct (proc_entry s td EmptyString d) as [[t p]|]; simpl; [|exact IH].
  destruct (matches flt p); simpl; rewrite IH; reflexivity.
Qed.

Lemma Permutation_filter_compat {A} (f : A -> bool) (l l' : list A) :
  Permutation l l' -> Permutation (filter f l) (filter f l').
Proof.
  induction 1 as [|x l l' P IH|x y l|l l' l'' P1 IH1 P2 IH2]; simpl.
  - constructor.
  - destruct (f x); [constructor|]; exact IH.
  - destruct (f x), (f y); try reflexivity. constructor.
  - etransitivity; eassumption.
Qed.

(** X13.  Filtering only selects: the list a sample returns under a
    filter holds exactly the processes of the list it would return
    without one whose name contains the filter, letter case ignored, or
    whose pid in decimal contains it, each with the same CPU percent,
    memory and thread count. *)
Theorem filter_only_selects s gst e srt flt o o0 ds :
  proc_dir e = Some ds ->
  Permutation (listed (snd (sample s gst e srt flt o)))
              (filter (matches flt)
                      (listed (snd (sample s gst e srt EmptyString o0)))).
Proof.
  intros D.
  destruct (sample_opened s gst e srt flt o ds D) as (P & _).
  destruct (sample_opened s gst e srt EmptyString o0 ds D) as (P0 & _).
  unfold listed. rewrite P, P0, qsort_r_perm, proc_loop_filter.
  apply Permutation_filter_compat. symmetry. apply qsort_r_perm.
Qed.

Lemma filter_only_selects_witness :
  Permutation (listed (snd (FixtureFilter.first "work")))
              (filter (matches "work")
                      (listed (snd (FixtureFilter.first Fixture.no_filter)))) /\
  map pid (listed (snd (FixtureFilter.first Fixture.no_filter))) = [456; 123].
Proof.
  split; [|vm_compute; reflexivity].
  exact (filter_only_selects Fixture.fresh Gpu.init FixtureFilter.e1 SORT_CPU
           "work" Main.initial_outs Main.initial_outs _ eq_refl).
Defined.

(** *** Processes across two samples *)

Lemma find_prev_ticks_None prev p :
  ~ In p (map pt_pid prev) -> find_prev_ticks prev p = None.
Proof.
  induction prev as [|e r IH]; simpl; [reflexivity|]. intros N.
  destruct (Z.eqb_spec (pt_pid e) p) as [E|E]; [exfalso; auto|].
  apply IH. auto.
Qed.

(** X14.  Every listed process comes from an entry of [/proc] whose
    [stat] file gave [utime] and [stime]; when their sum is the tick
    count the previous sample recorded for its pid, the process is
    reported at 0 percent. *)
Theorem idle_process_reports_zero s gst e srt flt o ds p :
  proc_dir e = Some ds ->
  In p (listed (snd (sample s gst e srt flt o))) ->
  exists d st utime stime thr rss,
    In d ds /\ pd_stat d = Some st /\ st_comm st = Some (name p) /\
    st_scan st = Some (utime, stime, thr, rss) /\
    pid p = CStr.atoi (pd_name d) /\
    In (mkPidTicks (U64.add utime stime) (pid p))
       (prev_ticks (fst (fst (sample s gst e srt flt o)))) /\
    (find_prev_ticks (prev_ticks s) (pid p) = Some (U64.add utime stime) ->
     cpu_percent p = 0%Q).
Proof.
  intros D I.
  destruct (sample_listed_entry s gst e srt flt o ds p D I)
    as (d & st & ut & stm & thr & rss & Id & Es & En & Ec & Ep & It & C & _).
  exists d, st, ut, stm, thr, rss.
  split; [exact Id|]. split; [exact Es|]. split; [exact En|].
  split; [exact Ec|]. split; [exact Ep|]. split; [exact It|].
  intros U. rewrite C. unfold proc_cpu, prev_t_of. rewrite U.
  destruct (0 <? _); [|reflexivity].
  unfold U64.sub. rewrite Z.sub_diag. reflexivity.
Qed.

(** Pid 456 has used 800 + 400 ticks at both samples. *)
Lemma idle_process_reports_zero_witness :
  let p := mkProcessInfo 456 "late" 0%Q 40960 1 in
  In p (listed (snd FixtureFilter.still)) /\
  find_prev_ticks (prev_ticks (fst (fst (FixtureFilter.first Fixture.no_filter)))) 456
  = Some (U64.add 800 400) /\
  exists d st utime stime thr rss,
    In d [Fixture.proc "123" "worker" 600 400 1 10;
          Fixture.proc "456" "late" 800 400 1 10] /\ pd_stat d = Some st /\
    st_comm st = Some (name p) /\
    st_scan st = Some (utime, stime, thr, rss) /\
    pid p = CStr.atoi (pd_name d) /\
    In (mkPidTicks (U64.add utime stime) (pid p))
       (prev_ticks (fst (fst FixtureFilter.still))) /\
    (find_prev_ticks
       (prev_ticks (fst (fst (FixtureFilter.first Fixture.no_filter)))) (pid p)
     = Some (U64.add utime stime) -> cpu_percent p = 0%Q).
Proof.
  intros p. split; [vm_compute; auto|]. split; [vm_compute; reflexivity|].
  apply (idle_process_reports_zero
           (fst (fst (FixtureFilter.first Fixture.no_filter)))
           (snd (fst (FixtureFilter.first Fixture.no_filter)))
           FixtureFilter.e_still SORT_CPU Fixture.no_filter
           (snd (FixtureFilter.first Fixture.no_filter)) _ p).
  - reflexivity.
  - vm_compute. auto.
Defined.

(** X15.  A process listed by a sample but not by the sample before it,
    because it is new or because the filter hid it then, has no ticks on
    record: with [utime] and [stime] as its [stat] file gives them, it is
    charged [utime + stime], every tick it has used since it started,
    over the ticks of the one interval (so clearing a filter makes the
    processes it hid show their lifetime CPU time as a percentage). *)
Theorem hidden_process_charged_in_full s gst e1 e2 srt flt1 flt2 o ds1 ds2 p :
  proc_dir e1 = Some ds1 -> proc_dir e2 = Some ds2 ->
  let r1 := sample s gst e1 srt flt1 o in
  let r2 := sample (fst (fst r1)) (snd (fst r1)) e2 srt flt2 (snd r1) in
  let td := total_delta (read_cpu_times (stat_cpu e1))
                        (read_cpu_times (stat_cpu e2)) in
  In p (listed (snd r2)) ->
  ~ In (pid p) (map pid (listed (snd r1))) ->
  exists d st utime stime thr rss,
    In d ds2 /\ pd_stat d = Some st /\ st_comm st = Some (name p) /\
    st_scan st = Some (utime, stime, thr, rss) /\
    pid p = CStr.atoi (pd_name d) /\
    In (mkPidTicks (U64.add utime stime) (pid p)) (prev_ticks (fst (fst r2))) /\
    cpu_percent p
    = if 0 <? td
      then fdiv (fmul (of_int (U64.add utime stime)) 100%Q) (of_int td)
      else 0%Q.
Proof.
  intros D1 D2 r1 r2 td I N.
  destruct (sample_opened s gst e1 srt flt1 o ds1 D1) as (P1 & _ & T1 & C1).
  fold r1 in P1, T1, C1.
  destruct (sample_listed_entry (fst (fst r1)) (snd (fst r1)) e2 srt flt2 (snd r1)
              ds2 p D2 I)
    as (d & st & ut & stm & thr & rss & Id & Es & En & Ec & Ep & It & C & _).
  exists d, st, ut, stm, thr, rss.
  split; [exact Id|]. split; [exact Es|]. split; [exact En|].
  split; [exact Ec|]. split; [exact Ep|]. split; [exact It|].
  rewrite C, C1. fold td. unfold proc_cpu, prev_t_of.
  rewrite find_prev_ticks_None.
  - unfold U64.sub. rewrite Z.sub_0_r.
    rewrite wrap_small by (unfold U64.add; apply wrap_range). reflexivity.
  - intros M. apply N. unfold listed. rewrite P1.
    eapply Permutation_in; [|exact M].
    rewrite T1, proc_loop_pids. apply Permutation_map. symmetry.
    apply qsort_r_perm.
Qed.

(** Pid 456, hidden by the filter at the first sample, is listed at 300
    percent by the second: its 1200 ticks over the 400 of the interval. *)
Lemma hidden_process_charged_in_full_witness :
  let p := mkProcessInfo 456 "late" 300%Q 40960 1 in
  exists d st utime stime thr rss,
    In d Fixture.procs_late /\ pd_stat d = Some st /\
    st_comm st = Some (name p) /\
    st_scan st = Some (utime, stime, thr, rss) /\
    pid p = CStr.atoi (pd_name d) /\
    In (mkPidTicks (U64.add utime stime) (pid p))
       (prev_ticks (fst (fst (FixtureFilter.second "work" Fixture.no_filter)))) /\
    cpu_percent p
    = if 0 <? 400
      then fdiv (fmul (of_int (U64.add utime stime)) 100%Q) (of_int 400)
      else 0%Q.
Proof.
  intros p.
  exact (hidden_process_charged_in_full Fixture.fresh Gpu.init FixtureFilter.e1
           FixtureFilter.e2 SORT_CPU "work" Fixture.no_filter Main.initial_outs
           _ _ p eq_refl eq_refl
           ltac:(vm_compute; auto)
           ltac:(vm_compute; intros [H|[]]; discriminate H)).
Defined.

(* ------------------------------------------------------------------ *)
(** ** The network table and the memory figures *)

Lemma net_loop_cur prev elapsed lines : forall a,
  cur_net (fold_left (net_line prev elapsed) lines a) = cur_net a ++ recorded lines.
Proof.
  induction lines as [|l rest IH]; intros a; simpl.
  - rewrite app_nil_r. reflexivity.
  - rewrite IH. destruct l as [r|]; simpl.
    + destruct (String.eqb (nr_iface r) "lo"); simpl; [reflexivity|].
      destruct (best_total a <? row_total r); simpl; rewrite <- app_assoc;
        reflexivity.
    + reflexivity.
Qed.

(** X16.  Each call of [read_network] that can open [/proc/net/dev]
    replaces the table of previous counters wholesale: the new table
    holds one entry per parsed line other than [lo], in file order, with
    the counters just read, and nothing of the old table survives (an
    interface that is absent from one reading is seen as new at the
    next).  The rest of the sampler is untouched; when the file cannot be
    opened the table is kept. *)
Theorem net_table_is_replaced (s : Sampler) (lines : list (option NetRow))
    (elapsed : double) :
  prev_net (fst (read_network s (Some lines) elapsed)) = recorded lines /\
  fst (read_network s None elapsed) = s /\
  (forall f, let s' := fst (read_network s f elapsed) in
             prev_cpu s' = prev_cpu s /\ prev_ticks s' = prev_ticks s /\
             page_size s' = page_size s /\ last_sample s' = last_sample s /\
             v3d_stats s' = v3d_stats s).
Proof.
  split; [|split].
  - simpl. rewrite net_loop_cur. reflexivity.
  - reflexivity.
  - intros f. exact (read_network_keeps s f elapsed).
Qed.

(** The loop keeps the first interface whose total exceeds every total
    before it. *)
Lemma net_loop_first prev elapsed lines : forall a,
  let a' := fold_left (net_line prev elapsed) lines a in
  (best_total a' = best_total a /\ best a' = best a /\
   forall r, In (Some r) lines -> nr_iface r <> "lo"%string ->
             row_total r <= best_total a) \/
  (exists l1 w l2,
     lines = l1 ++ Some w :: l2 /\ nr_iface w <> "lo"%string /\
     best_total a < row_total w /\
     best_total a' = row_total w /\ best a' = row_snapshot prev elapsed w /\
     (forall r, In (Some r) l1 -> nr_iface r <> "lo"%string ->
                row_total r < row_total w) /\
     (forall r, In (Some r) l2 -> nr_iface r <> "lo"%string ->
                row_total r <= row_total w)).
Proof.
  induction lines as [|l rest IH]; intros a; cbn [fold_left].
  - left. split; [reflexivity|]. split; [reflexivity|]. intros r [].
  - assert (Skip : net_line prev elapsed a l = a \/
                   (best_total (net_line prev elapsed a l) = best_total a /\
                    best (net_line prev elapsed a l) = best a) ->
                   (forall r, l = Some r -> nr_iface r <> "lo"%string ->
                              row_total r <= best_total a) ->
                   let a' := fold_left (net_line prev elapsed) rest
                                       (net_line prev elapsed a l) in
                   (best_total a' = best_total a /\ best a' = best a /\
                    forall r, In (Some r) (l :: rest) -> nr_iface r <> "lo"%string ->
                              row_total r <= best_total a) \/
                   (exists l1 w l2,
                      l :: rest = l1 ++ Some w :: l2 /\ nr_iface w <> "lo"%string /\
                      best_total a < row_total w /\
                      best_total a' = row_total w /\
                      best a' = row_snapshot prev elapsed w /\
                      (forall r, In (Some r) l1 -> nr_iface r <> "lo"%string ->
                                 row_total r < row_total w) /\
                      (forall r, In (Some r) l2 -> nr_iface r <> "lo"%string ->
                                 row_total r <= row_total w))).
    { intros Same Low.
      assert (B : best_total (net_line prev elapsed a l) = best_total a /\
                  best (net_line prev elapsed a l) = best a).
      { destruct Same as [->|S]; auto. }
      destruct B as [B1 B2].
      destruct (IH (net_line prev elapsed a l))
        as [(E1 & E2 & L)|(l1 & w & l2 & E & N & G & T & S & L1 & L2)].
      - left. rewrite E1, E2, B1, B2. split; [reflexivity|].
        split; [reflexivity|].
        intros r [H|H] Nr; [apply Low; assumption|].
        rewrite <- B1. apply L; assumption.
      - right. exists (l :: l1), w, l2. split; [rewrite E; reflexivity|].
        split; [exact N|]. split; [lia|]. split; [exact T|].
        split; [exact S|]. split; [|exact L2].
        intros r [H|H] Nr; [|apply L1; assumption].
        specialize (Low r H Nr). lia. }
    destruct l as [r|]; [|apply Skip; [left; reflexivity | discriminate]].
    destruct (String.eqb (nr_iface r) "lo") eqn:Lo.
    + apply Skip.
      * left. simpl. rewrite Lo. reflexivity.
      * intros r' H Nr. injection H as <-. apply String.eqb_eq in Lo. contradiction.
    + destruct (best_total a <? row_total r) eqn:Gt.
      * apply Z.ltb_lt in Gt. right.
        assert (Step : net_line prev elapsed a (Some r)
                       = mkNetAcc (cur_net a ++ [mkNetStats (nr_iface r) (nr_rx r)
                                                            (nr_tx r)])
                                  (row_total r) (row_snapshot prev elapsed r)).
        { simpl. rewrite Lo. apply Z.ltb_lt in Gt. rewrite Gt. reflexivity. }
        apply String.eqb_neq in Lo.
        destruct (IH (net_line prev elapsed a (Some r)))
          as [(E1 & E2 & L)|(l1 & w & l2 & E & N & G & T & S & L1 & L2)];
          rewrite Step in *; simpl in *.
        -- exists [], r, rest. repeat split; auto.
           intros r' [].
        -- exists (Some r :: l1), w, l2. split; [rewrite E; reflexivity|].
           repeat split; auto; try lia.
           intros r' [H|H] Nr; [injection H as <-; exact G|].
           apply L1; assumption.
      * apply Skip.
        -- right. simpl. rewrite Lo, Gt. split; reflexivity.
        -- intros r' H Nr. injection H as <-. apply Z.ltb_ge in Gt. exact Gt.
Qed.

(** X17.  Among the interfaces other than [lo], the one shown is the
    first in file order whose cumulative [rx + tx] is the greatest: every
    interface listed before it has a strictly smaller total and none
    listed after it has a greater one.  When every total is 0 the
    placeholder is shown. *)
Theorem first_busiest_interface_wins (s : Sampler) (lines : list (option NetRow))
    (elapsed : double) :
  let snap := snd (read_network s (Some lines) elapsed) in
  (snap = default_net /\
   forall r, In (Some r) lines -> nr_iface r <> "lo"%string -> row_total r = 0) \/
  (exists l1 w l2,
     lines = l1 ++ Some w :: l2 /\ nr_iface w <> "lo"%string /\
     0 < row_total w /\ snap = row_snapshot (prev_net s) elapsed w /\
     (forall r, In (Some r) l1 -> nr_iface r <> "lo"%string ->
                row_total r < row_total w) /\
     (forall r, In (Some r) l2 -> nr_iface r <> "lo"%string ->
                row_total r <= row_total w)).
Proof.
  cbv zeta. cbn [read_network snd].
  destruct (net_loop_first (prev_net s) elapsed lines (mkNetAcc [] 0 default_net))
    as [(E1 & E2 & L)|(l1 & w & l2 & E & N & G & T & S & L1 & L2)];
    cbn [best_total best] in *.
  - left. split; [exact E2|]. intros r I Nr.
    pose proof (L r I Nr). pose proof (row_total_nonneg r). lia.
  - right. exists l1, w, l2. auto 10.
Qed.

(** *** [/proc/meminfo] *)

(** Two prefixes of one string are prefixes of one another. *)
Lemma prefix_comparable : forall k1 k2 t,
  String.prefix k1 t = true -> String.prefix k2 t = true ->
  String.prefix k1 k2 = true \/ String.prefix k2 k1 = true.
Proof.
  induction k1 as [|a k1 IH]; intros k2 t H1 H2.
  - left. destruct k2; reflexivity.
  - destruct k2 as [|b k2]; [right; reflexivity|].
    destruct t as [|c t]; simpl in *; [discriminate|].
    destruct (ascii_dec a c); [|discriminate].
    destruct (ascii_dec b c); [|discriminate]. subst.
    destruct (ascii_dec c c); [|contradiction].
    destruct (IH k2 t H1 H2); auto.
Qed.

Lemma starts_with_exclusive (t k1 k2 : string) :
  String.prefix k1 k2 = false -> String.prefix k2 k1 = false ->
  CStr.starts_with t k1 = true -> CStr.starts_with t k2 = false.
Proof.
  unfold CStr.starts_with. intros N1 N2 H1.
  destruct (String.prefix k2 t) eqn:H2; [|reflexivity].
  destruct (prefix_comparable k1 k2 t H1 H2); congruence.
Qed.

(** The six keys are tested one after the other; as no key is a prefix
    of another, each variable follows its own key. *)
Lemma mem_line_by_key (v : MemVars) (l : MemLine) :
  mem_line v l =
  mkMemVars (key_step "MemTotal:" (mv_total v) l)
            (key_step "MemAvailable:" (mv_avail v) l)
            (key_step "SwapTotal:" (mv_s_total v) l)
            (key_step "SwapFree:" (mv_s_free v) l)
            (key_step "CmaTotal:" (mv_cma_total v) l)
            (key_step "CmaFree:" (mv_cma_free v) l).
Proof.
  unfold mem_line, key_step. cbv zeta.
  repeat match goal with
         | |- context [if CStr.starts_with (ml_text l) ?k then _ else _] =>
             lazymatch goal with
             | H : CStr.starts_with (ml_text l) k = _ |- _ => fail
             | _ => idtac
             end;
             destruct (CStr.starts_with (ml_text l) k) eqn:?
         end;
    try (destruct v; reflexivity);
    exfalso;
    match goal with
    | H1 : CStr.starts_with (ml_text l) ?k1 = true,
      H2 : CStr.starts_with (ml_text l) ?k2 = true |- _ =>
        lazymatch k1 with
        | k2 => fail
        | _ => pose proof (starts_with_exclusive (ml_text l) k1 k2
                             eq_refl eq_refl H1); congruence
        end
    end.
Qed.

Lemma mem_loop_by_key (lines : list MemLine) : forall v,
  fold_left mem_line lines v =
  mkMemVars (fold_left (key_step "MemTotal:") lines (mv_total v))
            (fold_left (key_step "MemAvailable:") lines (mv_avail v))
            (fold_left (key_step "SwapTotal:") lines (mv_s_total v))
            (fold_left (key_step "SwapFree:") lines (mv_s_free v))
            (fold_left (key_step "CmaTotal:") lines (mv_cma_total v))
            (fold_left (key_step "CmaFree:") lines (mv_cma_free v)).
Proof.
  induction lines as [|l rest IH]; intros v; cbn [fold_left].
  - destruct v; reflexivity.
  - rewrite IH, mem_line_by_key. reflexivity.
Qed.

Lemma read_memory_by_key (lines : list MemLine) :
  let v := fold_left mem_line lines (mkMemVars 0 0 0 0 0 0) in
  mv_total v = last_value "MemTotal:" lines /\
  mv_avail v = last_value "MemAvailable:" lines /\
  mv_s_total v = last_value "SwapTotal:" lines /\
  mv_s_free v = last_value "SwapFree:" lines /\
  mv_cma_total v = last_value "CmaTotal:" lines /\
  mv_cma_free v = last_value "CmaFree:" lines.
Proof. cbv zeta. rewrite mem_loop_by_key. repeat split. Qed.

(** X18.  Every figure of [read_memory] comes from the last line of
    [/proc/meminfo] that starts with its key and carries a number: lines
    with other keys, lines without a number and the order of the keys do
    not matter, and a key that never appears counts as 0.  Used memory is
    [MemTotal - MemAvailable], used swap [SwapTotal - SwapFree] and used
    CMA [CmaTotal - CmaFree], each times 1024 in unsigned 64-bit
    arithmetic. *)
Theorem meminfo_last_value_wins (lines : list MemLine) :
  read_memory (Some lines) =
  mkMemorySnapshot
    (U64.mul (U64.sub (last_value "MemTotal:" lines)
                      (last_value "MemAvailable:" lines)) 1024)
    (U64.mul (last_value "MemTotal:" lines) 1024)
    (U64.mul (U64.sub (last_value "SwapTotal:" lines)
                      (last_value "SwapFree:" lines)) 1024)
    (U64.mul (last_value "SwapTotal:" lines) 1024)
    (U64.mul (U64.sub (last_value "CmaTotal:" lines)
                      (last_value "CmaFree:" lines)) 1024)
    (U64.mul (last_value "CmaTotal:" lines) 1024).
Proof.
  unfold read_memory. cbv zeta.
  destruct (read_memory_by_key lines) as (E1 & E2 & E3 & E4 & E5 & E6).
  cbv zeta in E1, E2, E3, E4, E5, E6. rewrite E1, E2, E3, E4, E5, E6. reflexivity.
Qed.

(** The bytes of a pair of figures that does not wrap. *)
Lemma kb_pair_exact (t f : Z) :
  0 <= f <= t -> t < 2 ^ 54 ->
  U64.mul (U64.sub t f) 1024 = (t - f) * 1024 /\
  U64.mul t 1024 = t * 1024 /\
  0 <= U64.mul (U64.sub t f) 1024 <= U64.mul t 1024.
Proof. intros R B. unfold U64.mul, U64.sub. unwrap. lia. Qed.

(** X19.  When [MemAvailable] does not exceed [MemTotal] and the total is
    below 2^54 kB, nothing wraps: the byte counts are the exact products
    by 1024 and used memory does not exceed the total.  The same holds of
    swap ([SwapFree], [SwapTotal]) and of CMA ([CmaFree], [CmaTotal]). *)
Theorem memory_used_within_total (lines : list MemLine) :
  let m := read_memory (Some lines) in
  let v (key : string) := last_value key lines in
  (0 <= v "MemAvailable:"%string <= v "MemTotal:"%string ->
   v "MemTotal:"%string < 2 ^ 54 ->
   used_bytes m = (v "MemTotal:"%string - v "MemAvailable:"%string) * 1024 /\
   total_bytes m = v "MemTotal:"%string * 1024 /\
   0 <= used_bytes m <= total_bytes m) /\
  (0 <= v "SwapFree:"%string <= v "SwapTotal:"%string ->
   v "SwapTotal:"%string < 2 ^ 54 ->
   swap_used_bytes m = (v "SwapTotal:"%string - v "SwapFree:"%string) * 1024 /\
   swap_total_bytes m = v "SwapTotal:"%string * 1024 /\
   0 <= swap_used_bytes m <= swap_total_bytes m) /\
  (0 <= v "CmaFree:"%string <= v "CmaTotal:"%string ->
   v "CmaTotal:"%string < 2 ^ 54 ->
   cma_used_bytes m = (v "CmaTotal:"%string - v "CmaFree:"%string) * 1024 /\
   cma_total_bytes m = v "CmaTotal:"%string * 1024 /\
   0 <= cma_used_bytes m <= cma_total_bytes m).
Proof.
  cbv zeta. unfold read_memory. cbv zeta.
  destruct (read_memory_by_key lines) as (E1 & E2 & E3 & E4 & E5 & E6).
  cbv zeta in E1, E2, E3, E4, E5, E6. rewrite E1, E2, E3, E4, E5, E6.
  cbn [used_bytes total_bytes swap_used_bytes swap_total_bytes cma_used_bytes
       cma_total_bytes].
  split; [|split]; intros R B;
    destruct (kb_pair_exact _ _ R B) as (U & A & L);
    (split; [exact U|split; [exact A|exact L]]).
Qed.

Lemma memory_used_within_total_witness :
  used_bytes (read_memory (Some FixtureMem.lines)) = (8000000 - 4000000) * 1024 /\
  total_bytes (read_memory (Some FixtureMem.lines)) = 8000000 * 1024.
Proof.
  destruct (proj1 (memory_used_within_total FixtureMem.lines)
              ltac:(vm_compute; split; discriminate)
              ltac:(vm_compute; reflexivity)) as (U & A & _).
  split; [exact U | exact A].
Defined.

(* ------------------------------------------------------------------ *)
(** ** The GPU cascade *)

Section Cascade.
Import Gpu.

Lemma nv_tokens_tail (r : list NvToken) : forall g n,
  (1 <= n)%nat ->
  usage (nv_tokens g n r) = usage g /\
  has_usage (nv_tokens g n r) = has_usage g.
Proof.
  induction r as [|t r IH]; intros g n H; simpl; [split; reflexivity|].
  destruct (IH (nv_field g n t) (S n) ltac:(lia)) as [A B]. rewrite A, B.
  destruct n as [|[|[|[|n]]]]; [lia| | | |]; split; reflexivity.
Qed.

(** The usage of a snapshot after the whole line of [nvidia-smi]. *)
Lemma nv_tokens_usage (ts : list NvToken) :
  match ts with
  | [] => nv_tokens blank 0 ts = blank
  | t :: _ => has_usage (nv_tokens blank 0 ts) = true /\
              usage (nv_tokens blank 0 ts) = tok_f t
  end.
Proof.
  destruct ts as [|t r]; [reflexivity|]. cbn [nv_tokens].
  destruct (nv_tokens_tail r (nv_field blank 0 t) 1 ltac:(lia)) as [A B].
  rewrite A, B. split; reflexivity.
Qed.

(** X20.  When [nvidia-smi] answers with a line that holds at least one
    token, a probing call looks no further: the snapshot is named
    ["NVIDIA GPU"], its usage is the first token, no other backend is
    consulted and the V3D queue table is left as it was. *)
Theorem nvidia_answers_first (st : statics) (s : Sampler) (mem : MemorySnapshot)
    (e : Env) (t : NvToken) (ts : list NvToken) :
  cache_fresh st e = false ->
  nvidia_smi e = Some (t :: ts) ->
  exists g,
    read_gpu st s mem e = (mkStatics g (now e), with_v3d s (v3d_stats s), g, [BNvidia]) /\
    g_name g = "NVIDIA GPU"%string /\ has_usage g = true /\ usage g = tok_f t /\
    (has_mem g = true <-> ts <> []).
Proof.
  intros F N. unfold read_gpu, probe. rewrite F, N. cbv zeta.
  destruct (nv_tokens_usage (t :: ts)) as [H U]. rewrite H.
  eexists. split; [reflexivity|]. split; [reflexivity|].
  split; [exact H|]. split; [exact U|].
  cbn [set_name has_mem]. destruct ts as [|t1 r]; simpl.
  - split; [discriminate|congruence].
  - split; [discriminate|]. intros _.
    assert (K : forall r g n, has_mem g = true -> has_mem (nv_tokens g n r) = true).
    { clear. induction r as [|t r IH]; intros g n H; simpl; [exact H|].
      apply IH. destruct n as [|[|[|[|n]]]]; simpl; auto. }
    apply K. reflexivity.
Qed.

Lemma nvidia_answers_first_witness :
  exists g,
    FixtureGpu.call1
    = (mkStatics g (mkTimeval 1000 0),
       with_v3d Fixture.fresh (v3d_stats Fixture.fresh), g, [BNvidia]) /\
    g_name g = "NVIDIA GPU"%string /\ has_usage g = true /\ usage g = 10%Q /\
    (has_mem g = true <-> tl (FixtureGpu.nv_line 10%Q) <> []).
Proof.
  exact (nvidia_answers_first init Fixture.fresh zero_mem FixtureGpu.e1
           (mkNvToken 10%Q 0) (tl (FixtureGpu.nv_line 10%Q)) eq_refl eq_refl).
Defined.

(** *** Which backend answered *)

Lemma thermal_temp_usage g e : has_usage (thermal_temp g e) = has_usage g.
Proof. unfold thermal_temp. destruct (thermal_zone0 e); reflexivity. Qed.

Lemma drm_loop_flag mem e entries : forall tbl g,
  has_usage g = false ->
  has_usage (snd (fst (drm_loop mem e tbl g entries)))
  = snd (drm_loop mem e tbl g entries).
Proof.
  induction entries as [|c r IH]; intros tbl g H; simpl; [exact H|].
  destruct (is_card (d_name c)); [|apply IH, H].
  destruct (drm_card mem e tbl g c) as [tbl' g'].
  destruct (has_usage g') eqn:U; [exact U|apply IH, U].
Qed.

Lemma adreno_usage g e r : adreno g e = Some r -> has_usage r = true.
Proof.
  unfold adreno, adreno_result.
  destruct (kgsl_busy_percentage e).
  - intros H. injection H as <-. rewrite thermal_temp_usage. reflexivity.
  - destruct (kgsl_gpubusy e); [|discriminate].
    destruct (fgtb _ _); [|discriminate].
    intros H. injection H as <-. rewrite thermal_temp_usage. reflexivity.
Qed.

Lemma devfreq_result_usage g e n v : has_usage (devfreq_result g e n v) = true.
Proof.
  unfold devfreq_result. cbv zeta.
  repeat match goal with |- context [if ?b then _ else _] => destruct b end;
    rewrite ?thermal_temp_usage; reflexivity.
Qed.

Lemma devfreq_dir_usage g e es r : devfreq_dir g e es = Some r -> has_usage r = true.
Proof.
  induction es as [|d rest IH]; simpl; [discriminate|].
  destruct (devfreq_match (df_name d)); [|exact IH].
  destruct (df_load d); [|exact IH].
  intros H. injection H as <-. apply devfreq_result_usage.
Qed.

Lemma devfreq_usage g e r : devfreq g e = Some r -> has_usage r = true.
Proof.
  unfold devfreq.
  destruct (devfreq_class e) as [es|].
  - destruct (devfreq_dir g e es) eqn:D.
    + intros H. injection H as <-. eapply devfreq_dir_usage, D.
    + destruct (devfreq_soc e) as [es'|]; [apply devfreq_dir_usage|discriminate].
  - destruct (devfreq_soc e) as [es'|]; [apply devfreq_dir_usage|discriminate].
Qed.

Lemma fallback_usage g mem e : has_usage (fallback g mem e) = has_usage g.
Proof.
  unfold fallback. destruct (_ && _); [|reflexivity].
  destruct (has_temp _); rewrite ?thermal_temp_usage; reflexivity.
Qed.

Lemma fallback_idle g mem e : usage (fallback g mem e) = usage g.
Proof.
  unfold fallback, thermal_temp. destruct (_ && _); [|reflexivity].
  destruct (has_temp _); [reflexivity|]. destruct (thermal_zone0 e); reflexivity.
Qed.

Lemma drm_loop_idle mem e entries : forall tbl g,
  has_usage g = false -> usage g = 0%Q ->
  snd (drm_loop mem e tbl g entries) = false ->
  usage (snd (fst (drm_loop mem e tbl g entries))) = 0%Q.
Proof.
  induction entries as [|c r IH]; intros tbl g H U; simpl; [intros _; exact U|].
  destruct (is_card (d_name c)); [|apply IH; assumption].
  pose proof (drm_card_idle mem e tbl g c H U) as I.
  destruct (drm_card mem e tbl g c) as [tbl' g']. simpl in I.
  destruct (has_usage g') eqn:U'; [discriminate|]. apply IH; auto.
Qed.

Section AnswerSigns.
Local Open Scope Q_scope.

(** The ratio [busy * 100 / total] of [gpubusy] is positive exactly when
    the busy count is. *)
Lemma busy_ratio_positive (busy total : Z) :
  (0 < total)%Z ->
  fgtb (fdiv (fmul (of_int busy) 100) (of_int total)) 0 = (0 <? busy)%Z.
Proof.
  intros T.
  assert (Pt : 0 < of_int total).
  { apply rnd_sign_pos. change 0 with (inject_Z 0). rewrite <- Zlt_Qlt. exact T. }
  destruct (Z.ltb_spec 0 busy) as [B|B].
  - apply fgtb_true.
    assert (Pb : 0 < of_int busy).
    { apply rnd_sign_pos. change 0 with (inject_Z 0). rewrite <- Zlt_Qlt. exact B. }
    assert (Pm : 0 < fmul (of_int busy) 100).
    { apply rnd_sign_pos. apply Qmult_lt_0_compat; [exact Pb|reflexivity]. }
    apply rnd_sign_pos. apply Qlt_shift_div_l; [exact Pt|]. lra.
  - apply fgtb_false.
    assert (Nb : of_int busy <= 0).
    { rewrite <- rnd_zero. apply rnd_mono. change 0 with (inject_Z 0).
      rewrite <- Zle_Qle. exact B. }
    assert (Nm : fmul (of_int busy) 100 <= 0).
    { rewrite <- rnd_zero. apply rnd_mono. lra. }
    rewrite <- rnd_zero. apply rnd_mono.
    apply Qle_shift_div_r; [exact Pt|]. lra.
Qed.

End AnswerSigns.

Lemma thermal_temp_name g e : g_name (thermal_temp g e) = g_name g.
Proof. unfold thermal_temp. destruct (thermal_zone0 e); reflexivity. Qed.

Lemma thermal_temp_value g e : usage (thermal_temp g e) = usage g.
Proof. unfold thermal_temp. destruct (thermal_zone0 e); reflexivity. Qed.

(** When the Adreno step returns, and under which name. *)
Lemma adreno_spec g e :
  match adreno g e with
  | Some r => adreno_answers e = true /\ g_name r = "Adreno GPU"%string /\
              has_usage r = true
  | None => adreno_answers e = false
  end.
Proof.
  unfold adreno, adreno_answers, adreno_result.
  destruct (kgsl_busy_percentage e) as [r|].
  - rewrite thermal_temp_name, thermal_temp_usage. auto.
  - destruct (kgsl_gpubusy e) as [[[busy total]|]|]; [| |reflexivity].
    + destruct (Z.ltb_spec 0 total) as [T|T].
      * rewrite (busy_ratio_positive busy total T). cbn [andb].
        destruct (0 <? busy); [|reflexivity].
        rewrite thermal_temp_name, thermal_temp_usage. auto.
      * cbn [andb]. reflexivity.
    + reflexivity.
Qed.

Lemma devfreq_result_value g e n v : usage (devfreq_result g e n v) = v.
Proof.
  unfold devfreq_result. cbv zeta.
  repeat match goal with |- context [if ?b then _ else _] => destruct b end;
    rewrite ?thermal_temp_value; reflexivity.
Qed.

Lemma devfreq_dir_spec g e es :
  match devfreq_dir g e es with
  | Some r => first_load es = Some (usage r) /\ has_usage r = true
  | None => first_load es = None
  end.
Proof.
  unfold first_load.
  induction es as [|d rest IH]; cbn [devfreq_dir find]; [reflexivity|].
  destruct (devfreq_match (df_name d)); cbn [andb]; [|exact IH].
  destruct (df_load d) as [v|] eqn:L; [|exact IH].
  rewrite L, devfreq_result_value, devfreq_result_usage. auto.
Qed.

Lemma devfreq_spec g e :
  match devfreq g e with
  | Some r => devfreq_first_load e = Some (usage r) /\ has_usage r = true
  | None => devfreq_first_load e = None
  end.
Proof.
  unfold devfreq, devfreq_first_load.
  destruct (devfreq_class e) as [es|].
  - pose proof (devfreq_dir_spec g e es) as A.
    destruct (devfreq_dir g e es) as [r|].
    + destruct A as [A1 A2]. rewrite A1. auto.
    + rewrite A. destruct (devfreq_soc e) as [es'|]; [|reflexivity].
      apply devfreq_dir_spec.
  - destruct (devfreq_soc e) as [es'|]; [|reflexivity].
    apply devfreq_dir_spec.
Qed.

(** X21.  When [nvidia-smi] gives no token, a call that probes scans
    [/sys/class/drm]; when a card answers, the snapshot is that of the
    scan, whatever the kgsl and devfreq files hold.  Otherwise the kgsl
    files are tried (the snapshot is then named Adreno), then devfreq
    (the usage is the first matching load), then the last resort, which
    never sets a usage.  The snapshot has a usage exactly when the scan,
    the kgsl files or devfreq answered; when none did its usage is 0. *)
Theorem gpu_usage_iff_backend_found (st : statics) (s : Sampler)
    (mem : MemorySnapshot) (e : Env) :
  cache_fresh st e = false ->
  nvidia_smi e = None \/ nvidia_smi e = Some [] ->
  let scan := match drm e with
              | Some entries => drm_loop mem e (v3d_stats s) blank entries
              | None => (v3d_stats s, blank, false)
              end in
  let g1 := snd (fst scan) in
  let '(_, s', g, _) := read_gpu st s mem e in
  v3d_stats s' = fst (fst scan) /\
  (has_usage g = true <->
   snd scan = true \/ adreno_answers e = true \/ devfreq_answers e = true) /\
  (snd scan = true -> g = g1) /\
  (snd scan = false -> adreno_answers e = true ->
   g_name g = "Adreno GPU"%string) /\
  (snd scan = false -> adreno_answers e = false ->
   forall v, devfreq_first_load e = Some v -> usage g = v) /\
  (snd scan = false -> adreno_answers e = false -> devfreq_answers e = false ->
   g = fallback g1 mem e /\ has_usage g = false /\ usage g = 0%Q).
Proof.
  intros F N scan g1. unfold read_gpu, probe. rewrite F. cbv zeta.
  assert (Nv : match nvidia_smi e with
               | Some ts => nv_tokens blank 0 ts
               | None => blank
               end = blank) by (destruct N as [-> | ->]; reflexivity).
  rewrite Nv. cbn [has_usage blank]. fold scan.
  assert (D : has_usage (snd (fst scan)) = snd scan /\
              (snd scan = false -> usage (snd (fst scan)) = 0%Q)).
  { subst scan. destruct (drm e) as [entries|].
    - split; [apply drm_loop_flag; reflexivity|].
      apply drm_loop_idle; reflexivity.
    - split; [reflexivity|]. intros _. reflexivity. }
  fold g1 in D. clearbody scan. destruct scan as [[tbl1 gs] ret].
  cbn [fst snd] in *. subst g1. destruct D as [D1 D2].
  unfold devfreq_answers.
  destruct ret.
  - cbn [with_v3d v3d_stats]. split; [reflexivity|].
    split; [split; [auto|intros _; exact D1]|].
    split; [reflexivity|]. repeat split; discriminate.
  - specialize (D2 eq_refl).
    pose proof (adreno_spec gs e) as A.
    destruct (adreno gs e) as [r|].
    + destruct A as (A1 & A2 & A3). cbn [with_v3d v3d_stats].
      split; [reflexivity|]. split; [split; [auto|intros _; exact A3]|].
      split; [discriminate|]. split; [intros _ _; exact A2|].
      split; intros _ A; rewrite A1 in A; discriminate A.
    + pose proof (devfreq_spec gs e) as V.
      destruct (devfreq gs e) as [r|].
      * destruct V as (V1 & V2). cbn [with_v3d v3d_stats].
        split; [reflexivity|]. rewrite V1.
        split; [split; [auto|intros _; exact V2]|].
        split; [discriminate|]. split; [intros _ B; rewrite A in B; discriminate B|].
        split; [intros _ _ v E; injection E as <-; reflexivity|].
        intros _ _ B. discriminate B.
      * cbn [with_v3d v3d_stats]. split; [reflexivity|]. rewrite V, A.
        rewrite fallback_usage, fallback_idle, D1.
        split; [split; [discriminate|intros [H|[H|H]]; discriminate H]|].
        split; [discriminate|]. split; [discriminate|].
        split; [intros _ _ v E; discriminate E|]. auto.
Qed.

Lemma gpu_usage_iff_backend_found_witness :
  let '(_, _, g, _) := read_gpu init Fixture.fresh zero_mem FixtureDrm.phone in
  has_usage g = true /\ g_name g = "Adreno GPU"%string.
Proof.
  pose proof (gpu_usage_iff_backend_found init Fixture.fresh zero_mem
                FixtureDrm.phone eq_refl (or_introl eq_refl)) as H.
  cbv zeta in H.
  destruct (read_gpu init Fixture.fresh zero_mem FixtureDrm.phone)
    as [[[st' s'] g] log].
  destruct H as (_ & U & _ & A & _).
  split; [apply U; right; left; reflexivity|].
  apply A; reflexivity.
Defined.

(** *** The DRM directory *)

Lemma drm_loop_cards mem e entries : forall tbl g,
  drm_loop mem e tbl g entries
  = drm_loop mem e tbl g (filter (fun c => is_card (d_name c)) entries).
Proof.
  induction entries as [|c r IH]; intros tbl g; simpl; [reflexivity|].
  destruct (is_card (d_name c)) eqn:C; simpl; [|apply IH].
  rewrite C. destruct (drm_card mem e tbl g c) as [tbl' g'].
  destruct (has_usage g'); [reflexivity|apply IH].
Qed.

Lemma drm_loop_stops mem e l1 l2 : forall tbl g,
  snd (drm_loop mem e tbl g l1) = true ->
  drm_loop mem e tbl g (l1 ++ l2) = drm_loop mem e tbl g l1.
Proof.
  induction l1 as [|c r IH]; intros tbl g; simpl; [discriminate|].
  destruct (is_card (d_name c)); [|apply IH].
  destruct (drm_card mem e tbl g c) as [tbl' g'].
  destruct (has_usage g'); [reflexivity|apply IH].
Qed.

(** X22.  The scan of [/sys/class/drm] reads cards only, and stops at the
    first card that yields a usage: entries whose name does not start
    with ["card"] or holds a ['-'] (connectors, render nodes) change
    nothing, and nothing listed after the card that answered is read. *)
Theorem drm_scan_stops_at_first_usage (mem : MemorySnapshot) (e : Env)
    (tbl : list V3dStats) (g : GpuSnapshot) (l1 l2 : list DrmEntry) :
  snd (drm_loop mem e tbl g l1) = true ->
  drm_loop mem e tbl g (l1 ++ l2) = drm_loop mem e tbl g l1 /\
  drm_loop mem e tbl g l1
  = drm_loop mem e tbl g (filter (fun c => is_card (d_name c)) l1) /\
  has_usage (snd (fst (drm_loop mem e tbl g l1))) = true.
Proof.
  intros R. split; [apply drm_loop_stops, R|]. split; [apply drm_loop_cards|].
  revert tbl g R. induction l1 as [|c r IH]; intros tbl g; simpl; [discriminate|].
  destruct (is_card (d_name c)); [|apply IH].
  destruct (drm_card mem e tbl g c) as [tbl' g'].
  destruct (has_usage g') eqn:U; [intros _; exact U|apply IH].
Qed.

Lemma drm_scan_stops_at_first_usage_witness :
  drm_loop zero_mem (Fixture.no_gpu (Fixture.at_sec 1000)) [] blank
           (FixtureDrm.scan ++ FixtureDrm.later)
  = drm_loop zero_mem (Fixture.no_gpu (Fixture.at_sec 1000)) [] blank
             FixtureDrm.scan /\
  usage (snd (fst (drm_loop zero_mem (Fixture.no_gpu (Fixture.at_sec 1000)) []
                            blank FixtureDrm.scan))) = 42%Q.
Proof.
  split; [|reflexivity].
  exact (proj1 (drm_scan_stops_at_first_usage zero_mem
                  (Fixture.no_gpu (Fixture.at_sec 1000)) [] blank
                  FixtureDrm.scan FixtureDrm.later eq_refl)).
Defined.

(** *** The queue table *)

Lemma queues_extend_refl tbl : queues_extend tbl tbl.
Proof. split; [exists []; rewrite app_nil_r; reflexivity|auto]. Qed.

Lemma queues_extend_trans t1 t2 t3 :
  queues_extend t1 t2 -> queues_extend t2 t3 -> queues_extend t1 t3.
Proof.
  intros [[x1 E1] N1] [[x2 E2] N2]. split; [|auto].
  exists (x1 ++ x2). rewrite E2, E1, app_assoc. reflexivity.
Qed.

Lemma v3d_find_None (tbl : list V3dStats) (q : string) :
  v3d_find tbl q = None -> ~ In q (map queue tbl).
Proof.
  induction tbl as [|x r IH]; simpl; [auto|].
  destruct (String.eqb_spec (queue x) q) as [E|E]; [discriminate|].
  destruct (v3d_find r q); simpl; [discriminate|].
  intros _ [H|H]; [auto|exact (IH eq_refl H)].
Qed.

Lemma v3d_set_queues (tbl : list V3dStats) : forall i ts rt,
  map queue (v3d_set tbl i (mkV3dStats (queue (nth i tbl v3d_dflt)) ts rt))
  = map queue tbl.
Proof.
  induction tbl as [|x r IH]; intros [|i] ts rt; simpl; try reflexivity.
  rewrite IH. reflexivity.
Qed.

Lemma v3d_line_queues tbl g line :
  queues_extend tbl (fst (v3d_line (tbl, g) line)).
Proof.
  unfold v3d_line. destruct line as [r|]; [|apply queues_extend_refl].
  destruct (v3d_find tbl (vr_queue r)) as [i|] eqn:F.
  - unfold queues_extend. cbn [fst]. split; rewrite v3d_set_queues;
      [exists []; rewrite app_nil_r; reflexivity|auto].
  - destruct (List.length tbl <? 16)%nat; [|apply queues_extend_refl].
    unfold queues_extend. cbn [fst]. rewrite map_app. cbn [map queue].
    split; [eauto|].
    intros N. apply NoDup_app; [exact N|constructor; [intros []|constructor]|].
    intros q I [<-|[]]. exact (v3d_find_None _ _ F I).
Qed.

Lemma v3d_file_queues lines : forall tbl g,
  queues_extend tbl (fst (v3d_file tbl g lines)).
Proof.
  unfold v3d_file.
  induction lines as [|l rest IH]; intros tbl g; cbn [fold_left];
    [apply queues_extend_refl|].
  pose proof (v3d_line_queues tbl g l) as H.
  destruct (v3d_line (tbl, g) l) as [tbl1 g1]. cbn [fst] in H.
  eapply queues_extend_trans; [exact H|apply IH].
Qed.

Lemma drm_card_queues mem e tbl g c :
  queues_extend tbl (fst (drm_card mem e tbl g c)).
Proof.
  unfold drm_card. destruct (card_usage g c) as [g1 [|]];
    [apply queues_extend_refl|].
  destruct (card_stats_file c) as [lines|]; [|apply queues_extend_refl].
  pose proof (v3d_file_queues lines tbl g1) as H.
  destruct (v3d_file tbl g1 lines). exact H.
Qed.

Lemma drm_loop_queues mem e entries : forall tbl g,
  queues_extend tbl (fst (fst (drm_loop mem e tbl g entries))).
Proof.
  induction entries as [|c r IH]; intros tbl g; simpl;
    [apply queues_extend_refl|].
  destruct (is_card (d_name c)); [|apply IH].
  pose proof (drm_card_queues mem e tbl g c) as H.
  destruct (drm_card mem e tbl g c) as [tbl' g']. cbn [fst] in H.
  destruct (has_usage g'); [exact H|].
  eapply queues_extend_trans; [exact H|apply IH].
Qed.

Lemma probe_queues tbl mem e : queues_extend tbl (fst (fst (probe tbl mem e))).
Proof.
  unfold probe. cbv zeta.
  destruct (has_usage _); [apply queues_extend_refl|].
  match goal with
  | |- context [match drm e with Some _ => _ | None => ?d end] =>
      assert (D : queues_extend tbl
                    (fst (fst match drm e with
                              | Some entries => drm_loop mem e tbl (snd (fst d)) entries
                              | None => d
                              end)))
  end.
  { destruct (drm e); [apply drm_loop_queues|apply queues_extend_refl]. }
  cbn [fst snd] in D.
  destruct (match drm e with Some _ => _ | None => _ end) as [[tbl1 g1] ret].
  cbn [fst] in D. destruct ret; [exact D|].
  destruct (adreno g1 e); [exact D|]. destruct (devfreq g1 e); exact D.
Qed.

(** X23.  Across any call of [read_gpu] the V3D table only grows at its
    end: a queue, once tracked, keeps its slot and its name, so the
    readings compared at the next probe are those of the same queue, and
    no queue is ever tracked twice. *)
Theorem v3d_queues_keep_their_slots (st : statics) (s : Sampler)
    (mem : MemorySnapshot) (e : Env) :
  let s' := snd (fst (fst (read_gpu st s mem e))) in
  (exists extra,
     map queue (v3d_stats s') = map queue (v3d_stats s) ++ extra) /\
  (NoDup (map queue (v3d_stats s)) -> NoDup (map queue (v3d_stats s'))) /\
  (forall q i, v3d_find (v3d_stats s) q = Some i ->
               v3d_find (v3d_stats s') q = Some i).
Proof.
  cbv zeta.
  assert (Q : queues_extend (v3d_stats s)
                (v3d_stats (snd (fst (fst (read_gpu st s mem e)))))).
  { unfold read_gpu. destruct (cache_fresh st e); [apply queues_extend_refl|].
    pose proof (probe_queues (v3d_stats s) mem e) as P.
    destruct (probe (v3d_stats s) mem e) as [[tbl g] log]. exact P. }
  destruct Q as [[extra E] N]. split; [eauto|]. split; [exact N|].
  intros q i F.
  assert (K : forall (t1 t2 : list V3dStats) x k,
             map queue t2 = map queue t1 ++ x ->
             v3d_find t1 q = Some k -> v3d_find t2 q = Some k).
  { clear. induction t1 as [|a r IH]; intros t2 x k M; simpl; [discriminate|].
    destruct t2 as [|b r2]; [discriminate|]. simpl in M.
    injection M as Mq Mr. simpl. rewrite Mq.
    destruct (String.eqb (queue a) q); [auto|].
    destruct (v3d_find r q) as [j|] eqn:Fr; [|discriminate].
    intros H. rewrite (IH r2 x j Mr eq_refl). exact H. }
  exact (K _ _ _ _ E F).
Qed.

End Cascade.

(* ------------------------------------------------------------------ *)
(** ** The buffers of [human_bytes] *)

Lemma store_length (s : string) : forall (l : list string) (n : nat),
  List.length (HumanBytes.store n s l) = List.length l.
Proof.
  induction l as [|x r IH]; intros [|n]; simpl; try reflexivity.
  rewrite IH. reflexivity.
Qed.

Lemma store_nth_other (s : string) : forall (l : list string) (n j : nat),
  j <> n -> nth j (HumanBytes.store n s l) EmptyString = nth j l EmptyString.
Proof.
  induction l as [|x r IH]; intros [|n] [|j] H; simpl; try reflexivity;
    try contradiction.
  apply IH. auto.
Qed.

(** After a run of calls the index has advanced by their number, and a
    buffer that none of them selected holds what it held. *)
Lemma human_bytes_calls_spec (bs : list Z) : forall st,
  List.length (HumanBytes.bufs st) = 8%nat ->
  let st' := human_bytes_calls st bs in
  List.length (HumanBytes.bufs st') = 8%nat /\
  HumanBytes.idx st' = match bs with
                       | [] => HumanBytes.idx st
                       | _ :: _ =>
                           (HumanBytes.idx st + Z.of_nat (List.length bs)) mod 8
                       end /\
  forall j, 0 <= j < 8 ->
            (forall k, 1 <= k <= Z.of_nat (List.length bs) ->
                       (HumanBytes.idx st + k) mod 8 <> j) ->
            HumanBytes.deref st' j = HumanBytes.deref st j.
Proof.
  induction bs as [|b rest IH]; intros st L; cbn [human_bytes_calls fold_left].
  - auto.
  - set (st1 := fst (HumanBytes.human_bytes st b)).
    assert (L1 : List.length (HumanBytes.bufs st1) = 8%nat).
    { subst st1. simpl. rewrite store_length. exact L. }
    assert (I1 : HumanBytes.idx st1 = (HumanBytes.idx st + 1) mod 8) by reflexivity.
    destruct (IH st1 L1) as (A & B & C). fold (human_bytes_calls st1 rest).
    split; [exact A|]. split.
    + rewrite B, I1. destruct rest as [|b' r']; cbn [List.length].
      * f_equal.
      * rewrite Zplus_mod_idemp_l. f_equal. lia.
    + intros j J K. rewrite C; [|exact J|].
      * subst st1. unfold HumanBytes.deref, HumanBytes.human_bytes. simpl.
        apply store_nth_other. specialize (K 1 ltac:(cbn [List.length]; lia)).
        pose proof (Z.mod_pos_bound (HumanBytes.idx st + 1) 8 ltac:(lia)). lia.
      * intros k Hk. rewrite I1, Zplus_mod_idemp_l.
        replace (HumanBytes.idx st + 1 + k) with (HumanBytes.idx st + (k + 1)) by lia.
        apply K. cbn [List.length]. lia.
Qed.

(** X24.  [human_bytes] hands out eight buffers in turn: the text a call
    returned stays intact through the next seven calls, whatever they
    format, and the eighth call after it returns the same buffer with a
    new text.  Up to eight results can therefore be used in one
    [printf]. *)
Theorem human_bytes_buffer_lifetime (st : HumanBytes.statics) (b : Z)
    (bs : list Z) :
  List.length (HumanBytes.bufs st) = 8%nat ->
  (List.length bs <= 7)%nat ->
  let st1 := fst (HumanBytes.human_bytes st b) in
  let p := snd (HumanBytes.human_bytes st b) in
  HumanBytes.deref (human_bytes_calls st1 bs) p = HumanBytes.text b /\
  (List.length bs = 7%nat ->
   forall b', snd (HumanBytes.human_bytes (human_bytes_calls st1 bs) b') = p /\
              HumanBytes.deref
                (fst (HumanBytes.human_bytes (human_bytes_calls st1 bs) b')) p
              = HumanBytes.text b').
Proof.
  intros L B st1 p.
  assert (P : 0 <= p < 8).
  { subst p. simpl. apply Z.mod_pos_bound. lia. }
  assert (L1 : List.length (HumanBytes.bufs st1) = 8%nat).
  { subst st1. simpl. rewrite store_length. exact L. }
  assert (I1 : HumanBytes.idx st1 = p) by reflexivity.
  destruct (human_bytes_calls_spec bs st1 L1) as (A & I & C).
  split.
  - rewrite C; [|exact P|].
    + subst st1 p. apply human_bytes_deref. exact L.
    + intros k Hk. rewrite I1. Z.div_mod_to_equations. lia.
  - intros B7 b'.
    assert (E : snd (HumanBytes.human_bytes (human_bytes_calls st1 bs) b') = p).
    { cbn [HumanBytes.human_bytes snd]. rewrite I, I1.
      destruct bs as [|x r]; [discriminate|]. rewrite B7.
      rewrite Zplus_mod_idemp_l. Z.div_mod_to_equations. lia. }
    split; [exact E|]. rewrite <- E. apply human_bytes_deref. exact A.
Qed.

Lemma human_bytes_buffer_lifetime_witness :
  HumanBytes.deref
    (human_bytes_calls (fst (HumanBytes.human_bytes HumanBytes.init 1536))
                       [1; 2; 3; 4; 5; 6; 7])
    (snd (HumanBytes.human_bytes HumanBytes.init 1536))
  = HumanBytes.text 1536.
Proof.
  exact (proj1 (human_bytes_buffer_lifetime HumanBytes.init 1536
                  [1; 2; 3; 4; 5; 6; 7] eq_refl ltac:(simpl; lia))).
Defined.

(* ------------------------------------------------------------------ *)
(** ** The CPU temperature *)

Section Temperature.
Import CpuTemp.
Local Open Scope Q_scope.

Lemma device_best_from (fs : list Input) : forall best0,
  let b := fold_left input_step fs best0 in
  best0 <= b /\
  (forall v, counted_input fs v -> v <= b) /\
  (b = best0 \/ counted_input fs b).
Proof.
  induction fs as [|f rest IH]; intros best0; cbn [fold_left].
  - split; [lra|]. split; [|left; reflexivity].
    intros v (f & t & [] & _).
  - destruct (IH (input_step best0 f)) as (A & B & C).
    assert (S : best0 <= input_step best0 f /\
                (forall t, is_temp_input (i_name f) = true -> i_value f = Some t ->
                           fdiv t 1000 <= input_step best0 f) /\
                (input_step best0 f = best0 \/
                 counted_input [f] (input_step best0 f))).
    { unfold input_step. destruct (is_temp_input (i_name f)) eqn:N.
      - destruct (i_value f) as [t|] eqn:V.
        + destruct (fgtb (fdiv t 1000) best0) eqn:G.
          * apply fgtb_true in G. split; [lra|]. split.
            -- intros t' _ E. injection E as <-. lra.
            -- right. exists f, t. simpl. auto.
          * apply fgtb_false in G. split; [lra|]. split; [|left; reflexivity].
            intros t' _ E. injection E as <-. exact G.
        + split; [lra|]. split; [discriminate|left; reflexivity].
      - split; [lra|]. split; [discriminate|left; reflexivity]. }
    destruct S as (S1 & S2 & S3).
    split; [lra|]. split.
    + intros v (f' & t & [<-|I] & N & V & ->).
      * specialize (S2 t N V). lra.
      * apply B. exists f', t. auto.
    + destruct C as [C|(f' & t & I & N & V & E)].
      * rewrite C. destruct S3 as [S3|(f' & t & [<-|[]] & N & V & E)];
          [left; exact S3|]. right. exists f, t. simpl. auto.
      * right. exists f', t. simpl. auto.
Qed.

Lemma hwmon_scan_Some (ds : list Device) (r : double) :
  hwmon_scan ds = Some r ->
  exists d n fs, In d ds /\ d_label d = Some n /\ device_label_matches n = true /\
                 d_inputs d = Some fs /\ r = device_best fs /\ sentinel < r.
Proof.
  induction ds as [|d rest IH]; simpl; [discriminate|].
  destruct (device_reading d) as [t|] eqn:R.
  - intros H. injection H as <-. unfold device_reading in R.
    destruct (d_label d) as [n|] eqn:Ln; [|discriminate].
    destruct (device_label_matches n) eqn:M; [|discriminate].
    destruct (d_inputs d) as [fs|] eqn:I; [|discriminate].
    cbv zeta in R. destruct (fgtb (device_best fs) sentinel) eqn:G; [|discriminate].
    injection R as <-. apply fgtb_true in G. exists d, n, fs. auto 8.
  - intros H. destruct (IH H) as (d' & n & fs & I & rest').
    exists d', n, fs. split; [right; exact I|exact rest'].
Qed.

(** X25.  When no thermal zone yields a reading, the temperature is
    either the sentinel -1000, which the header does not print, or it
    comes from a hwmon device labelled coretemp, cpu or k10temp: it is
    then the highest of the readings of that device's [temp*_input]
    files, in degrees (the files hold millidegrees), and lies above the
    sentinel. *)
Theorem hwmon_temperature_is_hottest_input (thermal : option (list Zone))
    (hwmon : option (list Device)) :
  match thermal with Some zs => thermal_scan zs | None => None end = None ->
  let r := read_cpu_temp thermal hwmon in
  r = sentinel \/
  exists ds d n fs,
    hwmon = Some ds /\ In d ds /\ d_label d = Some n /\
    device_label_matches n = true /\ d_inputs d = Some fs /\
    sentinel < r /\ counted_input fs r /\
    forall v, counted_input fs v -> v <= r.
Proof.
  intros T r. subst r. unfold read_cpu_temp. rewrite T.
  destruct hwmon as [ds|]; [|left; reflexivity].
  destruct (hwmon_scan ds) as [t|] eqn:H; [|left; reflexivity].
  destruct (hwmon_scan_Some ds t H) as (d & n & fs & I & Ln & M & Fs & E & G).
  right. exists ds, d, n, fs.
  destruct (device_best_from fs sentinel) as (_ & B & C).
  fold (device_best fs) in B, C. rewrite <- E in B, C.
  repeat split; auto.
  destruct C as [C|C]; [|exact C]. rewrite C in G. exfalso.
  apply (Qlt_irrefl _ G).
Qed.

Lemma hwmon_temperature_is_hottest_input_witness :
  read_cpu_temp None (Some FixtureTemp.devices) = sentinel \/
  exists ds d n fs,
    Some FixtureTemp.devices = Some ds /\ In d ds /\ d_label d = Some n /\
    device_label_matches n = true /\ d_inputs d = Some fs /\
    sentinel < read_cpu_temp None (Some FixtureTemp.devices) /\
    counted_input fs (read_cpu_temp None (Some FixtureTemp.devices)) /\
    forall v, counted_input fs v ->
              v <= read_cpu_temp None (Some FixtureTemp.devices).
Proof.
  exact (hwmon_temperature_is_hottest_input None (Some FixtureTemp.devices)
           eq_refl).
Defined.

(** The two sensors of the [k10temp] device read 41 and 62.5 degrees. *)
Example cpu_temp_scenario :
  read_cpu_temp None (Some FixtureTemp.devices) == 125 # 2 /\
  read_cpu_temp (Some FixtureTemp.zones) None == 97 # 2 /\
  read_cpu_temp None None = sentinel.
Proof. vm_compute. repeat split. Qed.

Lemma thermal_scan_first (l1 : list Zone) : forall z l2 t,
  (forall z', In z' l1 -> zone_reading z' = None) ->
  zone_reading z = Some t ->
  thermal_scan (l1 ++ z :: l2) = Some t.
Proof.
  induction l1 as [|a r IH]; intros z l2 t N R; simpl.
  - rewrite R. reflexivity.
  - rewrite (N a (or_introl eq_refl)). apply IH; auto.
    intros z' I. apply N. right. exact I.
Qed.

(** X26.  Thermal zones come first: the first entry of
    [/sys/class/thermal] named [thermal_zone*] whose type, in lower case,
    contains pkg, cpu, core or soc and whose [temp] holds a number decides
    the result, its millidegrees divided by 1000; zones before it that
    fail one of these tests are passed over, and neither the zones after
    it nor any hwmon device is looked at. *)
Theorem first_cpu_zone_decides (l1 l2 : list Zone) (z : Zone) (ty : string)
    (t : double) (hwmon : option (list Device)) :
  (forall z', In z' l1 -> zone_reading z' = None) ->
  CStr.starts_with (z_name z) "thermal_zone" = true ->
  z_type z = Some ty -> zone_type_matches ty = true -> z_temp z = Some t ->
  read_cpu_temp (Some (l1 ++ z :: l2)) hwmon = fdiv t 1000.
Proof.
  intros N P Ty M V. unfold read_cpu_temp.
  rewrite (thermal_scan_first l1 z l2 (fdiv t 1000) N); [reflexivity|].
  unfold zone_reading. rewrite P, Ty, M, V. reflexivity.
Qed.

Lemma first_cpu_zone_decides_witness :
  read_cpu_temp (Some FixtureTemp.zones) (Some FixtureTemp.devices)
  = fdiv 48500 1000.
Proof.
  apply (first_cpu_zone_decides (firstn 2 FixtureTemp.zones)
           (skipn 3 FixtureTemp.zones)
           (mkZone "thermal_zone1" (Some "CPU-therm"%string) (Some 48500))
           "CPU-therm" 48500 (Some FixtureTemp.devices)).
  - intros z' [<-|[<-|[]]]; reflexivity.
  - reflexivity.
  - reflexivity.
  - reflexivity.
  - reflexivity.
Defined.

End Temperature.

(* ------------------------------------------------------------------ *)
(** ** The CPU frequency *)

Section Frequency.
Import CpuFreq.
Local Open Scope Q_scope.

Lemma rnd_pos_iff (q : Q) : 0 <= q -> (0 < rnd q <-> 0 < q).
Proof.
  intros N. split; [|apply rnd_sign_pos].
  intros P. destruct (Qlt_le_dec 0 q) as [H|H]; [exact H|].
  assert (E : q == 0) by lra. rewrite (rnd_of_zero q E) in P. lra.
Qed.

(** The sign of a sum of non-negative terms, each scaled by [g]. *)
Lemma sum_sign (g : double -> double) (vs : list double) :
  (forall v, 0 <= v -> 0 <= g v /\ (0 < g v <-> 0 < v)) ->
  forall t0, 0 <= t0 -> Forall (fun v => 0 <= v) vs ->
  let t := fold_left (fun t v => fadd t (g v)) vs t0 in
  0 <= t /\ (0 < t <-> 0 < t0 \/ Exists (fun v => 0 < v) vs).
Proof.
  intros G. induction vs as [|v r IH]; intros t0 T F; cbn [fold_left].
  - split; [exact T|]. split; [auto|]. intros [H|H]; [exact H|inversion H].
  - inversion F as [|? ? Fv Fr]; subst.
    destruct (G v Fv) as [G1 G2].
    assert (S : 0 <= t0 + g v) by lra.
    destruct (IH (fadd t0 (g v)) (rnd_nonneg _ S) Fr) as [A B].
    split; [exact A|]. rewrite B. unfold fadd at 1. rewrite (rnd_pos_iff _ S).
    split.
    + intros [H|H]; [|right; right; exact H].
      destruct (Qlt_le_dec 0 t0) as [P|P]; [left; exact P|].
      right. left. apply G2. clear - H P. lra.
    + intros [H|H]; [left; clear - H G1; lra|].
      inversion H as [? ? Hv|? ? Hr]; subst; [|right; exact Hr].
      left. apply G2 in Hv. clear - Hv T. lra.
Qed.

Lemma info_loop (ls : list InfoLine) : forall a,
  fold_left info_step ls a
  = (fold_left (fun t v => fadd t v) (info_readings ls) (fst a),
     (snd a + Z.of_nat (List.length (info_readings ls)))%Z).
Proof.
  induction ls as [|l r IH]; intros [t c]; cbn [fold_left info_readings flat_map].
  - simpl. f_equal. lia.
  - rewrite IH. unfold info_step.
    destruct (CStr.starts_with (il_text l) "cpu MHz"); [|reflexivity].
    destruct (il_num l); [|reflexivity].
    cbn [fst snd app fold_left List.length]. unfold info_readings.
    f_equal. lia.
Qed.

Lemma dir_loop (ds : list CpuDir) : forall a,
  fold_left dir_step ds a
  = (fold_left (fun t v => fadd t (fdiv v 1000)) (dir_readings ds) (fst a),
     (snd a + Z.of_nat (List.length (dir_readings ds)))%Z).
Proof.
  induction ds as [|d r IH]; intros [t c]; cbn [fold_left dir_readings flat_map].
  - simpl. f_equal. lia.
  - rewrite IH. unfold dir_step.
    destruct (is_cpuN_line (cd_name d)); [|reflexivity].
    destruct (cd_khz d); [|reflexivity].
    cbn [fst snd app fold_left List.length]. unfold dir_readings.
    f_equal. lia.
Qed.

(** The sign of an average. *)
Lemma average_sign (t : double) (n : nat) :
  0 <= t ->
  match average (t, Z.of_nat n) with
  | Some v => n <> 0%nat /\ 0 <= v /\ (0 < v <-> 0 < t)
  | None => n = 0%nat
  end.
Proof.
  intros T. unfold average. cbn [fst snd].
  destruct (Z.ltb_spec 0 (Z.of_nat n)) as [P|P]; [|lia].
  split; [lia|].
  assert (C : 0 < of_int (Z.of_nat n)).
  { apply rnd_sign_pos. change 0 with (inject_Z 0). rewrite <- Zlt_Qlt. exact P. }
  assert (D : 0 <= t / of_int (Z.of_nat n)).
  { apply Qle_shift_div_l; [exact C|]. lra. }
  unfold fdiv. split; [apply rnd_nonneg, D|]. rewrite (rnd_pos_iff _ D).
  split.
  - intros H. destruct (Qlt_le_dec 0 t) as [Q|Q]; [exact Q|].
    assert (E : t == 0) by lra. rewrite E in H. unfold Qdiv in H.
    rewrite Qmult_0_l in H. lra.
  - intros H. apply Qlt_shift_div_l; [exact C|]. lra.
Qed.

(** X27.  [read_cpu_freq] uses the [cpu MHz] lines of [/proc/cpuinfo]
    when at least one carries a number, and only otherwise the
    [scaling_cur_freq] files of the [cpuN] directories.  For readings
    that are 0 or at least 1 (MHz in the first source, kHz in the second,
    so that no quotient by 1000 leaves the normal range of a double) the
    result is not negative, and it is positive, which is when the header
    shows a frequency, exactly when one of the readings used is positive;
    with no reading at all it is 0. *)
Theorem cpu_freq_positive_iff_reading (cpuinfo : option (list InfoLine))
    (sysfs : option (list CpuDir)) :
  Forall (fun v => v == 0 \/ 1 <= v) (freq_source cpuinfo sysfs) ->
  0 <= read_cpu_freq cpuinfo sysfs /\
  (0 < read_cpu_freq cpuinfo sysfs
   <-> Exists (fun v => 0 < v) (freq_source cpuinfo sysfs)) /\
  (freq_source cpuinfo sysfs = [] -> read_cpu_freq cpuinfo sysfs = 0).
Proof.
  intros F0.
  assert (F : Forall (fun v => 0 <= v) (freq_source cpuinfo sysfs)).
  { revert F0. apply Forall_impl. intros v [V|V]; lra. }
  clear F0. revert F.
  unfold read_cpu_freq, freq_source.
  set (rs := match cpuinfo with Some ls => info_readings ls | None => [] end).
  set (ks := match sysfs with Some ds => dir_readings ds | None => [] end).
  assert (A : match cpuinfo with
              | Some ls => average (fold_left info_step ls (0, 0%Z))
              | None => None
              end
              = average (fold_left (fun t v => fadd t v) rs 0,
                         Z.of_nat (List.length rs))).
  { subst rs. destruct cpuinfo as [ls|]; [|reflexivity].
    rewrite info_loop. reflexivity. }
  assert (B : match sysfs with
              | Some ds => average (fold_left dir_step ds (0, 0%Z))
              | None => None
              end
              = average (fold_left (fun t v => fadd t (fdiv v 1000)) ks 0,
                         Z.of_nat (List.length ks))).
  { subst ks. destruct sysfs as [ds|]; [|reflexivity].
    rewrite dir_loop. reflexivity. }
  rewrite A, B. clear A B.
  assert (Gid : forall v, 0 <= v -> 0 <= v /\ (0 < v <-> 0 < v)) by (intros; tauto).
  assert (Gk : forall v, 0 <= v -> 0 <= fdiv v 1000 /\ (0 < fdiv v 1000 <-> 0 < v)).
  { intros v V. assert (D : 0 <= v / 1000).
    { apply Qle_shift_div_l; lra. }
    unfold fdiv. split; [apply rnd_nonneg, D|]. rewrite (rnd_pos_iff _ D).
    split; intros H.
    - destruct (Qlt_le_dec 0 v) as [Q|Q]; [exact Q|].
      assert (E : v == 0) by lra. rewrite E in H. unfold Qdiv in H.
      rewrite Qmult_0_l in H. lra.
    - apply Qlt_shift_div_l; lra. }
  destruct rs as [|r0 rs'] eqn:Rs.
  - cbn [fold_left List.length]. change (average (0, Z.of_nat 0)) with (@None double).
    intros F.
    destruct (sum_sign (fun v => fdiv v 1000) ks Gk 0 ltac:(lra) F) as [S1 S2].
    cbv zeta in S1, S2.
    pose proof (average_sign _ (List.length ks) S1) as V.
    destruct (average _) as [v|].
    + destruct V as (N & V1 & V2). split; [exact V1|]. split.
      * rewrite V2, S2. split; [intros [H|H]; [lra|exact H]|auto].
      * intros E. rewrite E in N. contradiction.
    + split; [lra|]. split; [|reflexivity].
      apply length_zero_iff_nil in V. rewrite V.
      split; [lra|intros H; inversion H].
  - intros F.
    destruct (sum_sign (fun v => v) (r0 :: rs') Gid 0 ltac:(lra) F) as [S1 S2].
    cbv zeta in S1, S2.
    pose proof (average_sign _ (List.length (r0 :: rs')) S1) as V.
    destruct (average _) as [v|]; [|discriminate V].
    destruct V as (N & V1 & V2). split; [exact V1|]. split; [|discriminate].
    rewrite V2, S2. split; [intros [H|H]; [lra|exact H]|auto].
Qed.

Lemma cpu_freq_positive_iff_reading_witness :
  0 < read_cpu_freq (Some FixtureFreq.cpuinfo) None.
Proof.
  destruct (cpu_freq_positive_iff_reading (Some FixtureFreq.cpuinfo) None) as (_ & P & _).
  - repeat (constructor; [right; discriminate|]). constructor.
  - apply P. left. reflexivity.
Defined.

End Frequency.
